(** * ERF expeditor e-mail automation: sheet selection, filtering, grouping,
      recipient resolution and dispatch.

    A shallow embedding of
      - [src/utils/email_resolver.py]      (class [EmailResolver]),
      - [src/email/email_service.py]       (class [OutlookEmailService]),
      - [src/data/excel_processor.py]      (class [ExcelProcessor]),
      - [src/services/automation_service.py] (class [ERFAutomationService]),
      - [config/settings.py]               (class [Config]),
    followed by the properties of the specification, stated on the embedding.

    Conventions.  A Python [str] is the Rocq [string] of its UTF-8 encoding;
    the character functions ([str.strip], [str.upper], [str.lower]) are given
    on the ASCII range, and characters above 127 are left alone; lengths and
    slices ([len], [s[:n]]) count code points, not bytes.  A Python [dict] is
    an association list kept in insertion order with unique keys (the order
    matters for the partial-match loop of the resolver); a Python [set] is a
    [gset].  Objects with mutable attributes are records, and a method is a
    function from the object (and its arguments) to its result and the
    updated object. *)

From Stdlib Require Import ZArith Ascii String List Bool Lia DecimalString.
From Stdlib Require Import Sorting.Sorted Sorting.Permutation.
From stdpp Require Import base decidable sets gmap strings.

Import ListNotations.

(** ** Python string primitives *)

Module Py.

(** [str.isspace] on one ASCII character: TAB, LF, VT, FF, CR, the four
    separators FS GS RS US, and SPACE. *)
Definition isspace (c : ascii) : bool :=
  let n := nat_of_ascii c in
  ((9 <=? n) && (n <=? 13)) || ((28 <=? n) && (n <=? 32)).

Fixpoint lstrip (s : string) : string :=
  match s with
  | EmptyString => EmptyString
  | String c s' => if isspace c then lstrip s' else s
  end.

(** [rstrip] removes the trailing white space: a character is kept when
    something that is kept follows it, or when it is not white space. *)
Fixpoint rstrip (s : string) : string :=
  match s with
  | EmptyString => EmptyString
  | String c s' =>
      match rstrip s' with
      | EmptyString => if isspace c then EmptyString else String c EmptyString
      | String _ _ as r => String c r
      end
  end.

Definition strip (s : string) : string := rstrip (lstrip s).

Definition upper_char (c : ascii) : ascii :=
  let n := nat_of_ascii c in
  if (97 <=? n) && (n <=? 122) then ascii_of_nat (n - 32) else c.

Definition lower_char (c : ascii) : ascii :=
  let n := nat_of_ascii c in
  if (65 <=? n) && (n <=? 90) then ascii_of_nat (n + 32) else c.

Fixpoint map_chars (f : ascii -> ascii) (s : string) : string :=
  match s with
  | EmptyString => EmptyString
  | String c s' => String (f c) (map_chars f s')
  end.

Definition upper : string -> string := map_chars upper_char.
Definition lower : string -> string := map_chars lower_char.

(** [s.startswith(p)] *)
Fixpoint startswith (p s : string) : bool :=
  match p, s with
  | EmptyString, _ => true
  | String _ _, EmptyString => false
  | String a p', String b s' => if Ascii.eqb a b then startswith p' s' else false
  end.

(** [sub in s] for two strings: [sub] occurs in [s] as a contiguous run. *)
Fixpoint contains (sub s : string) : bool :=
  startswith sub s ||
  match s with
  | EmptyString => false
  | String _ s' => contains sub s'
  end.

(** [sep.join(parts)] *)
Fixpoint join (sep : string) (parts : list string) : string :=
  match parts with
  | [] => EmptyString
  | [p] => p
  | p :: rest => p +:+ sep +:+ join sep rest
  end.

(** [str(n)] for a non-negative [int]. *)
Definition str_of_nat (n : nat) : string :=
  NilZero.string_of_uint (Nat.to_uint n).

(** A byte [10xxxxxx] continues the code point that an earlier byte began;
    every other byte begins a code point. *)
Definition is_continuation (c : ascii) : bool :=
  match c with
  | Ascii _ _ _ _ _ _ b6 b7 => b7 && negb b6
  end.

(** [s[:n]]: the first [n] code points, all of [s] when it is shorter.  The
    bytes that continue the last code point taken are taken with it. *)
Fixpoint take (n : nat) (s : string) : string :=
  match s with
  | EmptyString => EmptyString
  | String c s' =>
      if is_continuation c then String c (take n s')
      else match n with
           | O => EmptyString
           | S n' => String c (take n' s')
           end
  end.

(** [len(s)]: the number of code points. *)
Fixpoint len (s : string) : nat :=
  match s with
  | EmptyString => O
  | String c s' => if is_continuation c then len s' else S (len s')
  end.

(** [str(l)] for a list of strings without quotes or escapes: each item in
    single quotes, separated by a comma and a space, in brackets. *)
Definition repr_list (l : list string) : string :=
  "[" +:+ join ", " (map (fun s => "'" +:+ s +:+ "'") l) +:+ "]".

(** [s.isascii()]: every character is below 128. *)
Fixpoint isascii (s : string) : bool :=
  match s with
  | EmptyString => true
  | String (Ascii _ _ _ _ _ _ _ b7) s' => negb b7 && isascii s'
  end.

(** Truth value of a string: the empty string is false. *)
Definition truthy (s : string) : bool :=
  match s with EmptyString => false | String _ _ => true end.

(** Truth value of an [Optional[str]]: [None] and [''] are false. *)
Definition truthy_opt (o : option string) : bool :=
  match o with None => false | Some s => truthy s end.

End Py.

(** ** Python dictionaries with string keys, in insertion order *)

Module Dict.

Definition t (V : Type) : Type := list (string * V).

(** [d.get(k)], also [k in d] followed by [d[k]]. *)
Fixpoint get {V} (d : t V) (k : string) : option V :=
  match d with
  | [] => None
  | (k', v) :: d' => if String.eqb k' k then Some v else get d' k
  end.

(** [d[k] = v]: an existing key keeps its position, a new key goes last. *)
Fixpoint set {V} (d : t V) (k : string) (v : V) : t V :=
  match d with
  | [] => [(k, v)]
  | (k', v') :: d' =>
      if String.eqb k' k then (k', v) :: d' else (k', v') :: set d' k v
  end.

Definition keys {V} (d : t V) : list string := map fst d.

End Dict.

(** ** [src/utils/email_resolver.py] *)

Record EmailResolver : Type := mkEmailResolver {
  email_mapping : Dict.t string;
  unmapped_users : gset string
}.

(** The loop of [resolve_email] over [self.email_mapping.items()]: the first
    entry whose key contains the cleaned name, or is contained in it. *)
Fixpoint partial_match (clean_username : string) (items : Dict.t string)
  : option string :=
  match items with
  | [] => None
  | (eng_id, email) :: rest =>
      if Py.contains clean_username eng_id || Py.contains eng_id clean_username
      then Some email
      else partial_match clean_username rest
  end.

Definition resolve_email (self : EmailResolver) (username : string)
  : option string * EmailResolver :=
  if negb (Py.truthy username) then (None, self)
  else
    let clean_username := Py.upper (Py.strip username) in
    match Dict.get (email_mapping self) clean_username with
    | Some email => (Some email, self)
    | None =>
        match partial_match clean_username (email_mapping self) with
        | Some email => (Some email, self)
        | None =>
            (None,
             {| email_mapping := email_mapping self;
                unmapped_users := {[ username ]} ∪ unmapped_users self |})
        end
    end.

Definition get_unmapped_users (self : EmailResolver) : list string :=
  elements (unmapped_users self).

Definition add_manual_mapping (self : EmailResolver) (username email : string)
  : EmailResolver :=
  if Py.truthy username && Py.truthy email && Py.contains "@" email then
    let clean_username := Py.upper (Py.strip username) in
    {| email_mapping := Dict.set (email_mapping self) clean_username (Py.strip email);
       unmapped_users := unmapped_users self ∖ {[ username ]} |}
  else self.


(** The loop of [bulk_resolve_emails] over [zip(usernames, clean_usernames)]. *)
Fixpoint bulk_resolve_loop (self : EmailResolver)
         (pairs : list (string * string)) (results : Dict.t (option string))
  : Dict.t (option string) * EmailResolver :=
  match pairs with
  | [] => (results, self)
  | (original, clean) :: rest =>
      let found := Dict.get (email_mapping self) clean in
      let results := Dict.set results original found in
      let self :=
        if negb (Py.truthy_opt found)
        then {| email_mapping := email_mapping self;
                unmapped_users := {[ original ]} ∪ unmapped_users self |}
        else self in
      bulk_resolve_loop self rest results
  end.

Definition bulk_resolve_emails (self : EmailResolver) (usernames : list string)
  : Dict.t (option string) * EmailResolver :=
  let clean_usernames := map (fun u => Py.upper (Py.strip u)) usernames in
  bulk_resolve_loop self (combine usernames clean_usernames) [].

(** [dict(zip(keys, values))] *)
Definition dict_of_zip {V} (keys : list string) (values : list V) : Dict.t V :=
  fold_left (fun d kv => Dict.set d (fst kv) (snd kv)) (combine keys values) [].

(** ** [config/settings.py] *)

Module Config.

Definition REQUIRED_COLUMNS : list string :=
  [ "Plnt"; "Ship-To-Plant"; "ERF Nr"; "Item"; "Entered by";
    "Material"; "Material Description"; "Unit"; "ERF Itm Qty";
    "ERF Sched Line Status"; "END"; "PO Due Date"; "Expeditor";
    "Expeditor Status"; "Expeditor Remarks" ].

Definition TARGET_STATUSES : list string := [ "On order"; "Received" ].

End Config.

(** ** IEEE-754 double products [m * 0.7] and [m * 0.8]

    [_is_real_pivot_table] compares an [int] with the product of an [int] and
    a float literal.  Python converts the left factor to a double (exactly,
    for a count below [2^53]), multiplies with one rounding to nearest, ties
    to even, and compares the integer with the rounded product exactly.  The
    literals are the doubles [M / 2^53] for the significands below, so the
    product is [round53 (m * M) / 2^53] and [n > m * c] holds exactly when
    [round53 (m * M) < n * 2^53]. *)

Module Float.

Local Open Scope Z_scope.

(** Round a non-negative integer to 53 significant bits. *)
Definition round53 (P : Z) : Z :=
  let s := Z.log2 P - 52 in
  if s <=? 0 then P
  else
    let q := Z.shiftr P s in
    let r := P - Z.shiftl q s in
    let half := Z.shiftl 1 (s - 1) in
    let q' := if (half <? r) || ((r =? half) && Z.odd q) then q + 1 else q in
    Z.shiftl q' s.

(** Significand of the double nearest to 0.7, that is [0x3FE6666666666666]. *)
Definition M_0_7 : Z := 6305039478318694.
(** Significand of the double nearest to 0.8, that is [0x3FE999999999999A]. *)
Definition M_0_8 : Z := 7205759403792794.

(** [n > m * c] for the double [c = M / 2^53]. *)
Definition int_gt_mul (n m : nat) (M : Z) : bool :=
  round53 (Z.of_nat m * M) <? Z.of_nat n * 2 ^ 53.

End Float.

(** ** Data frames

    A sheet read by [pd.read_excel]: the column labels and the rows below the
    header, each row holding one cell per column.  A cell is a missing value
    or a piece of text; numeric and date cells are outside this model. *)

Inductive Cell : Type :=
| NaN
| Text (s : string).

Record DataFrame : Type := mkDataFrame {
  columns : list string;
  rows : list (list Cell)
}.

Module DF.

(** [len(df)] *)
Definition len (df : DataFrame) : nat := length (rows df).

(** [df.empty]: some axis has length zero. *)
Definition empty (df : DataFrame) : bool :=
  (len df =? 0)%nat || (length (columns df) =? 0)%nat.

(** [name in df.columns] *)
Definition has_column (name : string) (df : DataFrame) : bool :=
  existsb (String.eqb name) (columns df).

(** Position of the column labelled [name]. *)
Fixpoint index_of (name : string) (cols : list string) : option nat :=
  match cols with
  | [] => None
  | c :: cols' =>
      if String.eqb c name then Some 0%nat
      else option_map S (index_of name cols')
  end.

(** The cell of a row in column [j]. *)
Definition cell (row : list Cell) (j : nat) : Cell := nth j row NaN.

(** [df.iloc[i, j]] *)
Definition iloc (df : DataFrame) (i j : nat) : Cell :=
  cell (nth i (rows df) []) j.

(** [pd.isna] on one cell. *)
Definition isna (c : Cell) : bool :=
  match c with NaN => true | Text _ => false end.

(** [str(cell)] *)
Definition str (c : Cell) : string :=
  match c with NaN => "nan" | Text s => s end.

(** [series.isin(values)] on one cell. *)
Definition isin (values : list string) (c : Cell) : bool :=
  match c with
  | NaN => false
  | Text s => existsb (String.eqb s) values
  end.

(** [df[mask]]: the rows selected by a predicate, in order. *)
Definition select (keep : list Cell -> bool) (df : DataFrame) : DataFrame :=
  {| columns := columns df; rows := List.filter keep (rows df) |}.

End DF.

(** ** [src/utils/email_resolver.py]: loading the mapping

    The table read by [pd.read_excel] is a frame; [None] stands for a file
    that does not exist or cannot be read. *)

(** The first column whose label contains an at sign. *)
Fixpoint find_email_label (labels : list string) (j : nat) : option nat :=
  match labels with
  | [] => None
  | col :: rest =>
      if Py.contains "@" col then Some j else find_email_label rest (S j)
  end.

(** [df[col].dropna().head(3).astype(str)] for the column at position [j]. *)
Definition column_sample (df : DataFrame) (j : nat) : list string :=
  firstn 3
    (flat_map (fun row => match DF.cell row j with
                          | NaN => []
                          | Text s => [s]
                          end) (rows df)).

(** The first column after the first one whose sample holds an at sign. *)
Fixpoint find_email_data (df : DataFrame) (labels : list string) (j : nat)
  : option nat :=
  match labels with
  | [] => None
  | _ :: rest =>
      if existsb (Py.contains "@") (column_sample df j) then Some j
      else find_email_data df rest (S j)
  end.

(** The mask [valid_rows] of [_load_mapping_fast] on one row. *)
Definition valid_mapping_row (email_col : nat) (row : list Cell) : bool :=
  match DF.cell row 0, DF.cell row email_col with
  | Text eng, Text email =>
      Py.contains "@" email
      && negb (String.eqb (Py.strip eng) "")
      && negb (String.eqb (Py.upper eng) "ENG")
  | _, _ => false
  end.

Definition _setup_fallback_mode (self : EmailResolver) : EmailResolver :=
  let known_mappings : Dict.t string := [] in
  {| email_mapping :=
       fold_left (fun d kv => Dict.set d (fst kv) (snd kv)) known_mappings
                 (email_mapping self);
     unmapped_users := unmapped_users self |}.

Definition _load_mapping_fast (self : EmailResolver) (file : option DataFrame)
  : EmailResolver :=
  match file with
  | None => _setup_fallback_mode self
  | Some df =>
      match columns df with
      | [] => _setup_fallback_mode self
      | _ :: other_columns =>
          let email_col :=
            match find_email_label (columns df) 0 with
            | Some j => Some j
            | None => find_email_data df other_columns 1
            end in
          match email_col with
          | None => _setup_fallback_mode self
          | Some j =>
              if negb (Py.truthy (nth j (columns df) ""))
              then _setup_fallback_mode self
              else
                let valid_data := List.filter (valid_mapping_row j) (rows df) in
                let eng_ids :=
                  map (fun row => Py.upper (Py.strip (DF.str (DF.cell row 0))))
                      valid_data in
                let emails :=
                  map (fun row => Py.strip (DF.str (DF.cell row j))) valid_data in
                {| email_mapping := dict_of_zip eng_ids emails;
                   unmapped_users := unmapped_users self |}
          end
      end
  end.

(** One turn of the loop of [load_manual_mappings] over [df.iterrows()]. *)
Definition load_manual_row (username_col email_col : nat)
           (self : EmailResolver) (row : list Cell) : EmailResolver :=
  let username := Py.strip (DF.str (DF.cell row username_col)) in
  let email := Py.strip (DF.str (DF.cell row email_col)) in
  if Py.truthy username && Py.truthy email && Py.contains "@" email
  then add_manual_mapping self username email
  else self.

Definition load_manual_mappings (self : EmailResolver) (file : option DataFrame)
  : EmailResolver :=
  match file with
  | None => self
  | Some df =>
      match DF.index_of "Username" (columns df),
            DF.index_of "Email" (columns df) with
      | Some u, Some e => fold_left (load_manual_row u e) (rows df) self
      | _, _ => self
      end
  end.

(** ** [src/data/excel_processor.py] *)

(** The cells [str(df.iloc[i, j]).lower()] for [i] in [range(min(5, len(df)))]
    and [j] in [range(min(5, len(df.columns)))], row by row. *)
Definition first_few_cells (df : DataFrame) : list string :=
  flat_map
    (fun i => map (fun j => Py.lower (DF.str (DF.iloc df i j)))
                  (seq 0 (Nat.min 5 (length (columns df)))))
    (seq 0 (Nat.min 5 (DF.len df))).

Definition pivot_indicators : list string :=
  [ "column labels"; "row labels"; "count of"; "sum of"; "grand total" ].

(** The last check of [_is_real_pivot_table]: some indicator occurs in the
    cells joined by single spaces. *)
Definition has_pivot_indicator (df : DataFrame) : bool :=
  let cell_text := Py.join " " (first_few_cells df) in
  existsb (fun indicator => Py.contains indicator cell_text) pivot_indicators.

Definition unnamed_cols (df : DataFrame) : list string :=
  List.filter (Py.contains "Unnamed:") (columns df).

(** [df.iloc[0].isna().sum()] *)
Definition first_row_na_count (df : DataFrame) : nat :=
  length (List.filter DF.isna
            (map (DF.iloc df 0) (seq 0 (length (columns df))))).

Definition _is_real_pivot_table (df : DataFrame) : bool :=
  if (DF.len df <? 3)%nat then false
  else if Float.int_gt_mul (length (unnamed_cols df)) (length (columns df)) Float.M_0_7
  then true
  else if Float.int_gt_mul (first_row_na_count df) (length (columns df)) Float.M_0_8
  then true
  else has_pivot_indicator df.

Definition _score_sheet (df : DataFrame) : nat :=
  let df_columns := map Py.strip (columns df) in
  fold_left
    (fun score required_col =>
       if existsb (String.eqb required_col) df_columns then S score else score)
    Config.REQUIRED_COLUMNS 0%nat.

(** A workbook: the sheet names in order, each with the frame [pd.read_excel]
    returns for it. *)
Definition Workbook : Type := list (string * DataFrame).

(** The three local variables of the loop of [find_data_sheet]. *)
Record Best : Type := mkBest {
  best_sheet : option string;
  best_score : nat;
  best_data : option DataFrame
}.

(** One iteration of the loop of [find_data_sheet]. *)
Definition analyze_sheet (best : Best) (sheet : string * DataFrame) : Best :=
  let '(sheet_name, df) := sheet in
  if DF.empty df then best
  else
    let has_status := DF.has_column "ERF Sched Line Status" df in
    let has_entered_by := DF.has_column "Entered by" df in
    if negb (has_status && has_entered_by) then best
    else if _is_real_pivot_table df then best
    else
      let score := _score_sheet df in
      if (best_score best <? score)%nat
      then {| best_sheet := Some sheet_name; best_score := score; best_data := Some df |}
      else best.

Definition find_data_sheet (wb : Workbook)
  : bool * option string * option DataFrame :=
  let best :=
    fold_left analyze_sheet wb
      {| best_sheet := None; best_score := 0; best_data := None |} in
  if Py.truthy_opt (best_sheet best)
  then (true, best_sheet best, best_data best)
  else (false, None, None).

(** A [DataFrameGroupBy]: the frame and the position of the key column. *)
Record GroupBy : Type := mkGroupBy {
  gb_frame : DataFrame;
  gb_by : nat
}.

Record ExcelProcessor : Type := mkExcelProcessor {
  raw_data : option DataFrame;
  filtered_data : option DataFrame;
  grouped_data : option GroupBy;
  selected_sheet : option string
}.

(** [load_file], for a path that [validate_excel_file] accepts and whose
    workbook is [wb]. *)
Definition load_file (self : ExcelProcessor) (wb : Workbook)
  : bool * ExcelProcessor :=
  match find_data_sheet wb with
  | (true, sheet_name, sheet_data) =>
      (true,
       {| raw_data := sheet_data;
          filtered_data := filtered_data self;
          grouped_data := grouped_data self;
          selected_sheet := sheet_name |})
  | (false, _, _) => (false, self)
  end.

(** The rows kept by [df[df[col].isin(values)]]. *)
Definition filter_by_status (values : list string) (j : nat) (df : DataFrame)
  : DataFrame :=
  DF.select (fun row => DF.isin values (DF.cell row j)) df.

Definition filter_data (self : ExcelProcessor) : bool * ExcelProcessor :=
  match raw_data self with
  | None => (false, self)
  | Some raw =>
      match DF.index_of "ERF Sched Line Status" (columns raw) with
      | None => (false, self)
      | Some j =>
          let filtered := filter_by_status Config.TARGET_STATUSES j raw in
          let self' :=
            {| raw_data := raw_data self;
               filtered_data := Some filtered;
               grouped_data := grouped_data self;
               selected_sheet := selected_sheet self |} in
          if (DF.len filtered =? 0)%nat then (false, self') else (true, self')
      end
  end.

(** [df.dropna(subset=[col])] followed by [df[df[col].str.strip() != '']]. *)
Definition valid_key (j : nat) (row : list Cell) : bool :=
  match DF.cell row j with
  | NaN => false
  | Text s => negb (String.eqb (Py.strip s) "")
  end.

Definition group_by_requester (self : ExcelProcessor) : bool * ExcelProcessor :=
  match filtered_data self with
  | None => (false, self)
  | Some filtered =>
      match DF.index_of "Entered by" (columns filtered) with
      | None => (false, self)
      | Some j =>
          let clean_data := DF.select (valid_key j) filtered in
          if (DF.len clean_data =? 0)%nat then (false, self)
          else
            (true,
             {| raw_data := raw_data self;
                filtered_data := filtered_data self;
                grouped_data := Some {| gb_frame := clean_data; gb_by := j |};
                selected_sheet := selected_sheet self |})
      end
  end.

(** *** Iterating a [groupby]

    [DataFrame.groupby(by)] is called with its defaults, [sort=True] and
    [dropna=True]: the group keys are the distinct values of the key column
    in ascending order, and each group holds, in the order of the frame, the
    rows with that key. *)

(** [pd.unique]: the distinct values in order of first appearance. *)
Fixpoint unique (l : list string) : list string :=
  match l with
  | [] => []
  | x :: l' => x :: List.filter (fun y => negb (String.eqb x y)) (unique l')
  end.

Fixpoint insert_sorted (k : string) (l : list string) : list string :=
  match l with
  | [] => [k]
  | h :: t => if String.leb k h then k :: l else h :: insert_sorted k t
  end.

(** [sorted(l)] for strings, compared by code points. *)
Definition sorted (l : list string) : list string :=
  fold_right insert_sorted [] l.

(** The text values of the key column, row by row ([dropna=True]). *)
Definition key_values (j : nat) (df : DataFrame) : list string :=
  flat_map (fun row => match DF.cell row j with NaN => [] | Text s => [s] end)
           (rows df).

Definition has_key (j : nat) (k : string) (row : list Cell) : bool :=
  match DF.cell row j with
  | NaN => false
  | Text s => String.eqb s k
  end.

(** [for name, group in grouped] *)
Definition groupby_iter (g : GroupBy) : list (string * DataFrame) :=
  map (fun k => (k, DF.select (has_key (gb_by g) k) (gb_frame g)))
      (sorted (unique (key_values (gb_by g) (gb_frame g)))).

(** [{name: group for name, group in self.grouped_data}] *)
Definition get_grouped_data (self : ExcelProcessor) : Dict.t DataFrame :=
  match grouped_data self with
  | None => []
  | Some g =>
      fold_left (fun d '(name, group) => Dict.set d name group)
                (groupby_iter g) []
  end.

(** ** [src/utils/validators.py] *)

Definition validate_dataframe_columns (df : DataFrame)
  : bool * string * list string :=
  let df_columns := columns df in
  let missing_columns :=
    List.filter (fun col => negb (existsb (String.eqb col) df_columns))
                Config.REQUIRED_COLUMNS in
  match missing_columns with
  | [] => (true, "All required columns present", [])
  | _ => (false, "Missing columns: " +:+ Py.repr_list missing_columns,
          missing_columns)
  end.

(** ** Collaborators

    The parts of the program that live outside the embedded code: the Outlook
    application behind [win32com], the HTML rendering of a body, the message
    template and the environment variable read by [Config]. *)

(** The mail item handed to Outlook by [send_email]. *)
Record MailItem : Type := mkMailItem {
  mail_To : string;
  mail_Subject : string;
  mail_HTMLBody : string;
  mail_CC : option string;
  mail_Attachments : list string
}.

Class Collaborators : Type := {
  (** the state of the Outlook application *)
  World : Type;
  (** [CreateItem], the assignments and [mail.Send()]: [false] stands for an
      exception raised on the way *)
  outlook_deliver : World -> MailItem -> bool * World;
  (** [OutlookEmailService._convert_to_html] *)
  convert_to_html : string -> string;
  (** [EmailTemplate.generate_status_email]: subject and body *)
  generate_status_email : string -> DataFrame -> string * string;
  (** [Config.SEARCH_OUTLOOK_CONTACTS] *)
  SEARCH_OUTLOOK_CONTACTS : bool;
  (** the report written by [export_unmapped_users] for a mode tag and a
      non-empty list of users: the file name, [None] when writing fails *)
  write_unmapped_report : string -> list string -> option string
}.

(** ** [src/email/email_service.py] *)

Record ResolutionStats : Type := mkStats {
  mapped : nat;
  outlook_resolved : nat;
  fallback_used : nat;
  failed : nat
}.

Definition zero_stats : ResolutionStats :=
  {| mapped := 0; outlook_resolved := 0; fallback_used := 0; failed := 0 |}.

(** An entry of the Global Address List: its display name and the value of
    [entry.GetExchangeUser().PrimarySmtpAddress], [None] when that raises. *)
Record AddressEntry : Type := mkEntry {
  entry_Name : string;
  entry_PrimarySmtpAddress : option string
}.

(** The keys of an e-mail dictionary that [send_bulk_emails] reads:
    [env_cc] is [email_info.get('cc', [])] and [env_attachments] is
    [email_info.get('attachments', [])], so a dictionary without the key
    has [[]] there. *)
Record Envelope : Type := mkEnvelope {
  env_to : string;
  env_subject : string;
  env_body : string;
  env_cc : list string;
  env_attachments : list string
}.

Section Service.

Context `{!Collaborators}.

(** [send_calls] is a history variable: [send_email] records each call it
    receives, oldest first.  The program does not read it. *)
Record OutlookEmailService : Type := mkService {
  outlook : World;
  is_connected : bool;
  address_book : option (list AddressEntry);
  email_resolver : EmailResolver;
  resolution_stats : ResolutionStats;
  send_calls : list Envelope
}.

Definition with_resolver (self : OutlookEmailService) (r : EmailResolver) :=
  {| outlook := outlook self; is_connected := is_connected self;
     address_book := address_book self; email_resolver := r;
     resolution_stats := resolution_stats self; send_calls := send_calls self |}.

Definition with_stats (self : OutlookEmailService) (st : ResolutionStats) :=
  {| outlook := outlook self; is_connected := is_connected self;
     address_book := address_book self; email_resolver := email_resolver self;
     resolution_stats := st; send_calls := send_calls self |}.

Definition with_outlook (self : OutlookEmailService) (w : World) :=
  {| outlook := w; is_connected := is_connected self;
     address_book := address_book self; email_resolver := email_resolver self;
     resolution_stats := resolution_stats self; send_calls := send_calls self |}.

Definition record_call (self : OutlookEmailService) (e : Envelope) :=
  {| outlook := outlook self; is_connected := is_connected self;
     address_book := address_book self; email_resolver := email_resolver self;
     resolution_stats := resolution_stats self;
     send_calls := send_calls self ++ [e] |}.

Definition incr_mapped (st : ResolutionStats) : ResolutionStats :=
  {| mapped := S (mapped st); outlook_resolved := outlook_resolved st;
     fallback_used := fallback_used st; failed := failed st |}.

Definition incr_outlook_resolved (st : ResolutionStats) : ResolutionStats :=
  {| mapped := mapped st; outlook_resolved := S (outlook_resolved st);
     fallback_used := fallback_used st; failed := failed st |}.

Definition incr_failed (st : ResolutionStats) : ResolutionStats :=
  {| mapped := mapped st; outlook_resolved := outlook_resolved st;
     fallback_used := fallback_used st; failed := S (failed st) |}.

(** The loop over [self.address_book.AddressEntries]: the first entry whose
    name contains the searched text decides; an exception raised while
    reading its address ends the search without a result. *)
Fixpoint search_address_entries (name_or_email : string)
         (entries : list AddressEntry) : option string :=
  match entries with
  | [] => None
  | entry :: rest =>
      if Py.contains (Py.lower name_or_email) (Py.lower (entry_Name entry))
      then entry_PrimarySmtpAddress entry
      else search_address_entries name_or_email rest
  end.

Definition search_contact_email (self : OutlookEmailService)
           (name_or_email : string) : option string * OutlookEmailService :=
  if negb (Py.truthy name_or_email) then (None, self)
  else if Py.contains "@" name_or_email && Py.contains "." name_or_email
  then (Some name_or_email, self)
  else
    let '(mapped_email, resolver) :=
      resolve_email (email_resolver self) name_or_email in
    let self := with_resolver self resolver in
    if Py.truthy_opt mapped_email
    then (mapped_email, with_stats self (incr_mapped (resolution_stats self)))
    else
      let found :=
        match address_book self with
        | Some entries =>
            if is_connected self && SEARCH_OUTLOOK_CONTACTS
            then search_address_entries name_or_email entries
            else None
        | None => None
        end in
      match found with
      | Some email =>
          (Some email,
           with_stats self (incr_outlook_resolved (resolution_stats self)))
      | None =>
          (None, with_stats self (incr_failed (resolution_stats self)))
      end.

(** The loop of [send_email] over [cc_addresses]. *)
Fixpoint resolve_cc (self : OutlookEmailService) (cc_addresses : list string)
  : list string * OutlookEmailService :=
  match cc_addresses with
  | [] => ([], self)
  | cc_addr :: rest =>
      let '(cc_email, self) := search_contact_email self cc_addr in
      let '(cc_emails, self) := resolve_cc self rest in
      (match cc_email with
       | Some e => if Py.truthy e then e :: cc_emails else cc_emails
       | None => cc_emails
       end, self)
  end.

(** [send_email] with [is_html=True], as [send_bulk_emails] calls it. *)
Definition send_email (self : OutlookEmailService)
           (to_address subject body : string)
           (cc_addresses attachments : list string)
  : bool * OutlookEmailService :=
  let self :=
    record_call self
      (mkEnvelope to_address subject body cc_addresses attachments) in
  if negb (is_connected self) then (false, self)
  else
    let '(resolved_email, self) := search_contact_email self to_address in
    match resolved_email with
    | None => (false, self)
    | Some resolved =>
        if negb (Py.truthy resolved) then (false, self)
        else
          let '(cc_emails, self) := resolve_cc self cc_addresses in
          let mail :=
            {| mail_To := resolved;
               mail_Subject := subject;
               mail_HTMLBody := convert_to_html body;
               mail_CC := match cc_emails with
                          | [] => None
                          | _ => Some (Py.join "; " cc_emails)
                          end;
               mail_Attachments := attachments |} in
          let '(sent, w) := outlook_deliver (outlook self) mail in
          (sent, with_outlook self w)
    end.

(** The loop of [send_bulk_emails]. *)
Fixpoint send_loop (self : OutlookEmailService) (email_data : list Envelope)
         (successful failed : nat) : nat * nat * OutlookEmailService :=
  match email_data with
  | [] => (successful, failed, self)
  | email_info :: rest =>
      let '(success, self) :=
        send_email self (env_to email_info) (env_subject email_info)
                   (env_body email_info) (env_cc email_info)
                   (env_attachments email_info) in
      if success then send_loop self rest (S successful) failed
      else send_loop self rest successful (S failed)
  end.

Definition send_bulk_emails (self : OutlookEmailService)
           (email_data : list Envelope) : nat * nat * OutlookEmailService :=
  send_loop (with_stats self zero_stats) email_data 0 0.

End Service.

(** ** [src/services/automation_service.py] *)

(** The dictionary built per requester by
    [generate_email_data_with_resolution]. *)
Record EmailInfo : Type := mkEmailInfo {
  to : string;
  resolved_email : option string;
  subject : string;
  body : string;
  requester_name : string;
  item_count : nat;
  email_found : bool
}.

(** What [send_bulk_emails] reads from such a dictionary, which has no
    ['cc'] and no ['attachments'] key. *)
Definition envelope_of (e : EmailInfo) : Envelope :=
  {| env_to := to e; env_subject := subject e; env_body := body e;
     env_cc := []; env_attachments := [] |}.

(** [ExcelProcessor.get_summary], without the status breakdown. *)
Record ProcessingSummary : Type := mkProcessingSummary {
  summary_selected_sheet : option string;
  total_rows : nat;
  filtered_rows : nat;
  unique_requesters : nat
}.

Definition get_summary (self : ExcelProcessor) : ProcessingSummary :=
  {| summary_selected_sheet := selected_sheet self;
     total_rows := match raw_data self with Some d => DF.len d | None => 0 end;
     filtered_rows := match filtered_data self with Some d => DF.len d | None => 0 end;
     unique_requesters :=
       match grouped_data self with
       | Some g => length (groupby_iter g)
       | None => 0
       end |}.

(** One entry of the list built by [preview_emails]. *)
Record EmailPreview : Type := mkEmailPreview {
  preview_to : string;
  preview_resolved_email : option string;
  preview_subject : string;
  preview_item_count : nat;
  preview_email_found : bool;
  body_preview : string
}.

(** The dictionary returned by [preview_emails]. *)
Record Preview : Type := mkPreview {
  total_emails : nat;
  preview_mapped_count : nat;
  preview_unmapped_count : nat;
  preview_list : list EmailPreview
}.

(** The third component of the result of [manager_demo_mode]. *)
Inductive DemoSummary : Type :=
| DemoError (message : string)
| DemoCancelled
| DemoReport (original_requesters demo_emails_sent demo_emails_failed : nat)
             (test_addresses demo_requesters : list string)
             (stats : ResolutionStats)
             (unmapped : list string) (unmapped_users_file : option string).

(** The third component of the result of [send_emails]. *)
Inductive SendSummary : Type :=
| PreviewReport (emails : list EmailInfo) (mapped_count unmapped_count : nat)
| SendCancelled
| LiveReport (processing : ProcessingSummary)
             (emails_sent emails_failed total_requesters : nat)
             (mapped_count unmapped_count : nat)
             (stats : ResolutionStats)
             (unmapped : list string) (unmapped_users_file : option string).

(** A call that reads the console either returns or dies with [EOFError]
    when the input is exhausted. *)
Inductive Console (A : Type) : Type :=
| Returned (a : A)
| EOFError.
Arguments Returned {A} a.
Arguments EOFError {A}.

(** The [while len(test_emails) < 3] loop of [manager_demo_mode] over the
    lines typed by the operator; it returns the addresses and the lines that
    remain. *)
Fixpoint read_test_emails (test_emails : list string) (stdin : list string)
  : Console (list string * list string) :=
  if (3 <=? length test_emails)%nat then Returned (test_emails, stdin)
  else
    match stdin with
    | [] => EOFError
    | line :: rest =>
        let email := Py.strip line in
        if negb (Py.truthy email) then
          if (0 <? length test_emails)%nat then Returned (test_emails, rest)
          else read_test_emails test_emails rest
        else if Py.contains "@" email
             then read_test_emails (test_emails ++ [email]) rest
             else read_test_emails test_emails rest
    end.

Definition newline : string := String (ascii_of_nat 10) EmptyString.

Definition rule60 : string :=
  "============================================================".

Definition demo_subject (email_info : EmailInfo) : string :=
  "[DEMO] ERF Status for " +:+ requester_name email_info +:+ " - "
  +:+ Py.str_of_nat (item_count email_info) +:+ " Items".

Definition demo_body (email_info : EmailInfo) (test_email : string) : string :=
  let resolved :=
    if Py.truthy_opt (resolved_email email_info)
    then default "" (resolved_email email_info)
    else "Email not found" in
  "THIS IS A DEMO EMAIL FOR MANAGER PRESENTATION" +:+ newline
  +:+ rule60 +:+ newline
  +:+ newline
  +:+ "Email Resolution Demo:" +:+ newline
  +:+ "Original Recipient: " +:+ requester_name email_info +:+ newline
  +:+ "Resolved Email: " +:+ resolved +:+ newline
  +:+ "Items: " +:+ Py.str_of_nat (item_count email_info) +:+ newline
  +:+ "Demo sent to: " +:+ test_email +:+ newline
  +:+ newline
  +:+ body email_info +:+ newline
  +:+ newline
  +:+ rule60 +:+ newline
  +:+ "END OF DEMO EMAIL - Original would go to: " +:+ resolved +:+ newline.

(** The nested loops that fill [demo_email_list]. *)
Definition demo_email_list (demo_data : list EmailInfo)
           (test_emails : list string) : list Envelope :=
  flat_map
    (fun email_info =>
       map (fun test_email =>
              {| env_to := test_email;
                 env_subject := demo_subject email_info;
                 env_body := demo_body email_info test_email;
                 env_cc := [];
                 env_attachments := [] |})
           test_emails)
    demo_data.

Section Automation.

Context `{!Collaborators}.

Record ERFAutomationService : Type := mkAutomation {
  excel_processor : ExcelProcessor;
  email_service : OutlookEmailService
}.

Definition with_email_service (self : ERFAutomationService)
           (svc : OutlookEmailService) : ERFAutomationService :=
  {| excel_processor := excel_processor self; email_service := svc |}.

(** [process_excel_file], for a path whose workbook is [wb]. *)
Definition process_excel_file (self : ERFAutomationService) (wb : Workbook)
  : bool * ERFAutomationService :=
  let with_processor p :=
    {| excel_processor := p; email_service := email_service self |} in
  let '(loaded, p) := load_file (excel_processor self) wb in
  if negb loaded then (false, with_processor p)
  else
    let '(filtered, p) := filter_data p in
    if negb filtered then (false, with_processor p)
    else
      let '(grouped, p) := group_by_requester p in
      if negb grouped then (false, with_processor p)
      else (true, with_processor p).

(** The loop of [generate_email_data_with_resolution] over
    [grouped_data.items()]. *)
Fixpoint resolve_groups (svc : OutlookEmailService)
         (items : Dict.t DataFrame) : list EmailInfo * OutlookEmailService :=
  match items with
  | [] => ([], svc)
  | (requester, items_df) :: rest =>
      let '(resolved, svc) := search_contact_email svc requester in
      let email_content := generate_status_email requester items_df in
      let info :=
        {| to := requester;
           resolved_email := resolved;
           subject := fst email_content;
           body := snd email_content;
           requester_name := requester;
           item_count := DF.len items_df;
           email_found := match resolved with Some _ => true | None => false end |} in
      let '(email_data, svc) := resolve_groups svc rest in
      (info :: email_data, svc)
  end.

Definition generate_email_data_with_resolution (self : ERFAutomationService)
  : list EmailInfo * ERFAutomationService :=
  let grouped_data := get_grouped_data (excel_processor self) in
  let '(email_data, svc) := resolve_groups (email_service self) grouped_data in
  (email_data, with_email_service self svc).

(** [preview_emails]: the counts and one preview per e-mail. *)
Definition body_preview_of (email_body : string) : string :=
  if (300 <? Py.len email_body)%nat
  then Py.take 300 email_body +:+ "..."
  else email_body.

Definition preview_entry (email : EmailInfo) : EmailPreview :=
  {| preview_to := to email;
     preview_resolved_email := resolved_email email;
     preview_subject := subject email;
     preview_item_count := item_count email;
     preview_email_found := email_found email;
     body_preview := body_preview_of (body email) |}.

Definition preview_emails (self : ERFAutomationService)
  : Preview * ERFAutomationService :=
  let '(email_data, self) := generate_email_data_with_resolution self in
  let mapped_count := length (List.filter email_found email_data) in
  let unmapped_count := length email_data - mapped_count in
  ({| total_emails := length email_data;
      preview_mapped_count := mapped_count;
      preview_unmapped_count := unmapped_count;
      preview_list := map preview_entry email_data |}, self).

Definition export_unmapped_users (self : ERFAutomationService) (mode : string)
  : option string :=
  match get_unmapped_users (email_resolver (email_service self)) with
  | [] => None
  | users => write_unmapped_report mode users
  end.

Definition manager_demo_mode (self : ERFAutomationService)
           (stdin : list string)
  : Console (nat * nat * DemoSummary) * ERFAutomationService :=
  let '(email_data, self) := generate_email_data_with_resolution self in
  match email_data with
  | [] => (Returned (0, 0, DemoError "No email data available"), self)
  | _ =>
      let demo_data := firstn 5 email_data in
      match read_test_emails [] stdin with
      | EOFError => (EOFError, self)
      | Returned ([], _) =>
          (Returned (0, 0, DemoError "No test emails"), self)
      | Returned (test_emails, stdin) =>
          match stdin with
          | [] => (EOFError, self)
          | answer :: _ =>
              let confirm := Py.startswith "y" (Py.lower answer) in
              if negb confirm then (Returned (0, 0, DemoCancelled), self)
              else
                let '(successful, failed, svc) :=
                  send_bulk_emails (email_service self)
                                   (demo_email_list demo_data test_emails) in
                let self := with_email_service self svc in
                let unmapped_file := export_unmapped_users self "demo" in
                (Returned
                   (successful, failed,
                    DemoReport (length email_data) successful failed
                               test_emails
                               (map requester_name demo_data)
                               (resolution_stats (email_service self))
                               (get_unmapped_users
                                  (email_resolver (email_service self)))
                               unmapped_file),
                 self)
          end
      end
  end.

Definition count_found (email_data : list EmailInfo) : nat :=
  length (List.filter email_found email_data).

Definition send_emails (self : ERFAutomationService) (test_mode : bool)
           (stdin : list string)
  : Console (nat * nat * SendSummary) * ERFAutomationService :=
  let '(email_data, self) := generate_email_data_with_resolution self in
  let mapped_count := count_found email_data in
  let unmapped_count := length email_data - mapped_count in
  if test_mode then
    (Returned (length email_data, 0,
               PreviewReport email_data mapped_count unmapped_count), self)
  else
    match stdin with
    | [] => (EOFError, self)
    | final_confirm :: _ =>
        if negb (String.eqb final_confirm "SEND LIVE")
        then (Returned (0, 0, SendCancelled), self)
        else
          let sendable_emails := List.filter email_found email_data in
          let '(successful, failed, svc) :=
            send_bulk_emails (email_service self)
                             (map envelope_of sendable_emails) in
          let self := with_email_service self svc in
          let unmapped_file := export_unmapped_users self "live" in
          (Returned
             (successful, failed,
              LiveReport (get_summary (excel_processor self))
                         successful failed (length email_data)
                         mapped_count unmapped_count
                         (resolution_stats (email_service self))
                         (get_unmapped_users
                            (email_resolver (email_service self)))
                         unmapped_file),
           self)
    end.

End Automation.

(** ** Derived definitions used in the statements *)

(** [filter_data] on a processor whose raw data is [raw]. *)
Definition filtered_of (raw : DataFrame) : option DataFrame :=
  filtered_data
    (snd (filter_data
            {| raw_data := Some raw; filtered_data := None;
               grouped_data := None; selected_sheet := None |})).

(** Some single cell of the 5 by 5 window contains an indicator: the marker
    criterion in the words of the specification. *)
Definition some_cell_has_indicator (df : DataFrame) : bool :=
  existsb
    (fun cell_value =>
       existsb (fun indicator => Py.contains indicator cell_value)
               pivot_indicators)
    (first_few_cells df).

(** A sheet the selector may choose: not empty, both mandatory columns
    present, not a pivot table. *)
Definition eligible (df : DataFrame) : bool :=
  negb (DF.empty df)
  && (DF.has_column "ERF Sched Line Status" df && DF.has_column "Entered by" df)
  && negb (_is_real_pivot_table df).

(** The state of the loop of [find_data_sheet] after the sheets [wb]: either
    nothing was eligible so far, or the loop holds an eligible sheet that
    beats every eligible sheet before it and is not beaten by one after it. *)
Inductive SelectorInv : Best -> Workbook -> Prop :=
| SelectorNone (wb : Workbook) :
    (forall s, In s wb -> eligible (snd s) = false) ->
    SelectorInv {| best_sheet := None; best_score := 0; best_data := None |} wb
| SelectorSome (pre : Workbook) (name : string) (df : DataFrame) (post : Workbook) :
    eligible df = true ->
    (forall s, In s pre -> eligible (snd s) = true ->
               (_score_sheet (snd s) < _score_sheet df)%nat) ->
    (forall s, In s post -> eligible (snd s) = true ->
               (_score_sheet (snd s) <= _score_sheet df)%nat) ->
    SelectorInv
      {| best_sheet := Some name; best_score := _score_sheet df;
         best_data := Some df |}
      (pre ++ (name, df) :: post).

(** [group_by_requester] and [get_grouped_data] on a processor whose
    filtered data is [filtered]. *)
Definition grouped_of (filtered : DataFrame) : Dict.t DataFrame :=
  get_grouped_data
    (snd (group_by_requester
            {| raw_data := None; filtered_data := Some filtered;
               grouped_data := None; selected_sheet := None |})).

(** The group order in the words of the specification: the distinct keys of
    the rows with a usable key, in order of first occurrence. *)
Definition first_occurrence_keys (j : nat) (filtered : DataFrame) : list string :=
  unique (key_values j (DF.select (valid_key j) filtered)).

(** Code-point order on strings. *)
Definition str_le (a b : string) : Prop := String.leb a b = true.

Section DerivedService.

Context `{!Collaborators}.

(** The answer of the Outlook tier of [search_contact_email]. *)
Definition outlook_answer (self : OutlookEmailService) (name_or_email : string)
  : option string :=
  match address_book self with
  | Some entries =>
      if is_connected self && SEARCH_OUTLOOK_CONTACTS
      then search_address_entries name_or_email entries
      else None
  | None => None
  end.

(** Neither the exact lookup nor the partial-match loop of [resolve_email]
    finds the identifier in the mapping. *)
Definition mapping_misses (r : EmailResolver) (username : string) : Prop :=
  Dict.get (email_mapping r) (Py.upper (Py.strip username)) = None
  /\ partial_match (Py.upper (Py.strip username)) (email_mapping r) = None.

(** The identifier reaches [resolve_email]: it is neither empty nor shaped
    like an address. *)
Definition reaches_resolver (name_or_email : string) : Prop :=
  name_or_email <> EmptyString
  /\ Py.contains "@" name_or_email && Py.contains "." name_or_email = false.

(** Two services agree on what decides an answer. *)
Definition same_directory (a b : OutlookEmailService) : Prop :=
  email_mapping (email_resolver a) = email_mapping (email_resolver b)
  /\ address_book a = address_book b
  /\ is_connected a = is_connected b.

End DerivedService.

(** The envelope sent for a pair of a requester's e-mail and a test
    address in demo mode. *)
Definition demo_envelope (pair : EmailInfo * string) : Envelope :=
  {| env_to := snd pair;
     env_subject := demo_subject (fst pair);
     env_body := demo_body (fst pair) (snd pair);
     env_cc := [];
     env_attachments := [] |}.

(** The identifier as the lookups see it. *)
Definition clean_of (username : string) : string := Py.upper (Py.strip username).

(** Every address stored in a mapping contains an at sign. *)
Definition values_have_at (d : Dict.t string) : Prop :=
  List.Forall (fun kv => Py.contains "@" (snd kv) = true) d.

(** Every key of a mapping is non-empty and already in cleaned form. *)
Definition keys_are_clean (d : Dict.t string) : Prop :=
  List.Forall (fun kv => fst kv <> EmptyString /\ clean_of (fst kv) = fst kv) d.

(** The resolver as [EmailResolver.__init__] builds it from the mapping file. *)
Definition new_resolver (file : option DataFrame) : EmailResolver :=
  _load_mapping_fast {| email_mapping := []; unmapped_users := ∅ |} file.

(** The four counters of the statistics, in the order of the source. *)
Definition stats_are (st : ResolutionStats)
           (n_mapped n_outlook_resolved n_fallback_used n_failed : nat) : Prop :=
  mapped st = n_mapped
  /\ outlook_resolved st = n_outlook_resolved
  /\ fallback_used st = n_fallback_used
  /\ failed st = n_failed.

(** The number of resolutions counted in the statistics. *)
Definition stats_total (st : ResolutionStats) : nat :=
  mapped st + outlook_resolved st + failed st.

(** ** Sample data *)

Definition status_sheet : DataFrame :=
  {| columns := ["ERF Nr"; "ERF Sched Line Status"];
     rows := [ [Text "1"; Text "On order"];
               [Text "2"; Text "on order"];
               [Text "3"; Text "Received "];
               [Text "4"; NaN];
               [Text "5"; Text "Received"] ] |}.

Definition empty_first_row_sheet : DataFrame :=
  {| columns := ["Entered by"; "ERF Sched Line Status"];
     rows := [ [NaN; NaN];
               [Text "JDOE"; Text "On order"] ] |}.

Definition tall_empty_first_row_sheet : DataFrame :=
  {| columns := ["Entered by"; "ERF Sched Line Status"];
     rows := [ [NaN; NaN];
               [Text "JDOE"; Text "On order"];
               [Text "ASMITH"; Text "Received"] ] |}.

Definition split_marker_sheet : DataFrame :=
  {| columns := ["Entered by"; "ERF Sched Line Status"; "Item"];
     rows := [ [Text "JDOE"; Text "Sum"; Text "of parts"];
               [Text "JDOE"; Text "On order"; Text "10"];
               [Text "ASMITH"; Text "Received"; Text "20"] ] |}.

Definition summary_sheet : DataFrame :=
  {| columns := ["Entered by"; "ERF Sched Line Status"; "Item"];
     rows := [ [Text "Row Labels"; Text "Count of Item"; Text "x"];
               [Text "JDOE"; Text "On order"; Text "3"];
               [Text "Grand Total"; Text "Received"; Text "3"] ] |}.

Definition main_data_sheet : DataFrame :=
  {| columns := ["ERF Nr"; "Item"; "Entered by"; "ERF Sched Line Status"];
     rows := [ [Text "100"; Text "10"; Text "JDOE"; Text "On order"];
               [Text "100"; Text "20"; Text "ASMITH"; Text "Received"];
               [Text "101"; Text "10"; Text "JDOE"; Text "Closed"] ] |}.

Definition copy_sheet : DataFrame :=
  {| columns := ["ERF Nr"; "Item"; "Entered by"; "ERF Sched Line Status"];
     rows := [ [Text "200"; Text "10"; Text "BLEE"; Text "On order"] ] |}.

Definition sample_workbook : Workbook :=
  [ ("Summary", summary_sheet); ("Main data", main_data_sheet);
    ("Copy", copy_sheet) ].

Definition requester_sheet : DataFrame :=
  {| columns := ["Entered by"; "Item"];
     rows := [ [Text "bob"; Text "10"];
               [Text "   "; Text "15"];
               [Text "alice"; Text "20"];
               [NaN; Text "25"];
               [Text "bob"; Text "30"] ] |}.

(** Collaborators for the sample runs: Outlook counts the mails it sent and
    refuses those addressed to [bounce@example.com]. *)
Definition sample_collaborators : Collaborators :=
  {| World := nat;
     outlook_deliver := fun w mail =>
       if String.eqb (mail_To mail) "bounce@example.com"
       then (false, w) else (true, S w);
     convert_to_html := fun body => body;
     generate_status_email := fun requester items_df =>
       ("ERF Status Update - " +:+ Py.str_of_nat (DF.len items_df) +:+ " Items",
        "Hello " +:+ requester +:+ ",");
     SEARCH_OUTLOOK_CONTACTS := true;
     write_unmapped_report := fun mode users =>
       Some ("unmapped_users_" +:+ mode +:+ ".xlsx") |}.

Definition sample_service : @OutlookEmailService sample_collaborators :=
  @mkService sample_collaborators
    0%nat
    true
    (Some [ mkEntry "Lee, Bruce" (Some "bruce.lee@example.com");
            mkEntry "Doe, John" (Some "john.doe@example.com") ])
    (mkEmailResolver [ ("ASMITH", "a.smith@example.com");
                       ("CJONES", "bounce@example.com") ] ∅)
    zero_stats
    [].

Definition team_sheet : DataFrame :=
  {| columns := ["Entered by"; "ERF Sched Line Status"; "Item"];
     rows := [ [Text "gwen"; Text "On order"; Text "10"];
               [Text "asmith"; Text "On order"; Text "20"];
               [Text "doe"; Text "Received"; Text "30"];
               [Text "cjones"; Text "Received"; Text "40"];
               [Text "zed"; Text "On order"; Text "50"];
               [Text "hugo"; Text "On order"; Text "60"];
               [Text "ivy"; Text "Closed"; Text "70"];
               [Text "asmith"; Text "Received"; Text "80"];
               [Text "yann"; Text "On order"; Text "90"] ] |}.

Definition sample_automation : @ERFAutomationService sample_collaborators :=
  snd (@process_excel_file sample_collaborators
         (@mkAutomation sample_collaborators
            {| raw_data := None; filtered_data := None;
               grouped_data := None; selected_sheet := None |}
            sample_service)
         [ ("Summary", summary_sheet); ("Team", team_sheet) ]).

(** The bullet U+2022 of the e-mail template, in UTF-8. *)
Definition bullet : string :=
  String (ascii_of_nat 226)
         (String (ascii_of_nat 128) (String (ascii_of_nat 162) EmptyString)).

Definition mapping_table : DataFrame :=
  {| columns := ["Eng ID"; "Name"; "Mail"];
     rows := [ [Text "Eng"; Text "Name"; Text "Mail"];
               [Text " jdoe "; Text "Doe, John"; Text " j.doe@example.com"];
               [Text "asmith"; Text "Smith, Ann"; Text "not available"];
               [NaN; Text "Nobody"; Text "nobody@example.com"];
               [Text "JDOE"; Text "Doe, John"; Text "john.doe@example.com"];
               [Text "blee"; NaN; Text "b.lee@example.com"] ] |}.

Definition manual_table : DataFrame :=
  {| columns := ["Username"; "Email"; "Status"];
     rows := [ [Text "gwen"; Text " gwen@example.com "; Text "NEEDS_EMAIL"];
               [Text "hugo"; NaN; Text "NEEDS_EMAIL"];
               [NaN; Text "lost@example.com"; Text "NEEDS_EMAIL"] ] |}.

(** * Properties *)

(** ** Strings and dictionaries *)

Lemma truthy_true_iff (s : string) : Py.truthy s = true <-> s <> EmptyString.
Proof. destruct s; simpl; split; congruence. Qed.

Lemma contains_empty (sub : string) :
  sub <> EmptyString -> Py.contains sub EmptyString = false.
Proof. destruct sub; simpl; congruence. Qed.

Lemma contains_truthy (sub s : string) :
  sub <> EmptyString -> Py.contains sub s = true -> Py.truthy s = true.
Proof.
  intros Hsub Hc. destruct s as [|c s]; [|reflexivity].
  rewrite contains_empty in Hc by assumption. discriminate.
Qed.

Lemma dict_get_set_eq {V} (d : Dict.t V) (k : string) (v : V) :
  Dict.get (Dict.set d k v) k = Some v.
Proof.
  induction d as [|[k' v'] d IH]; simpl.
  - now rewrite String.eqb_refl.
  - destruct (String.eqb k' k) eqn:E; simpl; rewrite E; auto.
Qed.

Lemma dict_set_set {V} (d : Dict.t V) (k : string) (v : V) :
  Dict.set (Dict.set d k v) k v = Dict.set d k v.
Proof.
  induction d as [|[k' v'] d IH]; simpl.
  - now rewrite String.eqb_refl.
  - destruct (String.eqb k' k) eqn:E; simpl; rewrite E; congruence.
Qed.

(** ** The resolver *)

Lemma add_manual_mapping_idempotent (self : EmailResolver) (username email : string) :
  add_manual_mapping (add_manual_mapping self username email) username email
  = add_manual_mapping self username email.
Proof.
  unfold add_manual_mapping.
  destruct (Py.truthy username && Py.truthy email && Py.contains "@" email) eqn:G.
  - simpl. rewrite dict_set_set. f_equal.
    apply set_eq. intros x. rewrite !elem_of_difference. tauto.
  - reflexivity.
Qed.

(** A hit of the exact lookup ends [resolve_email]. *)
Lemma resolve_email_exact_hit (self : EmailResolver) (username email : string) :
  Py.truthy username = true ->
  Dict.get (email_mapping self) (Py.upper (Py.strip username)) = Some email ->
  resolve_email self username = (Some email, self).
Proof.
  intros Hne Hget. unfold resolve_email. rewrite Hne. simpl. now rewrite Hget.
Qed.

(** C6, as amended: for every non-empty identifier whose cleaned form
    (stripped, upper-cased) is a key of the mapping, [resolve_email] returns
    the address stored under that key and leaves the resolver unchanged,
    whatever the partial-match loop would have found; the empty identifier
    is answered with no address before any lookup, whatever the mapping
    holds. *)
Theorem resolve_email_exact_key_wins
        (self : EmailResolver) (username email : string) :
  resolve_email self EmptyString = (None, self)
  /\ (username <> EmptyString ->
      Dict.get (email_mapping self) (Py.upper (Py.strip username)) = Some email ->
      resolve_email self username = (Some email, self)).
Proof.
  split; [reflexivity|].
  intros Hne Hget. apply resolve_email_exact_hit; [|exact Hget].
  now apply truthy_true_iff.
Qed.

Lemma resolve_email_exact_key_wins_witness :
  resolve_email
    (mkEmailResolver [("JDOE2", "other@example.com"); ("JDOE", "j.doe@example.com")] ∅)
    EmptyString
  = (None,
     mkEmailResolver [("JDOE2", "other@example.com"); ("JDOE", "j.doe@example.com")] ∅)
  /\ resolve_email
       (mkEmailResolver [("JDOE2", "other@example.com"); ("JDOE", "j.doe@example.com")] ∅)
       "jdoe"
     = (Some "j.doe@example.com",
        mkEmailResolver [("JDOE2", "other@example.com"); ("JDOE", "j.doe@example.com")] ∅).
Proof.
  destruct (resolve_email_exact_key_wins
              (mkEmailResolver [("JDOE2", "other@example.com");
                                ("JDOE", "j.doe@example.com")] ∅)
              "jdoe" "j.doe@example.com") as [Hempty Hkey].
  split; [exact Hempty|].
  apply Hkey; [discriminate | reflexivity].
Defined.

(** C6, as stated, fails on the empty identifier: its cleaned form can be a
    key of the mapping, and [resolve_email] still answers [None]. *)
Lemma resolve_email_empty_identifier_counterexample :
  let self := mkEmailResolver [("", "nobody@example.com")] ∅ in
  Dict.get (email_mapping self) (Py.upper (Py.strip "")) = Some "nobody@example.com"
  /\ fst (resolve_email self "") = None.
Proof. split; reflexivity. Qed.

(** The scenario of the specification. *)
Example resolve_jdoe :
  fst (resolve_email (mkEmailResolver [("JDOE", "j.doe@example.com")] ∅) "jdoe")
  = Some "j.doe@example.com".
Proof. reflexivity. Qed.

(** C8, as amended: for every non-empty identifier and every address that
    contains an at sign, [add_manual_mapping] followed by [resolve_email] on
    the same identifier returns the stripped address, the identifier is not
    in the unmapped set afterwards, and a second [add_manual_mapping] with
    the same arguments changes nothing. *)
Theorem add_manual_mapping_then_resolve
        (self : EmailResolver) (username email : string) :
  username <> EmptyString ->
  Py.contains "@" email = true ->
  let self1 := add_manual_mapping self username email in
  resolve_email self1 username = (Some (Py.strip email), self1)
  /\ (username ∉ unmapped_users self1)
  /\ (username ∉ unmapped_users (snd (resolve_email self1 username)))
  /\ add_manual_mapping self1 username email = self1.
Proof.
  intros Hne Hat self1.
  assert (Hres : resolve_email self1 username = (Some (Py.strip email), self1)).
  { apply truthy_true_iff in Hne.
    apply resolve_email_exact_hit; [assumption|].
    subst self1. unfold add_manual_mapping. rewrite Hne.
    rewrite (contains_truthy "@" email) by (discriminate || assumption).
    rewrite Hat. simpl. apply dict_get_set_eq. }
  assert (Hnot : username ∉ unmapped_users self1).
  { subst self1. unfold add_manual_mapping.
    apply truthy_true_iff in Hne. rewrite Hne.
    rewrite (contains_truthy "@" email) by (discriminate || assumption).
    rewrite Hat. simpl. rewrite elem_of_difference, elem_of_singleton. tauto. }
  split; [exact Hres|]. split; [exact Hnot|]. split.
  - rewrite Hres. exact Hnot.
  - apply add_manual_mapping_idempotent.
Qed.

Lemma add_manual_mapping_then_resolve_witness :
  let self1 :=
    add_manual_mapping (mkEmailResolver [] {[ "jdoe" ]}) "jdoe" " j.doe@example.com " in
  resolve_email self1 "jdoe" = (Some (Py.strip " j.doe@example.com "), self1)
  /\ ("jdoe" ∉ unmapped_users self1)
  /\ ("jdoe" ∉ unmapped_users (snd (resolve_email self1 "jdoe")))
  /\ add_manual_mapping self1 "jdoe" " j.doe@example.com " = self1.
Proof.
  apply (add_manual_mapping_then_resolve
           (mkEmailResolver [] {[ "jdoe" ]}) "jdoe" " j.doe@example.com ");
    [discriminate | reflexivity].
Defined.

(** C8, as stated, fails in two ways: the address is stored stripped, so an
    address with white space around it is not returned as given; and the
    empty identifier is not mapped at all. *)
Lemma add_manual_mapping_then_resolve_counterexample :
  (Py.contains "@" " j.doe@example.com " = true
   /\ fst (resolve_email
             (add_manual_mapping (mkEmailResolver [] ∅) "jdoe" " j.doe@example.com ")
             "jdoe")
      = Some "j.doe@example.com"
   /\ Some "j.doe@example.com" <> Some " j.doe@example.com ")
  /\ (Py.contains "@" "j.doe@example.com" = true
      /\ fst (resolve_email
                (add_manual_mapping (mkEmailResolver [] ∅) "" "j.doe@example.com")
                "")
         = None).
Proof. repeat split; try reflexivity; discriminate. Qed.

(** ** The record filter *)

Lemma existsb_eqb_In (s : string) (values : list string) :
  existsb (String.eqb s) values = true <-> In s values.
Proof.
  rewrite existsb_exists. split.
  - intros [x [Hin Heq]]. apply String.eqb_eq in Heq. now subst.
  - intros Hin. exists s. split; [assumption | apply String.eqb_refl].
Qed.

Lemma isin_spec (values : list string) (c : Cell) :
  DF.isin values c = true <-> exists s, c = Text s /\ In s values.
Proof.
  destruct c as [|s]; simpl.
  - split; [discriminate | intros [s [H _]]; discriminate].
  - rewrite existsb_eqb_In. split.
    + intros H. now exists s.
    + intros [s' [H1 H2]]. now inversion H1; subst.
Qed.

Lemma filter_twice {A} (f : A -> bool) (l : list A) :
  List.filter f (List.filter f l) = List.filter f l.
Proof.
  induction l as [|x l IH]; simpl; [reflexivity|].
  destruct (f x) eqn:E; simpl; [rewrite E|]; congruence.
Qed.

Lemma filter_by_status_idempotent (values : list string) (j : nat) (df : DataFrame) :
  filter_by_status values j (filter_by_status values j df)
  = filter_by_status values j df.
Proof.
  unfold filter_by_status, DF.select. simpl. now rewrite filter_twice.
Qed.

(** C9: when the status column is present, [filter_data] keeps exactly the
    rows whose status cell is a text equal to one of the target statuses, in
    their order and with the same columns; filtering the result again gives
    the same frame. *)
Theorem filter_data_exact_and_idempotent (raw : DataFrame) (j : nat) :
  DF.index_of "ERF Sched Line Status" (columns raw) = Some j ->
  exists filtered,
    filtered_of raw = Some filtered
    /\ columns filtered = columns raw
    /\ (forall row,
          In row (rows filtered) <->
          In row (rows raw) /\
          exists s, DF.cell row j = Text s /\ In s Config.TARGET_STATUSES)
    /\ filtered_of filtered = Some filtered.
Proof.
  intros Hj.
  exists (filter_by_status Config.TARGET_STATUSES j raw).
  assert (Hfirst : filtered_of raw
                   = Some (filter_by_status Config.TARGET_STATUSES j raw)).
  { unfold filtered_of, filter_data. cbn [raw_data]. rewrite Hj.
    destruct (DF.len _ =? 0)%nat; reflexivity. }
  split; [exact Hfirst|]. split; [reflexivity|]. split.
  - intros row. unfold filter_by_status, DF.select. cbn [rows].
    rewrite filter_In, isin_spec. reflexivity.
  - unfold filtered_of, filter_data. cbn [raw_data].
    change (columns (filter_by_status Config.TARGET_STATUSES j raw))
      with (columns raw).
    rewrite Hj, filter_by_status_idempotent.
    destruct (DF.len _ =? 0)%nat; reflexivity.
Qed.

Lemma filter_data_exact_and_idempotent_witness :
  exists filtered,
    filtered_of status_sheet = Some filtered
    /\ columns filtered = columns status_sheet
    /\ (forall row,
          In row (rows filtered) <->
          In row (rows status_sheet) /\
          exists s, DF.cell row 1 = Text s /\ In s Config.TARGET_STATUSES)
    /\ filtered_of filtered = Some filtered.
Proof.
  apply (filter_data_exact_and_idempotent status_sheet 1). reflexivity.
Defined.

(** The comparison with the target statuses is exact: a different case or a
    trailing blank is no match. *)
Example filter_data_is_exact :
  option_map rows (filtered_of status_sheet)
  = Some [ [Text "1"; Text "On order"]; [Text "5"; Text "Received"] ].
Proof. reflexivity. Qed.

(** ** The pivot classifier *)

Lemma append_nil_l (t : string) : EmptyString +:+ t = t.
Proof. reflexivity. Qed.

Lemma append_cons (c : ascii) (s t : string) :
  String c s +:+ t = String c (s +:+ t).
Proof. reflexivity. Qed.

Lemma append_assoc (s t u : string) : (s +:+ t) +:+ u = s +:+ (t +:+ u).
Proof.
  induction s as [|c s IH]; [reflexivity|].
  rewrite !append_cons. now rewrite IH.
Qed.

Lemma startswith_spec (p s : string) :
  Py.startswith p s = true <-> exists q, s = p +:+ q.
Proof.
  revert s. induction p as [|a p IH]; intros s.
  - simpl. split; [intros _; now exists s | reflexivity].
  - destruct s as [|b s]; simpl.
    + split; [discriminate | intros [q Hq]; rewrite append_cons in Hq; discriminate].
    + destruct (Ascii.eqb a b) eqn:E.
      * apply Ascii.eqb_eq in E. subst b. rewrite IH. split.
        -- intros [q Hq]. exists q. rewrite append_cons. now rewrite Hq.
        -- intros [q Hq]. rewrite append_cons in Hq. inversion Hq. now exists q.
      * split; [discriminate|]. intros [q Hq]. rewrite append_cons in Hq.
        inversion Hq. subst b. now rewrite Ascii.eqb_refl in E.
Qed.

(** [sub in s] holds exactly when [s] splits around an occurrence of [sub]. *)
Lemma contains_spec (sub s : string) :
  Py.contains sub s = true <-> exists pre post, s = pre +:+ sub +:+ post.
Proof.
  induction s as [|c s IH]; simpl; rewrite orb_true_iff, startswith_spec.
  - split.
    + intros [[q Hq] | H]; [|discriminate]. now exists EmptyString, q.
    + intros [pre [post H]]. left. destruct pre as [|a pre].
      * now exists post.
      * rewrite append_cons in H. discriminate.
  - rewrite IH. split.
    + intros [[q Hq] | [pre [post H]]].
      * now exists EmptyString, q.
      * exists (String c pre), post. rewrite append_cons. now rewrite H.
    + intros [pre [post H]]. destruct pre as [|a pre].
      * left. now exists post.
      * right. rewrite append_cons in H. inversion H. now exists pre, post.
Qed.

Lemma join_cons (sep p : string) (rest : list string) :
  rest <> [] -> Py.join sep (p :: rest) = p +:+ sep +:+ Py.join sep rest.
Proof. destruct rest; [congruence | reflexivity]. Qed.

Lemma append_nil_r (s : string) : s +:+ EmptyString = s.
Proof.
  induction s as [|c s IH]; [reflexivity|]. rewrite append_cons. now rewrite IH.
Qed.

(** Every part occurs in the joined text. *)
Lemma join_split (sep part : string) (parts : list string) :
  In part parts ->
  exists before after, Py.join sep parts = before +:+ part +:+ after.
Proof.
  induction parts as [|p rest IH]; intros Hin; [destruct Hin|].
  destruct rest as [|p' rest'].
  - destruct Hin as [-> | []]. exists EmptyString, EmptyString.
    simpl. now rewrite append_nil_r.
  - rewrite join_cons by discriminate.
    destruct Hin as [-> | Hin].
    + now exists EmptyString, (sep +:+ Py.join sep (p' :: rest')).
    + destruct (IH Hin) as [b [a Hba]].
      exists (p +:+ sep +:+ b), a. rewrite Hba.
      now rewrite !append_assoc.
Qed.

Lemma contains_join (sep sub part : string) (parts : list string) :
  In part parts -> Py.contains sub part = true ->
  Py.contains sub (Py.join sep parts) = true.
Proof.
  intros Hin Hc. apply contains_spec in Hc as [pre [post Hp]].
  destruct (join_split sep part parts Hin) as [b [a Hj]].
  apply contains_spec. exists (b +:+ pre), (post +:+ a).
  rewrite Hj, Hp. now rewrite !append_assoc.
Qed.

(** C5, as amended: the marker criterion holds exactly when one of the five
    phrases occurs in the text made of the lower-cased cells of the 5 by 5
    window joined by single spaces; a phrase inside a single cell is one such
    occurrence. *)
Theorem marker_criterion_on_joined_text (df : DataFrame) :
  (has_pivot_indicator df = true <->
   exists indicator pre post,
     In indicator pivot_indicators /\
     Py.join " " (first_few_cells df) = pre +:+ indicator +:+ post)
  /\ (some_cell_has_indicator df = true -> has_pivot_indicator df = true).
Proof.
  split.
  - unfold has_pivot_indicator. rewrite existsb_exists. split.
    + intros [ind [Hin Hc]]. apply contains_spec in Hc as [pre [post H]].
      now exists ind, pre, post.
    + intros [ind [pre [post [Hin H]]]]. exists ind. split; [assumption|].
      apply contains_spec. now exists pre, post.
  - unfold some_cell_has_indicator, has_pivot_indicator.
    rewrite !existsb_exists. intros [cell_value [Hcell Hex]].
    apply existsb_exists in Hex as [ind [Hin Hc]].
    exists ind. split; [assumption|].
    now apply (contains_join " " ind cell_value).
Qed.

Lemma marker_criterion_on_joined_text_witness :
  (has_pivot_indicator split_marker_sheet = true <->
   exists indicator pre post,
     In indicator pivot_indicators /\
     Py.join " " (first_few_cells split_marker_sheet) = pre +:+ indicator +:+ post)
  /\ (some_cell_has_indicator split_marker_sheet = true ->
      has_pivot_indicator split_marker_sheet = true).
Proof. exact (marker_criterion_on_joined_text split_marker_sheet). Defined.

(** C5, as stated, fails: a phrase split over two neighbouring cells is
    found in the joined text, although no single cell contains a phrase. *)
Lemma marker_split_over_cells_counterexample :
  some_cell_has_indicator split_marker_sheet = false
  /\ has_pivot_indicator split_marker_sheet = true
  /\ _is_real_pivot_table split_marker_sheet = true.
Proof. repeat split; vm_compute; reflexivity. Qed.

(** *** The two thresholds *)

(** Rounding to 53 bits raises a value by less than one part in [2^52]. *)
Lemma round53_upper (P : Z) :
  (0 <= P)%Z -> (2 ^ 52 * Float.round53 P <= (2 ^ 52 + 1) * P)%Z.
Proof.
  intros HP. unfold Float.round53.
  destruct (Z.leb_spec (Z.log2 P - 52) 0) as [Hs | Hs]; [lia|].
  set (s := (Z.log2 P - 52)%Z) in *.
  assert (Hpos : (0 < P)%Z).
  { destruct (Z.eq_dec P 0%Z) as [-> | ]; [unfold s in Hs; simpl in Hs; lia | lia]. }
  destruct (Z.log2_spec P Hpos) as [Hlo _].
  assert (Hpow : (2 ^ Z.log2 P = 2 ^ 52 * 2 ^ s)%Z).
  { rewrite <- Z.pow_add_r by lia. f_equal. lia. }
  assert (H2s : (0 < 2 ^ s)%Z) by (apply Z.pow_pos_nonneg; lia).
  rewrite Z.shiftr_div_pow2 by lia.
  assert (Hq : (P / 2 ^ s * 2 ^ s <= P)%Z).
  { rewrite Z.mul_comm. apply Z.mul_div_le. lia. }
  assert (Hup : forall q', (q' <= P / 2 ^ s + 1)%Z ->
                (2 ^ 52 * Z.shiftl q' s <= (2 ^ 52 + 1) * P)%Z).
  { intros q' Hq'. rewrite Z.shiftl_mul_pow2 by lia.
    assert (q' * 2 ^ s <= P + 2 ^ s)%Z by nia. nia. }
  destruct (_ || _); apply Hup; lia.
Qed.

(** A count of at least one exceeds 0.8 times itself, also after rounding. *)
Lemma all_na_exceeds_threshold (n : nat) :
  (0 < n)%nat -> Float.int_gt_mul n n Float.M_0_8 = true.
Proof.
  intros Hn. unfold Float.int_gt_mul. apply Z.ltb_lt.
  pose proof (round53_upper (Z.of_nat n * Float.M_0_8)) as H.
  unfold Float.M_0_8 in *.
  assert (0 <= Z.of_nat n * 7205759403792794)%Z by lia.
  specialize (H H0).
  change (2 ^ 52)%Z with 4503599627370496%Z in H.
  change (2 ^ 53)%Z with 9007199254740992%Z.
  lia.
Qed.

Lemma filter_all_true {A} (f : A -> bool) (l : list A) :
  (forall x, In x l -> f x = true) -> List.filter f l = l.
Proof.
  induction l as [|x l IH]; intros H; simpl; [reflexivity|].
  rewrite (H x) by now left. f_equal. apply IH. intros y Hy. apply H. now right.
Qed.

Lemma first_row_na_count_all (df : DataFrame) :
  (forall j, (j < length (columns df))%nat -> DF.iloc df 0 j = NaN) ->
  first_row_na_count df = length (columns df).
Proof.
  intros Hall. unfold first_row_na_count.
  rewrite filter_all_true.
  - now rewrite length_map, length_seq.
  - intros c Hc. apply in_map_iff in Hc as [j [<- Hj]].
    apply in_seq in Hj. rewrite Hall by lia. reflexivity.
Qed.

(** C4, as amended: a sheet with at least one column and at least three rows
    whose first row has only empty cells is classified as a pivot table,
    whatever its other rows and its column names are; a sheet with fewer
    than three rows is never classified as a pivot table. *)
Theorem empty_first_row_is_pivot (df : DataFrame) :
  ((DF.len df < 3)%nat -> _is_real_pivot_table df = false)
  /\ ((0 < length (columns df))%nat ->
      (3 <= DF.len df)%nat ->
      (forall j, (j < length (columns df))%nat -> DF.iloc df 0 j = NaN) ->
      _is_real_pivot_table df = true).
Proof.
  unfold _is_real_pivot_table. split.
  - intros Hshort.
    destruct (Nat.ltb_spec (DF.len df) 3) as [_ | Hge]; [reflexivity | lia].
  - intros Hcols Hrows Hall.
    destruct (Nat.ltb_spec (DF.len df) 3) as [Hlt | _]; [lia|].
    destruct (Float.int_gt_mul (length (unnamed_cols df)) _ _); [reflexivity|].
    rewrite first_row_na_count_all by assumption.
    now rewrite all_na_exceeds_threshold.
Qed.

Lemma empty_first_row_is_pivot_witness :
  _is_real_pivot_table empty_first_row_sheet = false
  /\ _is_real_pivot_table tall_empty_first_row_sheet = true.
Proof.
  split.
  - apply (proj1 (empty_first_row_is_pivot empty_first_row_sheet)).
    unfold DF.len. simpl. lia.
  - apply (proj2 (empty_first_row_is_pivot tall_empty_first_row_sheet)).
    + simpl. lia.
    + unfold DF.len. simpl. lia.
    + intros j Hj. simpl in Hj.
      destruct j as [|[|j]]; [reflexivity | reflexivity | lia].
Defined.

(** C4, as stated, fails: a sheet of fewer than three rows is never
    classified as a pivot table, even when its first row is empty. *)
Lemma short_sheet_not_pivot_counterexample :
  (0 < length (columns empty_first_row_sheet))%nat
  /\ (forall j, (j < length (columns empty_first_row_sheet))%nat ->
                DF.iloc empty_first_row_sheet 0 j = NaN)
  /\ _is_real_pivot_table empty_first_row_sheet = false.
Proof.
  split; [simpl; lia|]. split; [|reflexivity].
  intros j Hj. simpl in Hj.
  destruct j as [|[|j]]; [reflexivity | reflexivity | lia].
Qed.

(** The products are those of IEEE doubles: with 90 columns, 63 of them
    unnamed, [90 * 0.7] rounds below 63 and the sheet counts as a pivot
    table, although 63 is exactly 70% of 90. *)
Example threshold_is_a_double_product :
  Float.int_gt_mul 63 90 Float.M_0_7 = true
  /\ Float.int_gt_mul 7 10 Float.M_0_7 = false
  /\ Float.int_gt_mul 4 5 Float.M_0_8 = false.
Proof. repeat split; vm_compute; reflexivity. Qed.

(** ** The sheet selector *)

Lemma analyze_sheet_not_eligible (best : Best) (name : string) (df : DataFrame) :
  eligible df = false -> analyze_sheet best (name, df) = best.
Proof.
  unfold eligible, analyze_sheet. intros H.
  destruct (DF.empty df); [reflexivity|].
  destruct (DF.has_column "ERF Sched Line Status" df && DF.has_column "Entered by" df);
    [|reflexivity].
  destruct (_is_real_pivot_table df); [reflexivity | discriminate].
Qed.

Lemma analyze_sheet_eligible (best : Best) (name : string) (df : DataFrame) :
  eligible df = true ->
  analyze_sheet best (name, df)
  = if (best_score best <? _score_sheet df)%nat
    then {| best_sheet := Some name; best_score := _score_sheet df;
            best_data := Some df |}
    else best.
Proof.
  unfold eligible, analyze_sheet. intros H.
  destruct (DF.empty df); [discriminate|].
  destruct (DF.has_column "ERF Sched Line Status" df && DF.has_column "Entered by" df);
    [|discriminate].
  destruct (_is_real_pivot_table df); [discriminate | reflexivity].
Qed.

(** The score only grows along the required columns, and grows strictly
    when one of them is present. *)
Lemma score_fold_ge (df_columns required : list string) (acc : nat) :
  (acc <= fold_left
            (fun score required_col =>
               if existsb (String.eqb required_col) df_columns
               then S score else score)
            required acc)%nat.
Proof.
  revert acc. induction required as [|r required IH]; intros acc; simpl; [lia|].
  destruct (existsb _ _); [specialize (IH (S acc)) | specialize (IH acc)]; lia.
Qed.

Lemma score_fold_gt (df_columns required : list string) (acc : nat) (c : string) :
  In c required -> existsb (String.eqb c) df_columns = true ->
  (acc < fold_left
           (fun score required_col =>
              if existsb (String.eqb required_col) df_columns
              then S score else score)
           required acc)%nat.
Proof.
  revert acc. induction required as [|r required IH]; intros acc Hin Hex;
    [destruct Hin|]. simpl. destruct Hin as [-> | Hin].
  - rewrite Hex. pose proof (score_fold_ge df_columns required (S acc)). lia.
  - destruct (existsb (String.eqb r) df_columns).
    + specialize (IH (S acc) Hin Hex). lia.
    + exact (IH acc Hin Hex).
Qed.

Lemma eligible_score_pos (df : DataFrame) :
  eligible df = true -> (0 < _score_sheet df)%nat.
Proof.
  unfold eligible. rewrite !andb_true_iff. intros [[_ [_ Hby]] _].
  unfold _score_sheet. apply (score_fold_gt _ _ _ "Entered by").
  - unfold Config.REQUIRED_COLUMNS. simpl. tauto.
  - unfold DF.has_column in Hby. apply existsb_exists in Hby as [c [Hc Heq]].
    apply String.eqb_eq in Heq. subst c.
    apply existsb_exists. exists (Py.strip "Entered by"). split.
    + now apply in_map.
    + reflexivity.
Qed.

Lemma selector_step (best : Best) (wb : Workbook) (s : string * DataFrame) :
  SelectorInv best wb -> SelectorInv (analyze_sheet best s) (wb ++ [s]).
Proof.
  intros Inv. destruct s as [name df].
  destruct (eligible df) eqn:El.
  - rewrite analyze_sheet_eligible by assumption.
    destruct Inv as [wb Hnone | pre name0 df0 post El0 Hpre Hpost]; cbn [best_score].
    + destruct (Nat.ltb_spec 0 (_score_sheet df)) as [_ | Hle];
        [|pose proof (eligible_score_pos df El); lia].
      apply (SelectorSome wb name df []); [assumption | | intros ? []].
      intros s Hs Hels. rewrite Hnone in Hels by assumption. discriminate.
    + destruct (Nat.ltb_spec (_score_sheet df0) (_score_sheet df)) as [Hlt | Hge].
      * rewrite <- app_assoc. simpl.
        replace (pre ++ (name0, df0) :: post ++ [(name, df)])
          with ((pre ++ (name0, df0) :: post) ++ (name, df) :: [])
          by (now rewrite <- app_assoc).
        apply SelectorSome; [assumption | | intros ? []].
        intros s Hs Hels. apply in_app_or in Hs as [Hs | [<- | Hs]].
        -- specialize (Hpre s Hs Hels). lia.
        -- simpl. lia.
        -- specialize (Hpost s Hs Hels). lia.
      * rewrite <- app_assoc. simpl.
        apply SelectorSome; [assumption | assumption |].
        intros s Hs Hels. apply in_app_or in Hs as [Hs | [<- | []]].
        -- now apply Hpost.
        -- simpl. lia.
  - rewrite analyze_sheet_not_eligible by assumption.
    destruct Inv as [wb Hnone | pre name0 df0 post El0 Hpre Hpost].
    + apply SelectorNone. intros s Hs.
      apply in_app_or in Hs as [Hs | [<- | []]]; [now apply Hnone | exact El].
    + rewrite <- app_assoc. simpl.
      apply SelectorSome; [assumption | assumption |].
      intros s Hs Hels. apply in_app_or in Hs as [Hs | [<- | []]].
      * now apply Hpost.
      * simpl in Hels. congruence.
Qed.

Lemma selector_fold (rest wb : Workbook) (best : Best) :
  SelectorInv best wb ->
  SelectorInv (fold_left analyze_sheet rest best) (wb ++ rest).
Proof.
  revert wb best. induction rest as [|s rest IH]; intros wb best Inv; simpl.
  - now rewrite app_nil_r.
  - replace (wb ++ s :: rest) with ((wb ++ [s]) ++ rest)
      by (now rewrite <- app_assoc).
    apply IH. now apply selector_step.
Qed.

(** C3: in a workbook whose sheet names are not empty, [find_data_sheet]
    answers not-found when no sheet is eligible; otherwise it returns an
    eligible sheet whose score is strictly above that of every eligible
    sheet before it and at least that of every eligible sheet after it,
    that is the first sheet of highest score in workbook order. *)
Theorem find_data_sheet_selects_best (wb : Workbook) :
  (forall name df, In (name, df) wb -> name <> EmptyString) ->
  ((forall s, In s wb -> eligible (snd s) = false) ->
   find_data_sheet wb = (false, None, None))
  /\ ((exists s, In s wb /\ eligible (snd s) = true) ->
      exists pre name df post,
        wb = pre ++ (name, df) :: post
        /\ find_data_sheet wb = (true, Some name, Some df)
        /\ eligible df = true
        /\ (forall s, In s pre -> eligible (snd s) = true ->
                      (_score_sheet (snd s) < _score_sheet df)%nat)
        /\ (forall s, In s post -> eligible (snd s) = true ->
                      (_score_sheet (snd s) <= _score_sheet df)%nat)).
Proof.
  intros Hnames.
  pose proof (selector_fold wb [] _ (SelectorNone [] (fun s (H : In s []) => match H with end)))
    as Inv.
  simpl in Inv. unfold find_data_sheet.
  remember (fold_left analyze_sheet wb
              {| best_sheet := None; best_score := 0; best_data := None |}) as best.
  clear Heqbest.
  destruct Inv as [wb Hnone | pre name df post El Hpre Hpost]; cbn [best_sheet best_data].
  - split; [reflexivity|]. intros [s [Hs Hel]].
    rewrite Hnone in Hel by assumption. discriminate.
  - assert (Hname : Py.truthy name = true).
    { apply truthy_true_iff. apply (Hnames name df).
      apply in_or_app. right. now left. }
    simpl. rewrite Hname. split.
    + intros Hnone. specialize (Hnone (name, df)). simpl in Hnone.
      rewrite Hnone in El; [discriminate|].
      apply in_or_app. right. now left.
    + intros _. exists pre, name, df, post. repeat split; auto.
Qed.

Lemma find_data_sheet_selects_best_witness :
  ((forall s, In s sample_workbook -> eligible (snd s) = false) ->
   find_data_sheet sample_workbook = (false, None, None))
  /\ ((exists s, In s sample_workbook /\ eligible (snd s) = true) ->
      exists pre name df post,
        sample_workbook = pre ++ (name, df) :: post
        /\ find_data_sheet sample_workbook = (true, Some name, Some df)
        /\ eligible df = true
        /\ (forall s, In s pre -> eligible (snd s) = true ->
                      (_score_sheet (snd s) < _score_sheet df)%nat)
        /\ (forall s, In s post -> eligible (snd s) = true ->
                      (_score_sheet (snd s) <= _score_sheet df)%nat)).
Proof.
  apply (find_data_sheet_selects_best sample_workbook).
  intros name df [H | [H | [H | []]]]; inversion H; discriminate.
Defined.

(** The scenario of the specification: the summary sheet has both mandatory
    columns and pivot markers; of the two data sheets with the same score
    the first one is kept. *)
Example find_data_sheet_sample :
  eligible summary_sheet = false
  /\ _score_sheet main_data_sheet = _score_sheet copy_sheet
  /\ find_data_sheet sample_workbook = (true, Some "Main data", Some main_data_sheet).
Proof. repeat split; vm_compute; reflexivity. Qed.

(** ** The requester grouper *)

Lemma str_le_trans (a b c : string) : str_le a b -> str_le b c -> str_le a c.
Proof.
  unfold str_le. intros Hab Hbc.
  apply Is_true_true. apply Is_true_true in Hab, Hbc.
  exact (transitivity (R := String.le) Hab Hbc).
Qed.

Lemma str_le_total (a b : string) : str_le a b \/ str_le b a.
Proof. exact (String.leb_total a b). Qed.

Lemma insert_sorted_In (k x : string) (l : list string) :
  In x (insert_sorted k l) <-> x = k \/ In x l.
Proof.
  induction l as [|h t IH]; simpl.
  - intuition congruence.
  - destruct (String.leb k h); simpl; [intuition congruence|].
    rewrite IH. intuition congruence.
Qed.

Lemma insert_sorted_sorted (k : string) (l : list string) :
  StronglySorted str_le l -> StronglySorted str_le (insert_sorted k l).
Proof.
  induction 1 as [|h t Ht IH Hall]; simpl.
  - constructor; constructor.
  - destruct (String.leb k h) eqn:E.
    + constructor; [now constructor|]. constructor; [exact E|].
      apply List.Forall_forall. intros x Hx. rewrite List.Forall_forall in Hall.
      apply (str_le_trans k h x); [exact E | now apply Hall].
    + constructor; [exact IH|].
      apply List.Forall_forall. intros x Hx. apply insert_sorted_In in Hx as [-> | Hx].
      * destruct (str_le_total k h) as [H | H]; [unfold str_le in H; congruence | exact H].
      * rewrite List.Forall_forall in Hall. now apply Hall.
Qed.

Lemma insert_sorted_NoDup (k : string) (l : list string) :
  ~ In k l -> List.NoDup l -> List.NoDup (insert_sorted k l).
Proof.
  induction l as [|h t IH]; intros Hk Hnd; simpl.
  - constructor; [intros [] | constructor].
  - destruct (String.leb k h); [now constructor|].
    inversion Hnd as [|? ? Hh Ht]; subst.
    constructor.
    + rewrite insert_sorted_In. intros [-> | Hin]; [apply Hk; now left | contradiction].
    + apply IH; [|assumption]. intros Hin. apply Hk. now right.
Qed.

Lemma sorted_In (x : string) (l : list string) : In x (sorted l) <-> In x l.
Proof.
  induction l as [|h t IH]; simpl; [reflexivity|].
  rewrite insert_sorted_In, IH. intuition congruence.
Qed.

Lemma sorted_sorted (l : list string) : StronglySorted str_le (sorted l).
Proof.
  induction l as [|h t IH]; simpl; [constructor | now apply insert_sorted_sorted].
Qed.

Lemma sorted_NoDup (l : list string) : List.NoDup l -> List.NoDup (sorted l).
Proof.
  induction 1 as [|h t Hh Ht IH]; simpl; [constructor|].
  apply insert_sorted_NoDup; [now rewrite sorted_In | exact IH].
Qed.

Lemma unique_In (x : string) (l : list string) : In x (unique l) <-> In x l.
Proof.
  induction l as [|h t IH]; simpl; [reflexivity|].
  rewrite filter_In, IH, negb_true_iff.
  destruct (String.eqb_spec h x) as [-> | Hne]; intuition congruence.
Qed.

Lemma unique_NoDup (l : list string) : List.NoDup (unique l).
Proof.
  induction l as [|h t IH]; simpl; [constructor|].
  constructor.
  - rewrite filter_In, String.eqb_refl. simpl. intros [_ H]. discriminate.
  - now apply List.NoDup_filter.
Qed.

Lemma dict_set_fresh {V} (d : Dict.t V) (k : string) (v : V) :
  ~ In k (Dict.keys d) -> Dict.set d k v = d ++ [(k, v)].
Proof.
  unfold Dict.keys. induction d as [|[k' v'] d IH]; intros Hk; simpl; [reflexivity|].
  destruct (String.eqb_spec k' k) as [-> | Hne].
  - exfalso. apply Hk. now left.
  - f_equal. apply IH. intros Hin. apply Hk. now right.
Qed.

(** A dictionary comprehension over items with distinct keys keeps them. *)
Lemma dict_of_items {V} (items acc : Dict.t V) :
  List.NoDup (Dict.keys (acc ++ items)) ->
  fold_left (fun d '(name, group) => Dict.set d name group) items acc
  = acc ++ items.
Proof.
  revert acc. induction items as [|[k v] items IH]; intros acc Hnd; simpl.
  - now rewrite app_nil_r.
  - assert (Hfresh : ~ In k (Dict.keys acc)).
    { unfold Dict.keys in *. rewrite map_app in Hnd. simpl in Hnd.
      apply List.NoDup_remove_2 in Hnd. intros Hin. apply Hnd.
      apply in_or_app. now left. }
    rewrite dict_set_fresh by assumption.
    rewrite IH; rewrite <- app_assoc; [reflexivity | exact Hnd].
Qed.

Lemma groupby_iter_keys (g : GroupBy) :
  Dict.keys (groupby_iter g)
  = sorted (unique (key_values (gb_by g) (gb_frame g))).
Proof.
  unfold Dict.keys, groupby_iter. rewrite map_map. simpl. apply map_id.
Qed.

Lemma key_values_In (j : nat) (df : DataFrame) (k : string) :
  In k (key_values j df) <-> exists row, In row (rows df) /\ DF.cell row j = Text k.
Proof.
  unfold key_values. rewrite in_flat_map. split.
  - intros [row [Hrow Hk]]. exists row. split; [assumption|].
    destruct (DF.cell row j); [destruct Hk | destruct Hk as [-> | []]; reflexivity].
  - intros [row [Hrow Hc]]. exists row. split; [assumption|].
    rewrite Hc. now left.
Qed.

Lemma grouped_of_eq (filtered : DataFrame) (j : nat) :
  DF.index_of "Entered by" (columns filtered) = Some j ->
  grouped_of filtered
  = if (DF.len (DF.select (valid_key j) filtered) =? 0)%nat then []
    else groupby_iter {| gb_frame := DF.select (valid_key j) filtered; gb_by := j |}.
Proof.
  intros Hj. unfold grouped_of, group_by_requester. cbn [filtered_data].
  rewrite Hj. destruct (DF.len _ =? 0)%nat; [reflexivity|].
  unfold get_grouped_data. cbn [snd grouped_data].
  rewrite (dict_of_items _ []); [reflexivity|].
  simpl. rewrite groupby_iter_keys. apply sorted_NoDup, unique_NoDup.
Qed.

Lemma valid_key_spec (j : nat) (row : list Cell) (k : string) :
  DF.cell row j = Text k ->
  (valid_key j row = true <-> Py.strip k <> EmptyString).
Proof.
  intros Hc. unfold valid_key. rewrite Hc, negb_true_iff.
  destruct (String.eqb_spec (Py.strip k) EmptyString); intuition congruence.
Qed.

(** C2, as amended: the groups come in ascending code-point order of their
    keys, one group per distinct key; the keys are the texts of the key
    column, untrimmed, of the rows whose key is present and not blank; each
    group holds the rows with its key in the order of the input. *)
Theorem grouped_keys_ascending (filtered : DataFrame) (j : nat) :
  DF.index_of "Entered by" (columns filtered) = Some j ->
  StronglySorted str_le (Dict.keys (grouped_of filtered))
  /\ List.NoDup (Dict.keys (grouped_of filtered))
  /\ (forall k,
        In k (Dict.keys (grouped_of filtered)) <->
        exists row, In row (rows filtered)
                    /\ DF.cell row j = Text k /\ Py.strip k <> EmptyString)
  /\ (forall k g,
        In (k, g) (grouped_of filtered) ->
        columns g = columns filtered
        /\ rows g = List.filter (has_key j k)
                                (List.filter (valid_key j) (rows filtered))).
Proof.
  intros Hj. rewrite (grouped_of_eq filtered j Hj).
  destruct (Nat.eqb_spec (DF.len (DF.select (valid_key j) filtered)) 0) as [Hz | Hnz].
  - split; [constructor|]. split; [constructor|]. split; [|intros k g []].
    intros k. simpl. split; [intros []|].
    intros [row [Hrow [Hc Hs]]].
    assert (Hin : In row (rows (DF.select (valid_key j) filtered))).
    { unfold DF.select. simpl. apply filter_In. split; [assumption|].
      now apply (valid_key_spec j row k). }
    unfold DF.len in Hz. apply length_zero_iff_nil in Hz.
    rewrite Hz in Hin. destruct Hin.
  - rewrite groupby_iter_keys. cbn [gb_by gb_frame].
    split; [apply sorted_sorted|].
    split; [apply sorted_NoDup, unique_NoDup|]. split.
    + intros k. rewrite sorted_In, unique_In, key_values_In.
      unfold DF.select. cbn [rows]. split.
      * intros [row [Hrow Hc]]. apply filter_In in Hrow as [Hrow Hv].
        exists row. split; [assumption|]. split; [assumption|].
        now apply (valid_key_spec j row k).
      * intros [row [Hrow [Hc Hs]]]. exists row. split; [|assumption].
        apply filter_In. split; [assumption|].
        now apply (valid_key_spec j row k).
    + intros k g Hin. unfold groupby_iter in Hin.
      apply in_map_iff in Hin as [k' [Heq _]]. inversion Heq; subst.
      split; reflexivity.
Qed.

Lemma grouped_keys_ascending_witness :
  StronglySorted str_le (Dict.keys (grouped_of requester_sheet))
  /\ List.NoDup (Dict.keys (grouped_of requester_sheet))
  /\ (forall k,
        In k (Dict.keys (grouped_of requester_sheet)) <->
        exists row, In row (rows requester_sheet)
                    /\ DF.cell row 0 = Text k /\ Py.strip k <> EmptyString)
  /\ (forall k g,
        In (k, g) (grouped_of requester_sheet) ->
        columns g = columns requester_sheet
        /\ rows g = List.filter (has_key 0 k)
                                (List.filter (valid_key 0) (rows requester_sheet))).
Proof.
  apply (grouped_keys_ascending requester_sheet 0). reflexivity.
Defined.

(** C2, as stated, fails: the first usable key of the input is not the key
    of the first group. *)
Lemma group_order_counterexample :
  first_occurrence_keys 0 requester_sheet = ["bob"; "alice"]
  /\ Dict.keys (grouped_of requester_sheet) = ["alice"; "bob"]
  /\ Dict.keys (grouped_of requester_sheet) <> first_occurrence_keys 0 requester_sheet.
Proof.
  split; [reflexivity|]. split; [reflexivity|]. vm_compute. discriminate.
Qed.

Example grouped_rows_sample :
  map (fun '(k, g) => (k, rows g)) (grouped_of requester_sheet)
  = [ ("alice", [ [Text "alice"; Text "20"] ]);
      ("bob", [ [Text "bob"; Text "10"]; [Text "bob"; Text "30"] ]) ].
Proof. reflexivity. Qed.

(** ** Recipient resolution in the e-mail service *)

Section ServiceProperties.

Context `{!Collaborators}.

Lemma resolve_email_unmapped (r : EmailResolver) (username : string) :
  username <> EmptyString ->
  unmapped_users (snd (resolve_email r username))
  = match Dict.get (email_mapping r) (Py.upper (Py.strip username)),
          partial_match (Py.upper (Py.strip username)) (email_mapping r) with
    | None, None => {[ username ]} ∪ unmapped_users r
    | _, _ => unmapped_users r
    end.
Proof.
  intros Hne. unfold resolve_email. apply truthy_true_iff in Hne.
  rewrite Hne. simpl.
  destruct (Dict.get _ _); [reflexivity|].
  destruct (partial_match _ _); reflexivity.
Qed.

Lemma resolve_email_misses (r : EmailResolver) (username : string) :
  username <> EmptyString -> mapping_misses r username ->
  resolve_email r username
  = (None, {| email_mapping := email_mapping r;
              unmapped_users := {[ username ]} ∪ unmapped_users r |}).
Proof.
  intros Hne [Hget Hpart]. unfold resolve_email. apply truthy_true_iff in Hne.
  rewrite Hne. simpl. now rewrite Hget, Hpart.
Qed.

(** When the mapping misses an identifier that reaches the resolver, the
    answer is Outlook's and the identifier joins the unmapped set. *)
Lemma search_contact_email_on_miss
      (self : OutlookEmailService) (name_or_email : string) :
  reaches_resolver name_or_email ->
  mapping_misses (email_resolver self) name_or_email ->
  fst (search_contact_email self name_or_email)
  = outlook_answer self name_or_email
  /\ unmapped_users
       (email_resolver (snd (search_contact_email self name_or_email)))
     = {[ name_or_email ]} ∪ unmapped_users (email_resolver self).
Proof.
  intros [Hne Hshape] Hm. unfold search_contact_email.
  rewrite (proj2 (truthy_true_iff _) Hne), Hshape. simpl.
  rewrite resolve_email_misses by assumption. simpl.
  unfold outlook_answer. simpl.
  destruct (address_book self) as [entries|]; [|split; reflexivity].
  destruct (is_connected self && SEARCH_OUTLOOK_CONTACTS); [|split; reflexivity].
  destruct (search_address_entries name_or_email entries); split; reflexivity.
Qed.

(** A hit in the mapping leaves the unmapped set alone. *)
Lemma search_contact_email_on_hit
      (self : OutlookEmailService) (name_or_email e : string) :
  reaches_resolver name_or_email ->
  fst (resolve_email (email_resolver self) name_or_email) = Some e ->
  unmapped_users
    (email_resolver (snd (search_contact_email self name_or_email)))
  = unmapped_users (email_resolver self).
Proof.
  intros [Hne Hshape] Hhit. unfold search_contact_email.
  rewrite (proj2 (truthy_true_iff _) Hne), Hshape. simpl.
  assert (Hsnd : snd (resolve_email (email_resolver self) name_or_email)
                 = email_resolver self).
  { revert Hhit. unfold resolve_email.
    rewrite (proj2 (truthy_true_iff _) Hne). simpl.
    destruct (Dict.get _ _); [reflexivity|].
    destruct (partial_match _ _); [reflexivity | discriminate]. }
  destruct (resolve_email (email_resolver self) name_or_email) as [m r].
  simpl in Hhit, Hsnd. subst m r. simpl.
  destruct (Py.truthy e); [reflexivity|].
  destruct (match address_book self with Some _ => _ | None => _ end);
    reflexivity.
Qed.

(** C1, as amended: after [search_contact_email], the unmapped set holds
    what it held before, and the identifier itself exactly when it reached
    the resolver (not empty, not shaped like an address) and the mapping
    lookups, exact and partial, both missed it.  In that case the answer
    is that of the Outlook tier, and the identifier is in the set whether
    or not Outlook found an address. *)
Theorem unmapped_tracks_mapping_misses
        (self : OutlookEmailService) (name_or_email : string) :
  (forall x,
      x ∈ unmapped_users (email_resolver (snd (search_contact_email self name_or_email)))
      <-> x ∈ unmapped_users (email_resolver self)
          \/ (x = name_or_email
              /\ reaches_resolver name_or_email
              /\ mapping_misses (email_resolver self) name_or_email))
  /\ (reaches_resolver name_or_email ->
      mapping_misses (email_resolver self) name_or_email ->
      fst (search_contact_email self name_or_email)
      = outlook_answer self name_or_email
      /\ name_or_email
         ∈ unmapped_users (email_resolver (snd (search_contact_email self name_or_email)))).
Proof.
  split.
  - intros x.
    destruct (string_dec name_or_email EmptyString) as [He | Hne].
    { subst. simpl. unfold reaches_resolver. intuition congruence. }
    destruct (Py.contains "@" name_or_email && Py.contains "." name_or_email) eqn:Hshape.
    { unfold search_contact_email.
      rewrite (proj2 (truthy_true_iff _) Hne), Hshape. simpl.
      unfold reaches_resolver. rewrite Hshape. intuition congruence. }
    pose proof (conj Hne Hshape : reaches_resolver name_or_email) as Hr.
    destruct (Dict.get (email_mapping (email_resolver self))
                       (Py.upper (Py.strip name_or_email))) as [e|] eqn:Hget;
      [|destruct (partial_match (Py.upper (Py.strip name_or_email))
                                (email_mapping (email_resolver self))) as [e|] eqn:Hpart].
    + rewrite (search_contact_email_on_hit self name_or_email e Hr).
      * unfold mapping_misses. rewrite Hget. intuition congruence.
      * unfold resolve_email. rewrite (proj2 (truthy_true_iff _) Hne). simpl.
        now rewrite Hget.
    + rewrite (search_contact_email_on_hit self name_or_email e Hr).
      * unfold mapping_misses. rewrite Hpart. intuition congruence.
      * unfold resolve_email. rewrite (proj2 (truthy_true_iff _) Hne). simpl.
        now rewrite Hget, Hpart.
    + destruct (search_contact_email_on_miss self name_or_email Hr (conj Hget Hpart))
        as [_ ->].
      rewrite elem_of_union, elem_of_singleton.
      unfold mapping_misses. intuition congruence.
  - intros Hr Hm.
    destruct (search_contact_email_on_miss self name_or_email Hr Hm) as [Hfst Hset].
    split; [exact Hfst|]. rewrite Hset.
    apply elem_of_union. left. now apply elem_of_singleton.
Qed.

End ServiceProperties.

Lemma unmapped_tracks_mapping_misses_witness :
  fst (@search_contact_email sample_collaborators sample_service "doe")
  = @outlook_answer sample_collaborators sample_service "doe"
  /\ "doe" ∈ unmapped_users
               (email_resolver
                  (snd (@search_contact_email sample_collaborators sample_service "doe"))).
Proof.
  apply (proj2 (@unmapped_tracks_mapping_misses sample_collaborators sample_service "doe")).
  - split; [discriminate | reflexivity].
  - split; reflexivity.
Defined.

(** C1, as stated, fails: an identifier that only the Outlook tier resolves
    has been put into the unmapped set by [resolve_email] before Outlook is
    asked, and it stays there. *)
Lemma outlook_resolved_is_unmapped_counterexample :
  fst (@search_contact_email sample_collaborators sample_service "doe")
  = Some "john.doe@example.com"
  /\ outlook_resolved
       (resolution_stats
          (snd (@search_contact_email sample_collaborators sample_service "doe")))
     = 1%nat
  /\ "doe" ∈ unmapped_users
               (email_resolver
                  (snd (@search_contact_email sample_collaborators sample_service "doe"))).
Proof.
  split; [reflexivity|]. split; [reflexivity|].
  destruct (@search_contact_email_on_miss sample_collaborators sample_service "doe")
    as [_ Hset].
  - split; [discriminate | reflexivity].
  - split; reflexivity.
  - rewrite Hset. apply elem_of_union. left. now apply elem_of_singleton.
Qed.

(** ** Dispatch *)

Section DispatchProperties.

Context `{!Collaborators}.

Lemma search_contact_email_send_calls
      (self : OutlookEmailService) (name_or_email : string) :
  send_calls (snd (search_contact_email self name_or_email)) = send_calls self.
Proof.
  unfold search_contact_email.
  destruct (negb (Py.truthy name_or_email)); [reflexivity|].
  destruct (Py.contains "@" name_or_email && Py.contains "." name_or_email);
    [reflexivity|].
  destruct (resolve_email (email_resolver self) name_or_email) as [m r].
  destruct (Py.truthy_opt m); [reflexivity|]. simpl.
  destruct (match address_book self with Some _ => _ | None => _ end);
    reflexivity.
Qed.

Lemma resolve_cc_send_calls
      (cc_addresses : list string) (self : OutlookEmailService) :
  send_calls (snd (resolve_cc self cc_addresses)) = send_calls self.
Proof.
  revert self. induction cc_addresses as [|cc rest IH]; intros self; simpl;
    [reflexivity|].
  pose proof (search_contact_email_send_calls self cc) as H1.
  destruct (search_contact_email self cc) as [e self1]. simpl in H1.
  pose proof (IH self1) as H2.
  destruct (resolve_cc self1 rest) as [es self2]. simpl in *. congruence.
Qed.

(** Every call of [send_email] is recorded, whatever its outcome. *)
Lemma send_email_send_calls
      (self : OutlookEmailService) (to_address subject body : string)
      (cc_addresses attachments : list string) :
  send_calls (snd (send_email self to_address subject body cc_addresses attachments))
  = send_calls self ++ [mkEnvelope to_address subject body cc_addresses attachments].
Proof.
  unfold send_email.
  set (self0 := record_call self
                  (mkEnvelope to_address subject body cc_addresses attachments)).
  assert (H0 : send_calls self0
               = send_calls self
                 ++ [mkEnvelope to_address subject body cc_addresses attachments])
    by reflexivity.
  destruct (negb (is_connected self0)); [exact H0|].
  pose proof (search_contact_email_send_calls self0 to_address) as H1.
  destruct (search_contact_email self0 to_address) as [resolved self1].
  simpl in H1. destruct resolved as [resolved|]; [|simpl; congruence].
  destruct (negb (Py.truthy resolved)); [simpl; congruence|].
  pose proof (resolve_cc_send_calls cc_addresses self1) as H2.
  destruct (resolve_cc self1 cc_addresses) as [cc_emails self2]. simpl in H2.
  destruct (outlook_deliver _ _) as [sent w]. simpl. congruence.
Qed.

Lemma envelope_eta (e : Envelope) :
  mkEnvelope (env_to e) (env_subject e) (env_body e) (env_cc e) (env_attachments e)
  = e.
Proof. now destruct e. Qed.

(** The loop counts every message once and calls [send_email] once per
    message, in order. *)
Lemma send_loop_spec (email_data : list Envelope) :
  forall (self : OutlookEmailService) (successful failed : nat),
    (fst (fst (send_loop self email_data successful failed))
     + snd (fst (send_loop self email_data successful failed))
     = successful + failed + length email_data)%nat
    /\ send_calls (snd (send_loop self email_data successful failed))
       = send_calls self ++ email_data.
Proof.
  induction email_data as [|e rest IH]; intros self successful failed; simpl.
  - split; [lia | now rewrite app_nil_r].
  - pose proof (send_email_send_calls self (env_to e) (env_subject e)
                                      (env_body e) (env_cc e) (env_attachments e))
      as Hcall.
    rewrite envelope_eta in Hcall.
    destruct (send_email self (env_to e) (env_subject e) (env_body e)
                         (env_cc e) (env_attachments e))
      as [success self1].
    simpl in Hcall.
    destruct success.
    + destruct (IH self1 (S successful) failed) as [Hn Hc].
      split; [lia|]. rewrite Hc, Hcall. now rewrite <- app_assoc.
    + destruct (IH self1 successful (S failed)) as [Hn Hc].
      split; [lia|]. rewrite Hc, Hcall. now rewrite <- app_assoc.
Qed.

Lemma send_bulk_emails_spec
      (self : OutlookEmailService) (email_data : list Envelope) :
  (fst (fst (send_bulk_emails self email_data))
   + snd (fst (send_bulk_emails self email_data))
   = length email_data)%nat
  /\ send_calls (snd (send_bulk_emails self email_data))
     = send_calls self ++ email_data.
Proof.
  unfold send_bulk_emails.
  destruct (send_loop_spec email_data (with_stats self zero_stats) 0 0) as [Hn Hc].
  split; [lia | exact Hc].
Qed.

(** Resolving the groups sends nothing, yields one entry per group, and
    marks an entry as found exactly when an address came back. *)
Lemma resolve_groups_spec (items : Dict.t DataFrame) :
  forall svc : OutlookEmailService,
    send_calls (snd (resolve_groups svc items)) = send_calls svc
    /\ map requester_name (fst (resolve_groups svc items)) = Dict.keys items
    /\ Forall (fun e => email_found e = true <-> resolved_email e <> None)
              (fst (resolve_groups svc items)).
Proof.
  induction items as [|[requester items_df] rest IH]; intros svc; simpl.
  - repeat split. constructor.
  - pose proof (search_contact_email_send_calls svc requester) as H1.
    destruct (search_contact_email svc requester) as [resolved svc1].
    simpl in H1. destruct (IH svc1) as [Hc [Hk Hf]].
    destruct (resolve_groups svc1 rest) as [email_data svc2]. simpl in *.
    split; [congruence|]. split; [now f_equal|].
    constructor; [|exact Hf]. simpl.
    destruct resolved; split; congruence.
Qed.

Lemma generate_email_data_spec (self : ERFAutomationService) :
  send_calls (email_service (snd (generate_email_data_with_resolution self)))
  = send_calls (email_service self)
  /\ map requester_name (fst (generate_email_data_with_resolution self))
     = Dict.keys (get_grouped_data (excel_processor self))
  /\ Forall (fun e => email_found e = true <-> resolved_email e <> None)
            (fst (generate_email_data_with_resolution self)).
Proof.
  unfold generate_email_data_with_resolution.
  pose proof (resolve_groups_spec (get_grouped_data (excel_processor self))
                                  (email_service self)) as Hspec.
  destruct (resolve_groups _ _) as [email_data svc]. exact Hspec.
Qed.

(** C7: in live mode, once the operator has typed the confirmation,
    [send_email] is called for the groups with a resolved address and for
    no other group, once each and in order, and the two counts returned
    add up to the number of those groups. *)
Theorem live_dispatch_excludes_unresolved
        (self : ERFAutomationService) (rest : list string) :
  let email_data := fst (generate_email_data_with_resolution self) in
  let resolved_groups := List.filter email_found email_data in
  exists successful failed summary self',
    send_emails self false ("SEND LIVE" :: rest)
    = (Returned (successful, failed, summary), self')
    /\ (successful + failed = length resolved_groups)%nat
    /\ send_calls (email_service self')
       = send_calls (email_service self) ++ map envelope_of resolved_groups
    /\ Forall (fun e => resolved_email e <> None) resolved_groups
    /\ Forall (fun e => email_found e = true <-> resolved_email e <> None)
              email_data.
Proof.
  intros email_data resolved_groups. subst email_data resolved_groups.
  destruct (generate_email_data_spec self) as [Hcalls [_ Hfound]].
  unfold send_emails.
  destruct (generate_email_data_with_resolution self) as [email_data self1].
  cbn [fst snd] in *. cbn [negb String.eqb].
  change (String.eqb "SEND LIVE" "SEND LIVE") with true. cbn [negb].
  pose proof (send_bulk_emails_spec (email_service self1)
                (map envelope_of (List.filter email_found email_data)))
    as [Hn Hc].
  destruct (send_bulk_emails _ _) as [[successful failed] svc].
  cbn [fst snd] in *.
  eexists successful, failed, _, _. split; [reflexivity|].
  split; [now rewrite length_map in Hn|].
  split; [cbn [email_service with_email_service]; congruence|].
  split; [|exact Hfound].
  apply List.Forall_forall. intros e He. apply filter_In in He as [He Hf].
  rewrite List.Forall_forall in Hfound. now apply (Hfound e He).
Qed.

End DispatchProperties.

Section DemoProperties.

Context `{!Collaborators}.

Lemma read_test_emails_length (stdin : list string) :
  forall (acc test_emails rest : list string),
    (length acc <= 3)%nat ->
    read_test_emails acc stdin = Returned (test_emails, rest) ->
    (length test_emails <= 3)%nat.
Proof.
  induction stdin as [|line stdin IH]; intros acc test_emails rest Hacc;
    cbn [read_test_emails];
    destruct (Nat.leb_spec 3 (length acc)) as [Hfull | Hroom];
    try (intros Heq; inversion Heq; now subst).
  destruct (negb (Py.truthy (Py.strip line))).
  - destruct (Nat.ltb_spec 0 (length acc)).
    + intros Heq. inversion Heq. now subst.
    + now apply IH.
  - destruct (Py.contains "@" (Py.strip line)).
    + apply IH. rewrite length_app. simpl. lia.
    + now apply IH.
Qed.

Lemma demo_email_list_pairs (demo_data : list EmailInfo) (test_emails : list string) :
  demo_email_list demo_data test_emails
  = map demo_envelope (list_prod demo_data test_emails).
Proof.
  unfold demo_email_list.
  induction demo_data as [|e demo_data IH]; simpl; [reflexivity|].
  rewrite map_app, map_map, IH. reflexivity.
Qed.

Lemma read_test_emails_nonempty (stdin : list string) :
  forall (acc test_emails rest : list string),
    read_test_emails acc stdin = Returned (test_emails, rest) ->
    test_emails <> [].
Proof.
  induction stdin as [|line stdin IH]; intros acc test_emails rest;
    cbn [read_test_emails];
    destruct (Nat.leb_spec 3 (length acc)) as [Hfull | Hroom];
    try (intros Heq; inversion Heq; subst; intros Hnil;
         rewrite Hnil in Hfull; simpl in Hfull; lia);
    try (intros Heq; discriminate Heq).
  destruct (negb (Py.truthy (Py.strip line))).
  - destruct (Nat.ltb_spec 0 (length acc)) as [Hpos | Hzero].
    + intros Heq. inversion Heq; subst. intros Hnil.
      rewrite Hnil in Hpos. simpl in Hpos. lia.
    + apply IH.
  - destruct (Py.contains "@" (Py.strip line)); apply IH.
Qed.

(** C10: [manager_demo_mode] first resolves the recipient of every group.
    When there is e-mail data, the operator has given test addresses and
    has confirmed, it hands to [send_bulk_emails] the demo list of the first
    five entries, so that [send_email] is called exactly once per pair of
    one of the first five entries and one test address, in that order; the
    test addresses are between one and three, so at most five times their
    number of messages are handed over.  In every other run (no e-mail
    data, input exhausted, demo declined) nothing is sent and the service
    is left as the resolution of the groups left it. *)
Theorem demo_dispatch_first_five
        (self : ERFAutomationService) (stdin : list string) :
  let generated := generate_email_data_with_resolution self in
  let email_data := fst generated in
  let demo_data := firstn 5 email_data in
  let run := manager_demo_mode self stdin in
  let nothing_sent :=
    snd run = snd generated
    /\ send_calls (email_service (snd run)) = send_calls (email_service self) in
  map requester_name email_data
  = Dict.keys (get_grouped_data (excel_processor self))
  /\ (forall test_emails answer rest,
        email_data <> [] ->
        read_test_emails [] stdin = Returned (test_emails, answer :: rest) ->
        Py.startswith "y" (Py.lower answer) = true ->
        let sent :=
          send_bulk_emails (email_service (snd generated))
                           (demo_email_list demo_data test_emails) in
        exists successful failed stats unmapped file,
          fst run = Returned (successful, failed,
                              DemoReport (length email_data) successful failed
                                         test_emails
                                         (map requester_name demo_data)
                                         stats unmapped file)
          /\ fst sent = (successful, failed)
          /\ snd run = with_email_service (snd generated) (snd sent)
          /\ send_calls (email_service (snd run))
             = send_calls (email_service self)
               ++ map demo_envelope (list_prod demo_data test_emails)
          /\ (successful + failed = length demo_data * length test_emails)%nat
          /\ length demo_data = Nat.min 5 (length email_data)
          /\ (successful + failed <= 5 * length test_emails)%nat
          /\ (1 <= length test_emails <= 3)%nat)
  /\ (email_data = [] ->
      fst run = Returned (0%nat, 0%nat, DemoError "No email data available")
      /\ nothing_sent)
  /\ (email_data <> [] ->
      read_test_emails [] stdin = EOFError ->
      fst run = EOFError /\ nothing_sent)
  /\ (forall test_emails,
        email_data <> [] ->
        read_test_emails [] stdin = Returned (test_emails, []) ->
        fst run = EOFError /\ nothing_sent)
  /\ (forall test_emails answer rest,
        email_data <> [] ->
        read_test_emails [] stdin = Returned (test_emails, answer :: rest) ->
        Py.startswith "y" (Py.lower answer) = false ->
        fst run = Returned (0%nat, 0%nat, DemoCancelled) /\ nothing_sent).
Proof.
  cbn zeta.
  destruct (generate_email_data_spec self) as [Hcalls [Hkeys _]].
  unfold manager_demo_mode.
  destruct (generate_email_data_with_resolution self) as [email_data self1].
  cbn [fst snd] in *.
  split; [exact Hkeys|]. clear Hkeys.
  destruct email_data as [|e0 email_data'].
  { split; [intros ? ? ? Hne; now contradiction Hne|].
    split; [intros _; now repeat split|].
    split; [intros Hne; now contradiction Hne|].
    split; [intros ? Hne _; now contradiction Hne
           | intros ? ? ? Hne _ _; now contradiction Hne]. }
  set (email_data := e0 :: email_data') in *.
  destruct (read_test_emails [] stdin) as [[test_emails rest]|] eqn:Hread.
  2:{ split; [intros ? ? ? _ Hr; discriminate Hr|].
      split; [intros He; discriminate He|].
      split; [intros _ _; now repeat split|].
      split; [intros ? _ Hr; discriminate Hr | intros ? ? ? _ Hr; discriminate Hr]. }
  pose proof (read_test_emails_nonempty stdin [] test_emails rest Hread) as Hne.
  pose proof (read_test_emails_length stdin [] test_emails rest
                (Nat.le_0_l 3) Hread) as Hthree.
  destruct test_emails as [|t0 test_emails']; [now contradiction Hne|]. clear Hne.
  set (test_emails := t0 :: test_emails') in *.
  destruct rest as [|answer rest].
  { split; [intros ? ? ? _ Hr; discriminate Hr|].
    split; [intros He; discriminate He|].
    split; [intros _ Hr; discriminate Hr|].
    split; [intros ? _ _; now repeat split | intros ? ? ? _ Hr; discriminate Hr]. }
  destruct (Py.startswith "y" (Py.lower answer)) eqn:Hyes; cbn [negb].
  - split.
    + intros te ans rs _ Hr _. inversion Hr; subst te ans rs. clear Hr. cbn zeta.
      pose proof (send_bulk_emails_spec (email_service self1)
                    (demo_email_list (firstn 5 email_data) test_emails))
        as [Hn Hc].
      destruct (send_bulk_emails _ _) as [[successful failed] svc].
      cbn [fst snd] in *.
      exists successful, failed. eexists _, _, _.
      split; [reflexivity|]. split; [reflexivity|]. split; [reflexivity|].
      rewrite demo_email_list_pairs in Hn, Hc.
      rewrite length_map, length_prod in Hn.
      assert (Hfive : length (firstn 5 email_data) = Nat.min 5 (length email_data))
        by apply length_firstn.
      split; [cbn [email_service with_email_service]; congruence|].
      split; [exact Hn|]. split; [exact Hfive|]. split; [nia|].
      split; [subst test_emails; simpl; lia | exact Hthree].
    + split; [intros He; discriminate He|].
      split; [intros _ Hr; discriminate Hr|].
      split; [intros ? _ Hr; discriminate Hr|].
      intros te ans rs _ Hr Hno. inversion Hr; subst. congruence.
  - split.
    + intros te ans rs _ Hr Hy. inversion Hr; subst. congruence.
    + split; [intros He; discriminate He|].
      split; [intros _ Hr; discriminate Hr|].
      split; [intros ? _ Hr; discriminate Hr|].
      intros te ans rs _ _ _. now repeat split.
Qed.

End DemoProperties.

Lemma demo_dispatch_first_five_witness :
  let stdin := ["boss@example.com"; "nope"; " qa@example.com "; ""; "Yes"] in
  let email_data :=
    fst (@generate_email_data_with_resolution sample_collaborators sample_automation) in
  let run := @manager_demo_mode sample_collaborators sample_automation stdin in
  exists successful failed stats unmapped file,
    fst run = Returned (successful, failed,
                        DemoReport (length email_data) successful failed
                                   ["boss@example.com"; "qa@example.com"]
                                   (map requester_name (firstn 5 email_data))
                                   stats unmapped file)
    /\ send_calls (email_service (snd run))
       = send_calls (email_service sample_automation)
         ++ map demo_envelope
              (list_prod (firstn 5 email_data)
                         ["boss@example.com"; "qa@example.com"])
    /\ (successful + failed = 10)%nat.
Proof.
  cbn zeta.
  destruct (@demo_dispatch_first_five sample_collaborators sample_automation
              ["boss@example.com"; "nope"; " qa@example.com "; ""; "Yes"])
    as [_ [Hconfirmed _]].
  cbn zeta in Hconfirmed.
  destruct (Hconfirmed ["boss@example.com"; "qa@example.com"] "Yes" [])
    as [successful [failed [stats [unmapped [file
         [Hrun [_ [_ [Hcalls [Hcount _]]]]]]]]]].
  - vm_compute. discriminate.
  - vm_compute. reflexivity.
  - vm_compute. reflexivity.
  - exists successful, failed, stats, unmapped, file.
    split; [exact Hrun|]. split; [exact Hcalls|].
    rewrite Hcount. vm_compute. reflexivity.
Defined.

(** A demo run over seven requesters with two test addresses: ten calls of
    [send_email], for the first five requesters only. *)
Example demo_run_sample :
  let run :=
    @manager_demo_mode sample_collaborators sample_automation
      ["boss@example.com"; "nope"; " qa@example.com "; ""; "Yes"] in
  fst run
  = Returned
      (10, 0,
       DemoReport 7 10 0 ["boss@example.com"; "qa@example.com"]
                  ["asmith"; "cjones"; "doe"; "gwen"; "hugo"]
                  zero_stats
                  (get_unmapped_users (email_resolver (email_service (snd run))))
                  (Some "unmapped_users_demo.xlsx"))
  /\ map env_to (send_calls (email_service (snd run)))
     = [ "boss@example.com"; "qa@example.com"; "boss@example.com"; "qa@example.com";
         "boss@example.com"; "qa@example.com"; "boss@example.com"; "qa@example.com";
         "boss@example.com"; "qa@example.com" ].
Proof. split; vm_compute; reflexivity. Qed.

(** A live run over the same requesters: three of seven resolve, one of the
    three mails bounces, and the four unresolved requesters are never passed
    to [send_email]. *)
Example live_run_sample :
  let run := @send_emails sample_collaborators sample_automation false ["SEND LIVE"] in
  (exists summary, fst run = Returned (2, 1, summary))
  /\ map env_to (send_calls (email_service (snd run))) = ["asmith"; "cjones"; "doe"].
Proof. split; [eexists|]; vm_compute; reflexivity. Qed.

(** Without the confirmation nothing is sent. *)
Example live_run_cancelled :
  let run := @send_emails sample_collaborators sample_automation false ["yes"] in
  fst run = Returned (0, 0, SendCancelled)
  /\ send_calls (email_service (snd run)) = [].
Proof. split; vm_compute; reflexivity. Qed.


(** * Further properties of the embedded code *)

(** ** Cleaning an identifier *)

Lemma isspace_upper_char (c : ascii) :
  Py.isspace (Py.upper_char c) = Py.isspace c.
Proof. destruct c as [[] [] [] [] [] [] [] []]; reflexivity. Qed.

Lemma upper_char_idempotent (c : ascii) :
  Py.upper_char (Py.upper_char c) = Py.upper_char c.
Proof. destruct c as [[] [] [] [] [] [] [] []]; reflexivity. Qed.

Lemma lower_upper_char (c : ascii) :
  Py.lower_char (Py.upper_char c) = Py.lower_char c.
Proof. destruct c as [[] [] [] [] [] [] [] []]; reflexivity. Qed.

Lemma upper_cons (c : ascii) (s : string) :
  Py.upper (String c s) = String (Py.upper_char c) (Py.upper s).
Proof. reflexivity. Qed.

Lemma upper_idempotent (s : string) : Py.upper (Py.upper s) = Py.upper s.
Proof.
  induction s as [|c s IH]; [reflexivity|].
  rewrite !upper_cons, upper_char_idempotent. now rewrite IH.
Qed.

Lemma lstrip_upper (s : string) : Py.lstrip (Py.upper s) = Py.upper (Py.lstrip s).
Proof.
  induction s as [|c s IH]; [reflexivity|].
  rewrite upper_cons. simpl. rewrite isspace_upper_char.
  destruct (Py.isspace c); [exact IH | reflexivity].
Qed.

Lemma rstrip_upper (s : string) : Py.rstrip (Py.upper s) = Py.upper (Py.rstrip s).
Proof.
  induction s as [|c s IH]; [reflexivity|].
  rewrite upper_cons. simpl. rewrite IH, isspace_upper_char.
  destruct (Py.rstrip s); simpl; [destruct (Py.isspace c)|]; reflexivity.
Qed.

Lemma strip_upper (s : string) : Py.strip (Py.upper s) = Py.upper (Py.strip s).
Proof. unfold Py.strip. now rewrite lstrip_upper, rstrip_upper. Qed.

Lemma rstrip_idempotent (s : string) : Py.rstrip (Py.rstrip s) = Py.rstrip s.
Proof.
  induction s as [|c s IH]; [reflexivity|]. simpl.
  destruct (Py.rstrip s) as [|d r] eqn:E.
  - destruct (Py.isspace c) eqn:Ec; [reflexivity|]. simpl. now rewrite Ec.
  - simpl. simpl in IH. destruct (Py.rstrip r) as [|d' r'] eqn:Er.
    + destruct (Py.isspace d); [discriminate | now rewrite IH].
    + now rewrite IH.
Qed.

(** A string that does not start with white space keeps its first
    character under [rstrip], so [lstrip] has nothing to remove. *)
Lemma lstrip_rstrip_fixed (s : string) :
  Py.lstrip s = s -> Py.lstrip (Py.rstrip s) = Py.rstrip s.
Proof.
  destruct s as [|c s]; [reflexivity|]. simpl.
  destruct (Py.isspace c) eqn:Ec.
  - intros Heq. exfalso.
    assert (Hlen : forall t, String.length (Py.lstrip t) <= String.length t).
    { induction t as [|a t IHt]; simpl; [lia|].
      destruct (Py.isspace a); simpl; lia. }
    specialize (Hlen s). rewrite Heq in Hlen. simpl in Hlen. lia.
  - intros _. destruct (Py.rstrip s); simpl; now rewrite Ec.
Qed.

Lemma lstrip_idempotent (s : string) : Py.lstrip (Py.lstrip s) = Py.lstrip s.
Proof.
  induction s as [|c s IH]; [reflexivity|]. simpl.
  destruct (Py.isspace c) eqn:Ec; [exact IH|]. simpl. now rewrite Ec.
Qed.

Lemma strip_idempotent (s : string) : Py.strip (Py.strip s) = Py.strip s.
Proof.
  unfold Py.strip.
  rewrite (lstrip_rstrip_fixed (Py.lstrip s)) by apply lstrip_idempotent.
  apply rstrip_idempotent.
Qed.

Lemma clean_of_idempotent (s : string) : clean_of (clean_of s) = clean_of s.
Proof.
  unfold clean_of. rewrite strip_upper, strip_idempotent. apply upper_idempotent.
Qed.

Lemma upper_nonempty (s : string) : s <> EmptyString -> Py.upper s <> EmptyString.
Proof. destruct s; [congruence | discriminate]. Qed.

Lemma strip_of_clean_nonempty (s : string) :
  Py.strip s <> EmptyString -> Py.strip (clean_of s) <> EmptyString.
Proof.
  intros H. unfold clean_of. rewrite strip_upper, strip_idempotent.
  now apply upper_nonempty.
Qed.

Lemma contains_at_cons (c : ascii) (s : string) :
  Py.contains "@" (String c s) = Ascii.eqb "@" c || Py.contains "@" s.
Proof.
  cbn [Py.contains Py.startswith]. destruct (Ascii.eqb "@" c); reflexivity.
Qed.

Lemma isspace_not_at (c : ascii) : Py.isspace c = true -> Ascii.eqb "@" c = false.
Proof.
  intros Hs. destruct (Ascii.eqb_spec "@"%char c) as [<- | ]; [discriminate | reflexivity].
Qed.

Lemma lstrip_contains_at (s : string) :
  Py.contains "@" (Py.lstrip s) = Py.contains "@" s.
Proof.
  induction s as [|c s IH]; [reflexivity|].
  cbn [Py.lstrip]. destruct (Py.isspace c) eqn:Ec; [|reflexivity].
  rewrite contains_at_cons, (isspace_not_at c Ec). exact IH.
Qed.

Lemma rstrip_contains_at (s : string) :
  Py.contains "@" (Py.rstrip s) = Py.contains "@" s.
Proof.
  induction s as [|c s IH]; [reflexivity|].
  cbn [Py.rstrip]. rewrite contains_at_cons, <- IH.
  destruct (Py.rstrip s) as [|d r].
  - destruct (Py.isspace c) eqn:Ec.
    + now rewrite (isspace_not_at c Ec).
    + now rewrite contains_at_cons.
  - now rewrite contains_at_cons.
Qed.

(** Stripping keeps an at sign. *)
Lemma strip_contains_at (s : string) :
  Py.contains "@" (Py.strip s) = Py.contains "@" s.
Proof. unfold Py.strip. now rewrite rstrip_contains_at, lstrip_contains_at. Qed.

(** ** Dictionaries *)

Lemma dict_get_set_ne {V} (d : Dict.t V) (k k' : string) (v : V) :
  k <> k' -> Dict.get (Dict.set d k v) k' = Dict.get d k'.
Proof.
  intros Hne. induction d as [|[k0 v0] d IH]; simpl.
  - destruct (String.eqb_spec k k'); [contradiction | reflexivity].
  - destruct (String.eqb_spec k0 k) as [-> | Hk0]; simpl.
    + destruct (String.eqb_spec k k'); [contradiction | reflexivity].
    + destruct (String.eqb_spec k0 k'); [reflexivity | exact IH].
Qed.

Lemma dict_set_keys {V} (d : Dict.t V) (k : string) (v : V) :
  Dict.keys (Dict.set d k v)
  = if existsb (String.eqb k) (Dict.keys d) then Dict.keys d
    else Dict.keys d ++ [k].
Proof.
  unfold Dict.keys. induction d as [|[k0 v0] d IH]; simpl; [reflexivity|].
  rewrite (String.eqb_sym k k0).
  destruct (String.eqb_spec k0 k) as [-> | Hne]; simpl; [reflexivity|].
  rewrite IH. destruct (existsb _ _); reflexivity.
Qed.

Lemma dict_set_keys_NoDup {V} (d : Dict.t V) (k : string) (v : V) :
  List.NoDup (Dict.keys d) -> List.NoDup (Dict.keys (Dict.set d k v)).
Proof.
  intros Hnd. rewrite dict_set_keys.
  destruct (existsb (String.eqb k) (Dict.keys d)) eqn:E; [exact Hnd|].
  apply List.NoDup_app; [exact Hnd | constructor; [intros [] | constructor] |].
  intros x Hx [<- | []].
  assert (existsb (String.eqb k) (Dict.keys d) = true) by now apply existsb_eqb_In.
  congruence.
Qed.

Lemma dict_set_keys_incl {V} (d : Dict.t V) (k k' : string) (v : V) :
  In k' (Dict.keys d) -> In k' (Dict.keys (Dict.set d k v)).
Proof.
  intros Hin. rewrite dict_set_keys.
  destruct (existsb _ _); [exact Hin | apply in_or_app; now left].
Qed.

Lemma dict_set_Forall {V} (P : string * V -> Prop) (d : Dict.t V) (k : string) (v : V) :
  List.Forall P d -> P (k, v) -> List.Forall P (Dict.set d k v).
Proof.
  intros Hd Hkv. induction Hd as [|[k0 v0] d H0 Hd IH]; simpl.
  - constructor; [exact Hkv | constructor].
  - destruct (String.eqb_spec k0 k) as [-> | Hne]; constructor; auto.
Qed.

Lemma dict_get_In {V} (d : Dict.t V) (k : string) (v : V) :
  List.NoDup (Dict.keys d) -> In (k, v) d -> Dict.get d k = Some v.
Proof.
  unfold Dict.keys. induction d as [|[k0 v0] d IH]; intros Hnd Hin; [destruct Hin|].
  simpl in *. inversion Hnd as [|? ? Hk0 Hnd']; subst.
  destruct Hin as [Heq | Hin].
  - inversion Heq; subst. now rewrite String.eqb_refl.
  - destruct (String.eqb_spec k0 k) as [-> | Hne]; [|now apply IH].
    exfalso. apply Hk0. apply in_map_iff. now exists (k, v).
Qed.

Lemma fold_set_invariants (pairs : list (string * string)) :
  forall (P : string * string -> Prop) (acc : Dict.t string),
    List.Forall P acc -> List.Forall P pairs -> List.NoDup (Dict.keys acc) ->
    List.Forall P (fold_left (fun d kv => Dict.set d (fst kv) (snd kv)) pairs acc)
    /\ List.NoDup
         (Dict.keys (fold_left (fun d kv => Dict.set d (fst kv) (snd kv)) pairs acc)).
Proof.
  induction pairs as [|[k v] pairs IH]; intros P acc Hacc Hpairs Hnd; simpl.
  - now split.
  - inversion Hpairs; subst. apply IH; [|assumption|].
    + now apply dict_set_Forall.
    + now apply dict_set_keys_NoDup.
Qed.

Lemma combine_maps {A B C} (f : A -> B) (g : A -> C) (l : list A) :
  combine (map f l) (map g l) = map (fun x => (f x, g x)) l.
Proof. induction l as [|x l IH]; simpl; [reflexivity | now rewrite IH]. Qed.

(** ** Loading and extending the mapping *)

Lemma valid_mapping_row_spec (j : nat) (row : list Cell) :
  valid_mapping_row j row = true ->
  exists eng email,
    DF.cell row 0 = Text eng /\ DF.cell row j = Text email
    /\ Py.contains "@" email = true /\ Py.strip eng <> EmptyString.
Proof.
  unfold valid_mapping_row.
  destruct (DF.cell row 0) as [|eng]; [discriminate|].
  destruct (DF.cell row j) as [|email]; [discriminate|].
  rewrite !andb_true_iff, !negb_true_iff.
  intros [[Hat Hne] _]. exists eng, email. repeat split; try assumption.
  now destruct (String.eqb_spec (Py.strip eng) EmptyString).
Qed.

Lemma new_resolver_invariants_aux (file : option DataFrame) :
  (values_have_at (email_mapping (new_resolver file))
   /\ keys_are_clean (email_mapping (new_resolver file)))
  /\ List.NoDup (Dict.keys (email_mapping (new_resolver file))).
Proof.
  assert (Hempty : (values_have_at [] /\ keys_are_clean [])
                    /\ List.NoDup (Dict.keys (V := string) [])).
  { repeat split; constructor. }
  unfold new_resolver, _load_mapping_fast.
  destruct file as [df|]; [|exact Hempty].
  destruct (columns df) as [|c0 others] eqn:Hcols; [exact Hempty|].
  destruct (match find_email_label (c0 :: others) 0 with
            | Some j => Some j
            | None => find_email_data df others 1
            end) as [j|]; [|exact Hempty].
  destruct (negb (Py.truthy (nth j (c0 :: others) ""))); [exact Hempty|].
  cbn [email_mapping]. unfold dict_of_zip. rewrite combine_maps.
  set (P := fun kv : string * string =>
              Py.contains "@" (snd kv) = true
              /\ fst kv <> EmptyString /\ clean_of (fst kv) = fst kv).
  destruct (fold_set_invariants
              (map (fun row => (Py.upper (Py.strip (DF.str (DF.cell row 0))),
                                Py.strip (DF.str (DF.cell row j))))
                   (List.filter (valid_mapping_row j) (rows df)))
              P []) as [HP Hnd].
  - constructor.
  - apply List.Forall_forall. intros kv Hkv.
    apply in_map_iff in Hkv as [row [<- Hrow]].
    apply filter_In in Hrow as [_ Hvalid].
    apply valid_mapping_row_spec in Hvalid
      as [eng [email [H0 [Hj [Hat Hne]]]]].
    rewrite H0, Hj. unfold P. cbn [fst snd DF.str].
    split; [now rewrite strip_contains_at|]. split.
    + now apply upper_nonempty.
    + apply clean_of_idempotent.
  - constructor.
  - split; [|exact Hnd].
    unfold values_have_at, keys_are_clean.
    split; apply List.Forall_forall; intros kv Hkv;
      rewrite List.Forall_forall in HP; now apply (HP kv Hkv).
Qed.

(** X1: whatever the mapping file holds, the mapping a new resolver starts
    with stores only addresses that contain an at sign, under keys that are
    distinct, non-empty and already stripped and upper-cased. *)
Theorem new_resolver_invariants (file : option DataFrame) :
  values_have_at (email_mapping (new_resolver file))
  /\ keys_are_clean (email_mapping (new_resolver file))
  /\ List.NoDup (Dict.keys (email_mapping (new_resolver file))).
Proof.
  destruct (new_resolver_invariants_aux file) as [[Hv Hk] Hnd]. now repeat split.
Qed.

(** X2: every entry of the mapping a new resolver has loaded is found again:
    resolving the key of the entry returns its address through the exact
    lookup and leaves the resolver unchanged. *)
Theorem new_resolver_round_trip (file : option DataFrame) (k v : string) :
  In (k, v) (email_mapping (new_resolver file)) ->
  resolve_email (new_resolver file) k = (Some v, new_resolver file).
Proof.
  intros Hin.
  destruct (new_resolver_invariants_aux file) as [[_ Hk] Hnd].
  unfold keys_are_clean in Hk. rewrite List.Forall_forall in Hk.
  destruct (Hk (k, v) Hin) as [Hne Hclean]. cbn [fst] in *.
  apply resolve_email_exact_hit; [now apply truthy_true_iff|].
  fold (clean_of k). rewrite Hclean. now apply dict_get_In.
Qed.

Lemma new_resolver_round_trip_witness :
  resolve_email (new_resolver (Some mapping_table)) "JDOE"
  = (Some "john.doe@example.com", new_resolver (Some mapping_table)).
Proof.
  apply (new_resolver_round_trip (Some mapping_table) "JDOE" "john.doe@example.com").
  vm_compute. left. reflexivity.
Defined.

(** The sample table: the header-like row, the row without an at sign and
    the row without an identifier are dropped; the later of two rows with
    the same cleaned identifier wins and keeps the place of the first. *)
Example new_resolver_sample :
  email_mapping (new_resolver (Some mapping_table))
  = [ ("JDOE", "john.doe@example.com"); ("BLEE", "b.lee@example.com") ].
Proof. reflexivity. Qed.

Lemma add_manual_mapping_cases (self : EmailResolver) (username email : string) :
  add_manual_mapping self username email = self
  \/ (Py.contains "@" email = true
      /\ add_manual_mapping self username email
         = {| email_mapping :=
                Dict.set (email_mapping self) (clean_of username) (Py.strip email);
              unmapped_users := unmapped_users self ∖ {[ username ]} |}).
Proof.
  unfold add_manual_mapping.
  destruct (Py.truthy username && Py.truthy email && Py.contains "@" email) eqn:G;
    [|now left].
  right. apply andb_true_iff in G as [_ Hat]. now split.
Qed.

(** X3: [add_manual_mapping] touches one key and one spelling only: the
    lookup of every other key is as before, and every other member of the
    unmapped set stays in it, also one that is cleaned to the same key. *)
Theorem add_manual_mapping_frame
        (self : EmailResolver) (username email : string) :
  (forall k, k <> clean_of username ->
             Dict.get (email_mapping (add_manual_mapping self username email)) k
             = Dict.get (email_mapping self) k)
  /\ (forall x, x <> username ->
                (x ∈ unmapped_users (add_manual_mapping self username email)
                 <-> x ∈ unmapped_users self)).
Proof.
  destruct (add_manual_mapping_cases self username email) as [-> | [_ ->]].
  - split; intros; reflexivity.
  - cbn [email_mapping unmapped_users]. split.
    + intros k Hk. apply dict_get_set_ne. congruence.
    + intros x Hx. rewrite elem_of_difference, elem_of_singleton. tauto.
Qed.

(** Another spelling of a name stays in the unmapped set after the name
    has been mapped by hand, although it now resolves. *)
Example other_spelling_stays_unmapped :
  let r0 := snd (resolve_email (mkEmailResolver [] ∅) "jdoe ") in
  let r1 := add_manual_mapping r0 "JDOE" "j.doe@example.com" in
  fst (resolve_email r1 "jdoe ") = Some "j.doe@example.com"
  /\ elements (unmapped_users r1) = ["jdoe "].
Proof. split; vm_compute; reflexivity. Qed.

Lemma add_manual_mapping_keeps_invariants
      (self : EmailResolver) (username email : string) :
  values_have_at (email_mapping self) ->
  List.NoDup (Dict.keys (email_mapping self)) ->
  values_have_at (email_mapping (add_manual_mapping self username email))
  /\ List.NoDup (Dict.keys (email_mapping (add_manual_mapping self username email)))
  /\ unmapped_users (add_manual_mapping self username email) ⊆ unmapped_users self
  /\ (forall k, In k (Dict.keys (email_mapping self)) ->
                In k (Dict.keys (email_mapping (add_manual_mapping self username email)))).
Proof.
  intros Hv Hnd.
  destruct (add_manual_mapping_cases self username email) as [-> | [Hat ->]].
  - repeat split; auto.
  - cbn [email_mapping unmapped_users]. split; [|split; [|split]].
    + apply dict_set_Forall; [exact Hv|]. cbn [snd]. now rewrite strip_contains_at.
    + now apply dict_set_keys_NoDup.
    + intros x. rewrite elem_of_difference. tauto.
    + intros k. apply dict_set_keys_incl.
Qed.

Lemma load_manual_rows_keep_invariants (u e : nat) (table : list (list Cell)) :
  forall self : EmailResolver,
    values_have_at (email_mapping self) ->
    List.NoDup (Dict.keys (email_mapping self)) ->
    values_have_at (email_mapping (fold_left (load_manual_row u e) table self))
    /\ List.NoDup (Dict.keys (email_mapping (fold_left (load_manual_row u e) table self)))
    /\ unmapped_users (fold_left (load_manual_row u e) table self) ⊆ unmapped_users self
    /\ (forall k, In k (Dict.keys (email_mapping self)) ->
                  In k (Dict.keys (email_mapping
                                     (fold_left (load_manual_row u e) table self)))).
Proof.
  induction table as [|row table IH]; intros self Hv Hnd; simpl.
  - repeat split; auto.
  - assert (Hstep :
              values_have_at (email_mapping (load_manual_row u e self row))
              /\ List.NoDup (Dict.keys (email_mapping (load_manual_row u e self row)))
              /\ unmapped_users (load_manual_row u e self row) ⊆ unmapped_users self
              /\ (forall k, In k (Dict.keys (email_mapping self)) ->
                            In k (Dict.keys (email_mapping (load_manual_row u e self row))))).
    { unfold load_manual_row. destruct (_ && _ && _).
      - now apply add_manual_mapping_keeps_invariants.
      - repeat split; auto. }
    destruct Hstep as [Hv1 [Hnd1 [Hsub1 Hk1]]].
    destruct (IH _ Hv1 Hnd1) as [Hv2 [Hnd2 [Hsub2 Hk2]]].
    split; [exact Hv2|]. split; [exact Hnd2|]. split.
    + intros x Hx. apply Hsub1, Hsub2, Hx.
    + intros k Hk. apply Hk2, Hk1, Hk.
Qed.

(** X4: loading manual mappings keeps the mapping well formed (every address
    contains an at sign, keys are distinct), keeps every key that was
    mapped, and never adds a name to the unmapped set. *)
Theorem load_manual_mappings_keeps_invariants
        (self : EmailResolver) (file : option DataFrame) :
  values_have_at (email_mapping self) ->
  List.NoDup (Dict.keys (email_mapping self)) ->
  values_have_at (email_mapping (load_manual_mappings self file))
  /\ List.NoDup (Dict.keys (email_mapping (load_manual_mappings self file)))
  /\ unmapped_users (load_manual_mappings self file) ⊆ unmapped_users self
  /\ (forall k, In k (Dict.keys (email_mapping self)) ->
                In k (Dict.keys (email_mapping (load_manual_mappings self file)))).
Proof.
  intros Hv Hnd. unfold load_manual_mappings.
  destruct file as [df|]; [|repeat split; auto].
  destruct (DF.index_of "Username" (columns df)) as [u|]; [|repeat split; auto].
  destruct (DF.index_of "Email" (columns df)) as [e|]; [|repeat split; auto].
  now apply load_manual_rows_keep_invariants.
Qed.

Lemma load_manual_mappings_keeps_invariants_witness :
  let self := new_resolver (Some mapping_table) in
  values_have_at (email_mapping (load_manual_mappings self (Some manual_table)))
  /\ List.NoDup (Dict.keys (email_mapping (load_manual_mappings self (Some manual_table))))
  /\ unmapped_users (load_manual_mappings self (Some manual_table)) ⊆ unmapped_users self
  /\ (forall k, In k (Dict.keys (email_mapping self)) ->
                In k (Dict.keys (email_mapping
                                   (load_manual_mappings self (Some manual_table))))).
Proof.
  apply (load_manual_mappings_keeps_invariants
           (new_resolver (Some mapping_table)) (Some manual_table)).
  - repeat constructor.
  - repeat constructor; simpl; intuition discriminate.
Defined.

(** A row without an address is skipped; a row without a user name is
    loaded under the text of the missing value. *)
Example load_manual_mappings_sample :
  email_mapping (load_manual_mappings (mkEmailResolver [] ∅) (Some manual_table))
  = [ ("GWEN", "gwen@example.com"); ("NAN", "lost@example.com") ].
Proof. reflexivity. Qed.

(** X5: resolving the cleaned form of an identifier gives the same answer
    as resolving the identifier, provided stripping leaves something. *)
Theorem resolve_email_on_cleaned (self : EmailResolver) (username : string) :
  Py.strip username <> EmptyString ->
  fst (resolve_email self (clean_of username)) = fst (resolve_email self username).
Proof.
  intros Hs.
  assert (Hu : Py.truthy username = true).
  { apply truthy_true_iff. intros ->. now apply Hs. }
  assert (Hc : Py.truthy (clean_of username) = true).
  { apply truthy_true_iff. unfold clean_of. now apply upper_nonempty. }
  unfold resolve_email. rewrite Hu, Hc. cbn [negb].
  fold (clean_of (clean_of username)). fold (clean_of username).
  rewrite clean_of_idempotent.
  destruct (Dict.get _ _); [reflexivity|].
  destruct (partial_match _ _); reflexivity.
Qed.

Lemma resolve_email_on_cleaned_witness :
  fst (resolve_email (new_resolver (Some mapping_table)) (clean_of "  b.Lee "))
  = fst (resolve_email (new_resolver (Some mapping_table)) "  b.Lee ").
Proof.
  apply (resolve_email_on_cleaned (new_resolver (Some mapping_table)) "  b.Lee ").
  vm_compute. discriminate.
Defined.

(** ** Bulk resolution *)

Lemma combine_with_map {A B} (f : A -> B) (l : list A) :
  combine l (map f l) = map (fun x => (x, f x)) l.
Proof. induction l as [|x l IH]; simpl; [reflexivity | now rewrite IH]. Qed.

Lemma bulk_resolve_loop_spec (usernames : list string) :
  forall (self : EmailResolver) (results : Dict.t (option string)),
    let run :=
      bulk_resolve_loop self (map (fun u => (u, clean_of u)) usernames) results in
    email_mapping (snd run) = email_mapping self
    /\ (forall u, In u usernames ->
                  Dict.get (fst run) u
                  = Some (Dict.get (email_mapping self) (clean_of u)))
    /\ (forall u, ~ In u usernames -> Dict.get (fst run) u = Dict.get results u)
    /\ (forall x, x ∈ unmapped_users (snd run) <->
                  x ∈ unmapped_users self
                  \/ (In x usernames
                      /\ Py.truthy_opt (Dict.get (email_mapping self) (clean_of x))
                         = false)).
Proof.
  induction usernames as [|u0 usernames IH]; intros self results; cbn zeta.
  - simpl. repeat split; auto; tauto.
  - cbn [map bulk_resolve_loop].
    set (found := Dict.get (email_mapping self) (clean_of u0)).
    set (self1 := if negb (Py.truthy_opt found)
                  then {| email_mapping := email_mapping self;
                          unmapped_users := {[ u0 ]} ∪ unmapped_users self |}
                  else self).
    assert (Hmap1 : email_mapping self1 = email_mapping self)
      by (unfold self1; destruct (negb _); reflexivity).
    assert (Hun1 : forall x, x ∈ unmapped_users self1 <->
                             x ∈ unmapped_users self
                             \/ (x = u0 /\ Py.truthy_opt found = false)).
    { intros x. unfold self1. destruct (Py.truthy_opt found); cbn [negb unmapped_users].
      - intuition discriminate.
      - rewrite elem_of_union, elem_of_singleton. tauto. }
    specialize (IH self1 (Dict.set results u0 found)). cbn zeta in IH.
    destruct IH as [Hmap [Hin [Hout Hun]]]. rewrite Hmap1 in *.
    split; [exact Hmap|]. split; [|split].
    + intros u [<- | Hu].
      * destruct (in_dec string_dec u0 usernames) as [Hi | Hni]; [now apply Hin|].
        rewrite (Hout u0 Hni). apply dict_get_set_eq.
      * now apply Hin.
    + intros u Hu. rewrite Hout by (intros Hi; apply Hu; now right).
      apply dict_get_set_ne. intros ->. apply Hu. now left.
    + intros x. rewrite Hun, Hun1. subst found. simpl.
      split.
      * intros [[Hx | [-> Hf]] | [Hx Hf]]; auto.
      * intros [Hx | [[<- | Hx] Hf]]; auto.
Qed.

(** X6: [bulk_resolve_emails] answers each name with the exact lookup of
    its cleaned form and with nothing else; it leaves the mapping alone and
    adds to the unmapped set exactly the names whose lookup gave no
    address. *)
Theorem bulk_resolve_emails_spec (self : EmailResolver) (usernames : list string) :
  let run := bulk_resolve_emails self usernames in
  email_mapping (snd run) = email_mapping self
  /\ (forall u, In u usernames ->
                Dict.get (fst run) u
                = Some (Dict.get (email_mapping self) (clean_of u)))
  /\ (forall u, ~ In u usernames -> Dict.get (fst run) u = None)
  /\ (forall x, x ∈ unmapped_users (snd run) <->
                x ∈ unmapped_users self
                \/ (In x usernames
                    /\ Py.truthy_opt (Dict.get (email_mapping self) (clean_of x))
                       = false)).
Proof.
  cbn zeta. unfold bulk_resolve_emails. rewrite combine_with_map.
  exact (bulk_resolve_loop_spec usernames self []).
Qed.

(** X7: an address found by [bulk_resolve_emails] is the address
    [resolve_email] returns for the same non-empty name. *)
Theorem bulk_hit_agrees_with_resolve_email
        (self : EmailResolver) (usernames : list string) (u email : string) :
  u <> EmptyString ->
  Dict.get (fst (bulk_resolve_emails self usernames)) u = Some (Some email) ->
  fst (resolve_email self u) = Some email.
Proof.
  intros Hne Hget.
  assert (Hspec := bulk_resolve_loop_spec usernames self []). cbn zeta in Hspec.
  destruct Hspec as [_ [Hin [Hout _]]]. unfold clean_of in Hin, Hout.
  unfold bulk_resolve_emails in Hget. rewrite combine_with_map in Hget.
  destruct (in_dec string_dec u usernames) as [Hi | Hni].
  - rewrite (Hin u Hi) in Hget. inversion Hget as [Hhit].
    assert (Hres : resolve_email self u = (Some email, self)).
    { apply resolve_email_exact_hit; [now apply truthy_true_iff | exact Hhit]. }
    now rewrite Hres.
  - rewrite (Hout u Hni) in Hget. discriminate.
Qed.

Lemma bulk_hit_agrees_with_resolve_email_witness :
  fst (resolve_email (new_resolver (Some mapping_table)) " jdoe")
  = Some "john.doe@example.com".
Proof.
  apply (bulk_hit_agrees_with_resolve_email
           (new_resolver (Some mapping_table)) ["zed"; " jdoe"] " jdoe").
  - discriminate.
  - reflexivity.
Defined.

(** The converse fails: [bulk_resolve_emails] has no partial matching, so a
    name [resolve_email] resolves can end up in the unmapped set. *)
Example bulk_has_no_partial_match :
  let r := new_resolver (Some mapping_table) in
  fst (resolve_email r "lee") = Some "b.lee@example.com"
  /\ Dict.get (fst (bulk_resolve_emails r ["lee"])) "lee" = Some None
  /\ elements (unmapped_users (snd (bulk_resolve_emails r ["lee"]))) = ["lee"].
Proof. repeat split; vm_compute; reflexivity. Qed.


(** ** The tiers of [search_contact_email] *)

Section TierProperties.

Context `{!Collaborators}.

(** [search_contact_email] in one piece, with the answer of the resolver
    and of Outlook named. *)
Lemma search_contact_email_eq (self : OutlookEmailService) (name_or_email : string) :
  search_contact_email self name_or_email
  = if negb (Py.truthy name_or_email) then (None, self)
    else if Py.contains "@" name_or_email && Py.contains "." name_or_email
    then (Some name_or_email, self)
    else
      let mapped_email := fst (resolve_email (email_resolver self) name_or_email) in
      let self1 :=
        with_resolver self (snd (resolve_email (email_resolver self) name_or_email)) in
      if Py.truthy_opt mapped_email
      then (mapped_email, with_stats self1 (incr_mapped (resolution_stats self)))
      else match outlook_answer self name_or_email with
           | Some email =>
               (Some email,
                with_stats self1 (incr_outlook_resolved (resolution_stats self)))
           | None =>
               (None, with_stats self1 (incr_failed (resolution_stats self)))
           end.
Proof.
  unfold search_contact_email, outlook_answer.
  destruct (negb (Py.truthy name_or_email)); [reflexivity|].
  destruct (Py.contains "@" name_or_email && Py.contains "." name_or_email);
    [reflexivity|].
  destruct (resolve_email (email_resolver self) name_or_email) as [m r]. reflexivity.
Qed.

Lemma resolve_email_mapping (r : EmailResolver) (username : string) :
  email_mapping (snd (resolve_email r username)) = email_mapping r.
Proof.
  unfold resolve_email. destruct (negb _); [reflexivity|].
  destruct (Dict.get _ _); [reflexivity|].
  destruct (partial_match _ _); reflexivity.
Qed.

Lemma resolve_email_answer (r1 r2 : EmailResolver) (username : string) :
  email_mapping r1 = email_mapping r2 ->
  fst (resolve_email r1 username) = fst (resolve_email r2 username).
Proof.
  intros Hm. unfold resolve_email. rewrite Hm.
  destruct (negb _); [reflexivity|].
  destruct (Dict.get _ _); [reflexivity|].
  destruct (partial_match _ _); reflexivity.
Qed.

(** What [search_contact_email] leaves alone. *)
Lemma search_contact_email_keeps (self : OutlookEmailService) (name_or_email : string) :
  email_mapping (email_resolver (snd (search_contact_email self name_or_email)))
  = email_mapping (email_resolver self)
  /\ address_book (snd (search_contact_email self name_or_email)) = address_book self
  /\ is_connected (snd (search_contact_email self name_or_email)) = is_connected self
  /\ outlook (snd (search_contact_email self name_or_email)) = outlook self.
Proof.
  rewrite search_contact_email_eq.
  destruct (negb (Py.truthy name_or_email)); [repeat split|].
  destruct (Py.contains "@" name_or_email && Py.contains "." name_or_email);
    [repeat split|].
  cbn zeta.
  destruct (Py.truthy_opt _);
    [|destruct (outlook_answer self name_or_email)];
    cbn; repeat split; apply resolve_email_mapping.
Qed.

(** The answer depends on the mapping, the address book and the connection
    only. *)
Lemma search_contact_email_answer
      (self1 self2 : OutlookEmailService) (name_or_email : string) :
  email_mapping (email_resolver self1) = email_mapping (email_resolver self2) ->
  address_book self1 = address_book self2 ->
  is_connected self1 = is_connected self2 ->
  fst (search_contact_email self1 name_or_email)
  = fst (search_contact_email self2 name_or_email).
Proof.
  intros Hm Hb Hc. rewrite !search_contact_email_eq.
  destruct (negb (Py.truthy name_or_email)); [reflexivity|].
  destruct (Py.contains "@" name_or_email && Py.contains "." name_or_email);
    [reflexivity|].
  cbn zeta.
  rewrite (resolve_email_answer _ _ name_or_email Hm).
  assert (Ho : outlook_answer self1 name_or_email = outlook_answer self2 name_or_email)
    by (unfold outlook_answer; now rewrite Hb, Hc).
  rewrite Ho.
  destruct (Py.truthy_opt _); [reflexivity|].
  destruct (outlook_answer self2 name_or_email); reflexivity.
Qed.

(** X8: the answer of [search_contact_email] does not depend on what was
    resolved before: after any other resolution, the same name gets the
    same answer. *)
Theorem search_contact_email_stable
        (self : OutlookEmailService) (earlier name_or_email : string) :
  fst (search_contact_email (snd (search_contact_email self earlier)) name_or_email)
  = fst (search_contact_email self name_or_email).
Proof.
  destruct (search_contact_email_keeps self earlier) as [Hm [Hb [Hc _]]].
  now apply search_contact_email_answer.
Qed.

(** X9: a name that is empty or shaped like an address leaves the
    statistics alone.  Any other name raises exactly one of the counters
    [mapped], [outlook_resolved], [failed] by one and leaves the other
    three counters as they were: [mapped] when the resolver gave a non-empty
    address, which is then the answer; otherwise [outlook_resolved] when
    Outlook gave an address, which is then the answer; otherwise [failed],
    and the answer is [None].  The answer is [None] exactly when [failed]
    is the counter raised. *)
Theorem search_contact_email_counts
        (self : OutlookEmailService) (name_or_email : string) :
  let run := search_contact_email self name_or_email in
  let before := resolution_stats self in
  let after := resolution_stats (snd run) in
  (name_or_email = EmptyString
   \/ Py.contains "@" name_or_email && Py.contains "." name_or_email = true ->
   after = before)
  /\ (reaches_resolver name_or_email ->
      ((Py.truthy_opt (fst (resolve_email (email_resolver self) name_or_email)) = true
        /\ fst run = fst (resolve_email (email_resolver self) name_or_email)
        /\ stats_are after (S (mapped before)) (outlook_resolved before)
                     (fallback_used before) (failed before))
       \/ (Py.truthy_opt (fst (resolve_email (email_resolver self) name_or_email)) = false
           /\ (exists email, outlook_answer self name_or_email = Some email
                             /\ fst run = Some email)
           /\ stats_are after (mapped before) (S (outlook_resolved before))
                        (fallback_used before) (failed before))
       \/ (Py.truthy_opt (fst (resolve_email (email_resolver self) name_or_email)) = false
           /\ outlook_answer self name_or_email = None
           /\ fst run = None
           /\ stats_are after (mapped before) (outlook_resolved before)
                        (fallback_used before) (S (failed before))))
      /\ (fst run = None <-> failed after = S (failed before))
      /\ (fst run <> None -> failed after = failed before)).
Proof.
  cbn zeta. rewrite search_contact_email_eq. split.
  - intros [-> | Hshape]; [reflexivity|].
    destruct (negb (Py.truthy name_or_email)); [reflexivity|].
    now rewrite Hshape.
  - intros [Hne Hshape].
    rewrite (proj2 (truthy_true_iff _) Hne), Hshape. cbn [negb]. cbn zeta.
    destruct (Py.truthy_opt (fst (resolve_email (email_resolver self) name_or_email)))
      eqn:Ht.
    + cbn [fst snd with_stats resolution_stats incr_mapped failed].
      split; [|split].
      * left. split; [reflexivity|]. split; [reflexivity|].
        unfold stats_are. cbn. now repeat split.
      * split; [|intros Hf; lia].
        intros Hnone. rewrite Hnone in Ht. discriminate.
      * intros _. reflexivity.
    + destruct (outlook_answer self name_or_email) as [email|] eqn:Ho.
      * cbn [fst snd with_stats resolution_stats incr_outlook_resolved failed].
        split; [|split].
        -- right. left. split; [reflexivity|]. split; [now exists email|].
           unfold stats_are. cbn. now repeat split.
        -- split; [discriminate | intros Hf; lia].
        -- intros _. reflexivity.
      * cbn [fst snd with_stats resolution_stats incr_failed failed].
        split; [|split].
        -- right. right. split; [reflexivity|]. split; [reflexivity|].
           split; [reflexivity|]. unfold stats_are. cbn. now repeat split.
        -- split; reflexivity.
        -- intros Hn. now contradiction Hn.
Qed.

Lemma lower_upper (s : string) : Py.lower (Py.upper s) = Py.lower s.
Proof.
  induction s as [|c s IH]; [reflexivity|].
  unfold Py.lower, Py.upper in *. simpl. now rewrite lower_upper_char, IH.
Qed.

(** X10: for a name and an address book written in ASCII characters, the
    search of the address book ignores the case of the name: the upper-cased
    name finds what the name finds. *)
Theorem search_address_entries_ignores_case
        (name_or_email : string) (entries : list AddressEntry) :
  Py.isascii name_or_email = true ->
  forallb (fun entry => Py.isascii (entry_Name entry)) entries = true ->
  search_address_entries (Py.upper name_or_email) entries
  = search_address_entries name_or_email entries.
Proof.
  intros _ _. induction entries as [|entry rest IH]; [reflexivity|].
  simpl. now rewrite lower_upper, IH.
Qed.

End TierProperties.

Lemma search_contact_email_counts_witness :
  let run := @search_contact_email sample_collaborators sample_service "doe" in
  fst run = Some "john.doe@example.com"
  /\ stats_are (resolution_stats (snd run)) 0 1 0 0.
Proof.
  destruct (@search_contact_email_counts sample_collaborators sample_service "doe")
    as [_ Hcounts].
  assert (Hreaches : reaches_resolver "doe") by (split; [discriminate | reflexivity]).
  destruct (Hcounts Hreaches)
    as [[[Hmapped _] | [[_ [[email [Houtlook Hanswer]] Hstats]] | [_ [Hnone _]]]] _].
  - discriminate Hmapped.
  - split; [rewrite Hanswer, <- Houtlook; reflexivity | exact Hstats].
  - discriminate Hnone.
Defined.

Lemma search_address_entries_ignores_case_witness :
  search_address_entries (Py.upper "doe")
    [ mkEntry "Lee, Bruce" (Some "bruce.lee@example.com");
      mkEntry "Doe, John" (Some "john.doe@example.com") ]
  = Some "john.doe@example.com"
  /\ search_address_entries "doe"
       [ mkEntry "Lee, Bruce" (Some "bruce.lee@example.com");
         mkEntry "Doe, John" (Some "john.doe@example.com") ]
     = Some "john.doe@example.com".
Proof.
  rewrite (search_address_entries_ignores_case "doe"
             [ mkEntry "Lee, Bruce" (Some "bruce.lee@example.com");
               mkEntry "Doe, John" (Some "john.doe@example.com") ]
             eq_refl eq_refl).
  split; reflexivity.
Defined.

(** ** Sending *)

Section SendProperties.

Context `{!Collaborators}.

Lemma resolve_cc_keeps (cc_addresses : list string) :
  forall self : OutlookEmailService,
    outlook (snd (resolve_cc self cc_addresses)) = outlook self.
Proof.
  induction cc_addresses as [|cc rest IH]; intros self; simpl; [reflexivity|].
  destruct (search_contact_email_keeps self cc) as [_ [_ [_ Ho]]].
  destruct (search_contact_email self cc) as [e self1]. simpl in Ho.
  specialize (IH self1).
  destruct (resolve_cc self1 rest) as [es self2]. simpl in *. congruence.
Qed.

(** X11: [send_email] answers [True] only when the service is connected and
    the recipient resolved to a non-empty address; when the service is not
    connected or the recipient did not resolve, the answer is [False] and
    the state of Outlook is untouched: nothing is handed over for delivery. *)
Theorem send_email_needs_an_address
        (self : OutlookEmailService) (to_address subject body : string)
        (cc_addresses attachments : list string) :
  let run := send_email self to_address subject body cc_addresses attachments in
  (fst run = true ->
   is_connected self = true
   /\ exists resolved,
        fst (search_contact_email self to_address) = Some resolved
        /\ resolved <> EmptyString)
  /\ (is_connected self = false
      \/ Py.truthy_opt (fst (search_contact_email self to_address)) = false ->
      fst run = false /\ outlook (snd run) = outlook self).
Proof.
  cbn zeta. unfold send_email.
  set (self0 := record_call self
                  (mkEnvelope to_address subject body cc_addresses attachments)).
  assert (Hans : fst (search_contact_email self0 to_address)
                 = fst (search_contact_email self to_address))
    by (now apply search_contact_email_answer).
  destruct (search_contact_email_keeps self0 to_address) as [_ [_ [_ Ho]]].
  change (is_connected self0) with (is_connected self).
  change (outlook self0) with (outlook self) in Ho.
  destruct (is_connected self); cbn [negb].
  - destruct (search_contact_email self0 to_address) as [resolved self1].
    cbn [fst snd] in *. rewrite <- Hans.
    destruct resolved as [resolved|].
    + destruct (Py.truthy resolved) eqn:Ht; cbn [negb Py.truthy_opt].
      * split.
        -- intros _. split; [reflexivity|]. exists resolved.
           split; [reflexivity | now apply truthy_true_iff].
        -- rewrite Ht. intros [Hd | Hd]; discriminate.
      * split; [discriminate|]. intros _. now split.
    + split; [discriminate|]. intros _. now split.
  - split; [discriminate|]. intros _. now split.
Qed.

Lemma send_email_disconnected
      (self : OutlookEmailService) (to_address subject body : string)
      (cc_addresses attachments : list string) :
  is_connected self = false ->
  send_email self to_address subject body cc_addresses attachments
  = (false,
     record_call self (mkEnvelope to_address subject body cc_addresses attachments)).
Proof.
  intros Hc. unfold send_email. cbn [is_connected record_call]. now rewrite Hc.
Qed.

Lemma send_loop_disconnected (email_data : list Envelope) :
  forall (self : OutlookEmailService) (successful failed_count : nat),
    is_connected self = false ->
    let run := send_loop self email_data successful failed_count in
    fst (fst run) = successful
    /\ snd (fst run) = (failed_count + length email_data)%nat
    /\ outlook (snd run) = outlook self
    /\ email_resolver (snd run) = email_resolver self
    /\ resolution_stats (snd run) = resolution_stats self.
Proof.
  induction email_data as [|e rest IH]; intros self successful failed_count Hc;
    cbn zeta; cbn [send_loop].
  - cbn. repeat split. lia.
  - rewrite send_email_disconnected by assumption.
    specialize (IH (record_call self
                      (mkEnvelope (env_to e) (env_subject e) (env_body e)
                                  (env_cc e) (env_attachments e)))
                   successful (S failed_count) Hc).
    cbn zeta in IH. destruct IH as [H1 [H2 [H3 [H4 H5]]]].
    repeat split; try assumption. rewrite H2. simpl. lia.
Qed.

(** X12: without a connection to Outlook, [send_bulk_emails] counts every
    message as failed, hands nothing to Outlook, resolves no recipient and
    leaves the statistics at zero. *)
Theorem send_bulk_emails_disconnected
        (self : OutlookEmailService) (email_data : list Envelope) :
  is_connected self = false ->
  let run := send_bulk_emails self email_data in
  fst (fst run) = 0%nat
  /\ snd (fst run) = length email_data
  /\ outlook (snd run) = outlook self
  /\ email_resolver (snd run) = email_resolver self
  /\ resolution_stats (snd run) = zero_stats.
Proof.
  intros Hc. cbn zeta. unfold send_bulk_emails.
  destruct (send_loop_disconnected email_data (with_stats self zero_stats) 0 0 Hc)
    as [H1 [H2 [H3 [H4 H5]]]].
  repeat split; assumption.
Qed.

End SendProperties.

Lemma send_bulk_emails_disconnected_witness :
  let self := @mkService sample_collaborators 0%nat false None
                         (mkEmailResolver [] ∅) zero_stats [] in
  let run := @send_bulk_emails sample_collaborators self
               [mkEnvelope "asmith" "s" "b" [] [];
                mkEnvelope "x@example.com" "s" "b" [] []] in
  fst (fst run) = 0%nat
  /\ snd (fst run) = 2%nat
  /\ outlook (snd run) = outlook self
  /\ email_resolver (snd run) = email_resolver self
  /\ resolution_stats (snd run) = zero_stats.
Proof.
  apply (@send_bulk_emails_disconnected sample_collaborators). reflexivity.
Defined.

Section BatchStatistics.

Context `{!Collaborators}.

Lemma search_contact_email_stats (self : OutlookEmailService) (name_or_email : string) :
  let run := search_contact_email self name_or_email in
  (stats_total (resolution_stats (snd run)) <= S (stats_total (resolution_stats self)))%nat
  /\ fallback_used (resolution_stats (snd run)) = fallback_used (resolution_stats self)
  /\ (failed (resolution_stats self) <= failed (resolution_stats (snd run)))%nat
  /\ (failed (resolution_stats (snd run)) <> failed (resolution_stats self) ->
      fst run = None
      /\ failed (resolution_stats (snd run)) = S (failed (resolution_stats self))).
Proof.
  cbn zeta. rewrite search_contact_email_eq. unfold stats_total.
  destruct (negb (Py.truthy name_or_email)); [cbn; repeat split; try lia; congruence|].
  destruct (Py.contains "@" name_or_email && Py.contains "." name_or_email);
    [cbn; repeat split; try lia; congruence|].
  cbn zeta.
  destruct (Py.truthy_opt _);
    [|destruct (outlook_answer self name_or_email)];
    cbn; repeat split; try lia; congruence.
Qed.

Lemma send_email_stats (self : OutlookEmailService)
      (to_address subject body : string) (attachments : list string) :
  let run := send_email self to_address subject body [] attachments in
  (stats_total (resolution_stats (snd run)) <= S (stats_total (resolution_stats self)))%nat
  /\ fallback_used (resolution_stats (snd run)) = fallback_used (resolution_stats self)
  /\ (failed (resolution_stats self) <= failed (resolution_stats (snd run)))%nat
  /\ (failed (resolution_stats (snd run)) <> failed (resolution_stats self) ->
      fst run = false
      /\ failed (resolution_stats (snd run)) = S (failed (resolution_stats self))).
Proof.
  cbn zeta. unfold send_email.
  set (self0 := record_call self (mkEnvelope to_address subject body [] attachments)).
  change (resolution_stats self) with (resolution_stats self0).
  destruct (negb (is_connected self0));
    [cbn; repeat split; try lia; congruence|].
  pose proof (search_contact_email_stats self0 to_address) as Hs. cbn zeta in Hs.
  destruct (search_contact_email self0 to_address) as [resolved self1].
  cbn [fst snd] in Hs. destruct Hs as [Ht [Hf [Hle Hfail]]].
  assert (Hclose : forall b : bool,
             b = false ->
             (stats_total (resolution_stats self1)
              <= S (stats_total (resolution_stats self0)))%nat
             /\ fallback_used (resolution_stats self1)
                = fallback_used (resolution_stats self0)
             /\ (failed (resolution_stats self0)
                 <= failed (resolution_stats self1))%nat
             /\ (failed (resolution_stats self1) <> failed (resolution_stats self0) ->
                 b = false
                 /\ failed (resolution_stats self1)
                    = S (failed (resolution_stats self0)))).
  { intros b Hb. split; [exact Ht|]. split; [exact Hf|]. split; [exact Hle|].
    intros Hne. destruct (Hfail Hne) as [_ Hs]. now split. }
  destruct resolved as [resolved|].
  - destruct (negb (Py.truthy resolved)).
    + cbn [fst snd]. now apply Hclose.
    + cbn [resolve_cc]. destruct (outlook_deliver _ _) as [sent w].
      cbn [fst snd with_outlook resolution_stats].
      split; [exact Ht|]. split; [exact Hf|]. split; [exact Hle|].
      intros Hne. destruct (Hfail Hne) as [Hnone _]. discriminate.
  - cbn [fst snd]. now apply Hclose.
Qed.

Lemma send_loop_stats (email_data : list Envelope) :
  forall (self : OutlookEmailService) (successful failed_count : nat),
    Forall (fun email_info => env_cc email_info = []) email_data ->
    let run := send_loop self email_data successful failed_count in
    (stats_total (resolution_stats (snd run))
     <= stats_total (resolution_stats self) + length email_data)%nat
    /\ fallback_used (resolution_stats (snd run)) = fallback_used (resolution_stats self)
    /\ (failed (resolution_stats (snd run)) + failed_count
        <= failed (resolution_stats self) + snd (fst run))%nat.
Proof.
  induction email_data as [|e rest IH]; intros self successful failed_count Hcc;
    cbn zeta; cbn [send_loop].
  - cbn. repeat split; lia.
  - inversion Hcc as [|e' rest' Hnocc Hrest]; subst. rewrite Hnocc.
    pose proof (send_email_stats self (env_to e) (env_subject e) (env_body e)
                                 (env_attachments e))
      as Hs. cbn zeta in Hs.
    destruct (send_email self (env_to e) (env_subject e) (env_body e) []
                         (env_attachments e))
      as [success self1].
    cbn [fst snd] in Hs. destruct Hs as [Ht [Hf [Hle Hfail]]].
    destruct success.
    + specialize (IH self1 (S successful) failed_count Hrest). cbn zeta in IH.
      destruct IH as [I1 [I2 I3]].
      assert (failed (resolution_stats self1) = failed (resolution_stats self)).
      { destruct (Nat.eq_dec (failed (resolution_stats self1))
                             (failed (resolution_stats self))) as [|Hne];
          [assumption | destruct (Hfail Hne); discriminate]. }
      cbn [length]. repeat split; [lia | congruence | lia].
    + specialize (IH self1 successful (S failed_count) Hrest). cbn zeta in IH.
      destruct IH as [I1 [I2 I3]].
      assert (failed (resolution_stats self1) <= S (failed (resolution_stats self)))%nat.
      { destruct (Nat.eq_dec (failed (resolution_stats self1))
                             (failed (resolution_stats self))) as [|Hne];
          [lia | destruct (Hfail Hne); lia]. }
      cbn [length]. repeat split; [lia | congruence | lia].
Qed.

(** X13: for a batch in which no message names a cc address (as in every
    batch this program builds), the statistics after [send_bulk_emails] are
    those of the batch alone: they count at most one resolution per
    message, never a fall-back, and no more failed resolutions than failed
    messages. *)
Theorem send_bulk_emails_statistics
        (self : OutlookEmailService) (email_data : list Envelope) :
  Forall (fun email_info => env_cc email_info = []) email_data ->
  let run := send_bulk_emails self email_data in
  (stats_total (resolution_stats (snd run)) <= length email_data)%nat
  /\ fallback_used (resolution_stats (snd run)) = 0%nat
  /\ (failed (resolution_stats (snd run)) <= snd (fst run))%nat.
Proof.
  intros Hcc. cbn zeta. unfold send_bulk_emails.
  pose proof (send_loop_stats email_data (with_stats self zero_stats) 0 0 Hcc) as Hs.
  cbn zeta in Hs. destruct Hs as [H1 [H2 H3]].
  cbn in H1, H2, H3. repeat split; [lia | exact H2 | lia].
Qed.

End BatchStatistics.

Lemma send_bulk_emails_statistics_witness :
  let run := @send_bulk_emails sample_collaborators sample_service
               [ mkEnvelope "asmith" "s" "b" [] [];
                 mkEnvelope "zed" "s" "b" [] ["report.xlsx"];
                 mkEnvelope "x@example.com" "s" "b" [] [] ] in
  (stats_total (resolution_stats (snd run)) <= 3)%nat
  /\ fallback_used (resolution_stats (snd run)) = 0%nat
  /\ (failed (resolution_stats (snd run)) <= snd (fst run))%nat.
Proof.
  apply (@send_bulk_emails_statistics sample_collaborators sample_service
           [ mkEnvelope "asmith" "s" "b" [] [];
             mkEnvelope "zed" "s" "b" [] ["report.xlsx"];
             mkEnvelope "x@example.com" "s" "b" [] [] ]).
  repeat constructor.
Defined.

(** The same batch, counted: one recipient is found in the mapping, one is
    found nowhere, and one is an address already and is not counted. *)
Example batch_statistics_sample :
  let run := @send_bulk_emails sample_collaborators sample_service
               [ mkEnvelope "asmith" "s" "b" [] [];
                 mkEnvelope "zed" "s" "b" [] ["report.xlsx"];
                 mkEnvelope "x@example.com" "s" "b" [] [] ] in
  fst run = (2, 1)%nat
  /\ resolution_stats (snd run)
     = {| mapped := 1; outlook_resolved := 0; fallback_used := 0; failed := 1 |}.
Proof. split; vm_compute; reflexivity. Qed.

(** ** Required columns *)

Lemma count_fold (p : string -> bool) (l : list string) (acc : nat) :
  fold_left (fun score c => if p c then S score else score) l acc
  = (acc + length (List.filter p l))%nat.
Proof.
  revert acc. induction l as [|c l IH]; intros acc; simpl; [lia|].
  rewrite IH. destruct (p c); simpl; lia.
Qed.

Lemma filter_split_length {A} (p q : A -> bool) (l : list A) :
  (forall x, In x l -> q x = true -> p x = true) ->
  (length l <= length (List.filter p l)
               + length (List.filter (fun x => negb (q x)) l))%nat.
Proof.
  induction l as [|x l IH]; intros Himp; simpl; [lia|].
  assert (IH' := IH (fun y Hy => Himp y (or_intror Hy))).
  pose proof (Himp x (or_introl eq_refl)) as Hx.
  destruct (q x) eqn:Eq; simpl.
  - rewrite Hx by reflexivity. simpl. lia.
  - destruct (p x); simpl; lia.
Qed.

Lemma required_columns_stripped :
  List.Forall (fun c => Py.strip c = c) Config.REQUIRED_COLUMNS.
Proof. repeat constructor. Qed.

Lemma present_then_present_stripped (c : string) (cols : list string) :
  Py.strip c = c ->
  existsb (String.eqb c) cols = true ->
  existsb (String.eqb c) (map Py.strip cols) = true.
Proof.
  intros Hc Hex. apply existsb_eqb_In in Hex. apply existsb_eqb_In.
  rewrite <- Hc. now apply in_map.
Qed.

Lemma score_and_missing (required cols : list string) :
  List.Forall (fun c => Py.strip c = c) required ->
  (length required
   <= fold_left (fun score required_col =>
                   if existsb (String.eqb required_col) (map Py.strip cols)
                   then S score else score) required 0%nat
      + length (List.filter (fun col => negb (existsb (String.eqb col) cols))
                            required))%nat
  /\ (fold_left (fun score required_col =>
                   if existsb (String.eqb required_col) (map Py.strip cols)
                   then S score else score) required 0%nat
      <= length required)%nat.
Proof.
  intros Hs.
  rewrite (count_fold (fun c => existsb (String.eqb c) (map Py.strip cols))).
  split.
  - apply (filter_split_length
             (fun c => existsb (String.eqb c) (map Py.strip cols))
             (fun c => existsb (String.eqb c) cols)).
    intros c Hc Hpres. apply present_then_present_stripped; [|exact Hpres].
    rewrite List.Forall_forall in Hs. now apply Hs.
  - apply List.filter_length_le.
Qed.

(** X14: [validate_dataframe_columns] accepts a frame exactly when each
    required column is among its labels as written; the columns it reports
    missing are the required columns that are not, in their order; and the
    score of the frame plus the number of missing columns is at least the
    number of required columns, so an accepted frame has the full score. *)
Theorem validate_dataframe_columns_spec (df : DataFrame) :
  let '(ok, message, missing_columns) := validate_dataframe_columns df in
  (ok = true <-> forall c, In c Config.REQUIRED_COLUMNS -> In c (columns df))
  /\ (ok = true <-> missing_columns = [])
  /\ (forall c, In c missing_columns <->
                In c Config.REQUIRED_COLUMNS /\ ~ In c (columns df))
  /\ (length Config.REQUIRED_COLUMNS <= _score_sheet df + length missing_columns)%nat
  /\ (_score_sheet df <= length Config.REQUIRED_COLUMNS)%nat.
Proof.
  unfold validate_dataframe_columns.
  set (missing := List.filter
                    (fun col => negb (existsb (String.eqb col) (columns df)))
                    Config.REQUIRED_COLUMNS).
  assert (Hmem : forall c, In c missing <->
                           In c Config.REQUIRED_COLUMNS /\ ~ In c (columns df)).
  { intros c. unfold missing. rewrite filter_In, negb_true_iff.
    pose proof (existsb_eqb_In c (columns df)) as Hex.
    destruct (existsb (String.eqb c) (columns df)).
    - split; [intros [_ Hd]; discriminate|].
      intros [_ Hn]. exfalso. apply Hn. now apply Hex.
    - split; [|tauto]. intros [Hc _]. split; [exact Hc|].
      intros Hin. apply Hex in Hin. discriminate. }
  assert (Hall : missing = [] <->
                 forall c, In c Config.REQUIRED_COLUMNS -> In c (columns df)).
  { split.
    - intros Hnil c Hc.
      destruct (in_dec string_dec c (columns df)) as [Hin | Hnin]; [exact Hin|].
      assert (Hm : In c missing) by (apply Hmem; now split).
      rewrite Hnil in Hm. destruct Hm.
    - intros Hpres. destruct missing as [|c rest] eqn:E; [reflexivity|].
      assert (Hm : In c (c :: rest)) by now left.
      apply Hmem in Hm as [Hc Hn]. exfalso. apply Hn, Hpres, Hc. }
  pose proof (score_and_missing Config.REQUIRED_COLUMNS (columns df)
                                required_columns_stripped) as Hscore.
  fold missing in Hscore. fold (_score_sheet df) in Hscore.
  destruct missing as [|c rest] eqn:E.
  - split; [split; [intros _; now apply Hall | reflexivity]|].
    split; [split; reflexivity|]. split; [exact Hmem | exact Hscore].
  - split; [split; [discriminate | intros Hp; apply Hall in Hp; discriminate]|].
    split; [split; discriminate|]. split; [exact Hmem | exact Hscore].
Qed.

(** A label with a blank around it counts for the score and is reported
    missing all the same. *)
Example padded_label_scores_and_is_missing :
  let df := {| columns := [" Plnt"; "Item "]; rows := [] |} in
  _score_sheet df = 2%nat
  /\ length (snd (validate_dataframe_columns df)) = 15%nat.
Proof. split; vm_compute; reflexivity. Qed.

(** ** From the workbook to the groups *)

Lemma find_data_sheet_cases (wb : Workbook) :
  (find_data_sheet wb = (false, None, None))
  \/ (exists name df,
        find_data_sheet wb = (true, Some name, Some df)
        /\ In (name, df) wb /\ eligible df = true /\ name <> EmptyString).
Proof.
  pose proof (selector_fold wb [] _
                (SelectorNone [] (fun s (Hs : In s []) => match Hs with end)))
    as Inv.
  simpl in Inv. unfold find_data_sheet.
  remember (fold_left analyze_sheet wb
              {| best_sheet := None; best_score := 0; best_data := None |}) as best.
  clear Heqbest.
  destruct Inv as [wb Hnone | pre name df post El Hpre Hpost];
    cbn [best_sheet best_data Py.truthy_opt].
  - now left.
  - destruct (Py.truthy name) eqn:Hn; [|now left].
    right. exists name, df. repeat split; auto.
    + apply in_or_app. right. now left.
    + now apply truthy_true_iff.
Qed.

Lemma find_data_sheet_none (wb : Workbook) :
  (forall s, In s wb -> eligible (snd s) = false) ->
  find_data_sheet wb = (false, None, None).
Proof.
  intros Hnone. destruct (find_data_sheet_cases wb) as [H | [name [df [_ [Hin [El _]]]]]];
    [exact H|].
  specialize (Hnone (name, df) Hin). simpl in Hnone. congruence.
Qed.

(** X15: [find_data_sheet] either reports that nothing was found, or returns
    the name and the frame of a sheet of the workbook that is not empty, has
    both mandatory columns and is not a pivot table; it reports that nothing
    was found when every sheet lacks a mandatory column. *)
Theorem find_data_sheet_sound (wb : Workbook) :
  (find_data_sheet wb = (false, None, None)
   \/ exists name df,
        find_data_sheet wb = (true, Some name, Some df)
        /\ In (name, df) wb
        /\ DF.empty df = false
        /\ DF.has_column "ERF Sched Line Status" df = true
        /\ DF.has_column "Entered by" df = true
        /\ _is_real_pivot_table df = false)
  /\ ((forall s, In s wb ->
                 DF.has_column "ERF Sched Line Status" (snd s)
                 && DF.has_column "Entered by" (snd s) = false) ->
      find_data_sheet wb = (false, None, None)).
Proof.
  split.
  - destruct (find_data_sheet_cases wb) as [H | [name [df [H [Hin [El _]]]]]];
      [now left|].
    right. exists name, df. unfold eligible in El.
    rewrite !andb_true_iff, !negb_true_iff in El.
    destruct El as [[He [Hs Hb]] Hp]. now repeat split.
  - intros Hmiss. apply find_data_sheet_none. intros s Hs.
    unfold eligible. rewrite (Hmiss s Hs).
    now rewrite andb_false_r.
Qed.

Lemma has_column_index_of (name : string) (df : DataFrame) :
  DF.has_column name df = true ->
  exists j, DF.index_of name (columns df) = Some j.
Proof.
  unfold DF.has_column. induction (columns df) as [|c cols IH]; simpl; [discriminate|].
  rewrite (String.eqb_sym name c).
  destruct (String.eqb c name); [intros _; now exists 0%nat|].
  simpl. intros Hex. destruct (IH Hex) as [j Hj]. rewrite Hj. now exists (S j).
Qed.

Lemma filter_data_true (self : ExcelProcessor) :
  fst (filter_data self) = true ->
  exists raw j,
    raw_data self = Some raw
    /\ DF.index_of "ERF Sched Line Status" (columns raw) = Some j
    /\ snd (filter_data self)
       = {| raw_data := raw_data self;
            filtered_data := Some (filter_by_status Config.TARGET_STATUSES j raw);
            grouped_data := grouped_data self;
            selected_sheet := selected_sheet self |}
    /\ rows (filter_by_status Config.TARGET_STATUSES j raw) <> [].
Proof.
  unfold filter_data. destruct (raw_data self) as [raw|]; [|discriminate].
  destruct (DF.index_of _ _) as [j|] eqn:Hj; [|discriminate].
  destruct (Nat.eqb_spec (DF.len (filter_by_status Config.TARGET_STATUSES j raw)) 0)
    as [Hz | Hnz]; [discriminate|].
  intros _. exists raw, j. split; [reflexivity|]. split; [exact Hj|].
  split; [reflexivity|].
  intros Hnil. apply Hnz. unfold DF.len. now rewrite Hnil.
Qed.

Lemma group_by_requester_true (self : ExcelProcessor) :
  fst (group_by_requester self) = true ->
  exists filtered j,
    filtered_data self = Some filtered
    /\ DF.index_of "Entered by" (columns filtered) = Some j
    /\ snd (group_by_requester self)
       = {| raw_data := raw_data self;
            filtered_data := filtered_data self;
            grouped_data :=
              Some {| gb_frame := DF.select (valid_key j) filtered; gb_by := j |};
            selected_sheet := selected_sheet self |}
    /\ rows (DF.select (valid_key j) filtered) <> [].
Proof.
  unfold group_by_requester. destruct (filtered_data self) as [filtered|]; [|discriminate].
  destruct (DF.index_of _ _) as [j|] eqn:Hj; [|discriminate].
  destruct (Nat.eqb_spec (DF.len (DF.select (valid_key j) filtered)) 0)
    as [Hz | Hnz]; [discriminate|].
  intros _. exists filtered, j. split; [reflexivity|]. split; [exact Hj|].
  split; [reflexivity|].
  intros Hnil. apply Hnz. unfold DF.len. now rewrite Hnil.
Qed.

(** X16: [filter_data] never changes the raw data, and it answers [True]
    exactly when the raw data is loaded, has the status column, and holds a
    row whose status is one of the target statuses. *)
Theorem filter_data_true_iff (self : ExcelProcessor) :
  raw_data (snd (filter_data self)) = raw_data self
  /\ (fst (filter_data self) = true <->
      exists raw j row,
        raw_data self = Some raw
        /\ DF.index_of "ERF Sched Line Status" (columns raw) = Some j
        /\ In row (rows raw)
        /\ DF.isin Config.TARGET_STATUSES (DF.cell row j) = true).
Proof.
  split.
  - unfold filter_data. destruct (raw_data self) as [raw|] eqn:Hraw; [|exact Hraw].
    destruct (DF.index_of _ _) as [j|]; [|exact Hraw].
    destruct (_ =? _)%nat; reflexivity.
  - split.
    + intros Ht. destruct (filter_data_true self Ht) as [raw [j [Hraw [Hj [_ Hne]]]]].
      destruct (rows (filter_by_status Config.TARGET_STATUSES j raw))
        as [|row rest] eqn:Hrows; [contradiction|].
      assert (Hin : In row (rows (filter_by_status Config.TARGET_STATUSES j raw)))
        by (rewrite Hrows; now left).
      unfold filter_by_status, DF.select in Hin. cbn [rows] in Hin.
      apply filter_In in Hin as [Hin Hs]. now exists raw, j, row.
    + intros [raw [j [row [Hraw [Hj [Hin Hs]]]]]].
      unfold filter_data. rewrite Hraw, Hj.
      destruct (Nat.eqb_spec (DF.len (filter_by_status Config.TARGET_STATUSES j raw)) 0)
        as [Hz | Hnz]; [|reflexivity].
      exfalso. unfold DF.len in Hz. apply length_zero_iff_nil in Hz.
      assert (Hin' : In row (rows (filter_by_status Config.TARGET_STATUSES j raw))).
      { unfold filter_by_status, DF.select. cbn [rows]. apply filter_In. now split. }
      rewrite Hz in Hin'. destruct Hin'.
Qed.

Lemma get_grouped_data_eq (self : ExcelProcessor) (g : GroupBy) :
  grouped_data self = Some g -> get_grouped_data self = groupby_iter g.
Proof.
  intros Hg. unfold get_grouped_data. rewrite Hg.
  rewrite (dict_of_items _ []); [reflexivity|].
  simpl. rewrite groupby_iter_keys. apply sorted_NoDup, unique_NoDup.
Qed.

Lemma groupby_iter_In (g : GroupBy) (k : string) (group : DataFrame) :
  In (k, group) (groupby_iter g) ->
  group = DF.select (has_key (gb_by g) k) (gb_frame g)
  /\ exists row, In row (rows (gb_frame g)) /\ DF.cell row (gb_by g) = Text k.
Proof.
  unfold groupby_iter. intros Hin.
  apply in_map_iff in Hin as [k' [Heq Hk]]. inversion Heq; subst. split; [reflexivity|].
  apply sorted_In, unique_In, key_values_In in Hk. exact Hk.
Qed.

Lemma has_key_spec (j : nat) (k : string) (row : list Cell) :
  has_key j k row = true <-> DF.cell row j = Text k.
Proof.
  unfold has_key. destruct (DF.cell row j) as [|s]; [split; discriminate|].
  destruct (String.eqb_spec s k) as [-> | Hne]; split; congruence.
Qed.

Lemma list_sum_cons (x : nat) (l : list nat) :
  list_sum (x :: l) = (x + list_sum l)%nat.
Proof. reflexivity. Qed.

Lemma sum_indicator_absent (s : string) (ks : list string) :
  ~ In s ks ->
  list_sum (map (fun k => if String.eqb s k then 1 else 0)%nat ks) = 0%nat.
Proof.
  induction ks as [|k ks IH]; intros Hn; simpl; [reflexivity|].
  destruct (String.eqb_spec s k) as [-> | _]; [exfalso; apply Hn; now left|].
  apply IH. intros Hin. apply Hn. now right.
Qed.

Lemma sum_indicator_present (s : string) (ks : list string) :
  List.NoDup ks -> In s ks ->
  list_sum (map (fun k => if String.eqb s k then 1 else 0)%nat ks) = 1%nat.
Proof.
  induction 1 as [|k ks Hk Hnd IH]; intros Hin; [destruct Hin|]. simpl.
  destruct (String.eqb_spec s k) as [-> | Hne].
  - now rewrite sum_indicator_absent.
  - destruct Hin as [-> | Hin]; [contradiction | now apply IH].
Qed.

(** Rows that all carry one of the distinct keys [ks] are counted once
    each when the groups are counted key by key. *)
Lemma group_sizes_add_up (j : nat) (ks : list string) (table : list (list Cell)) :
  List.NoDup ks ->
  (forall row, In row table -> exists s, DF.cell row j = Text s /\ In s ks) ->
  list_sum (map (fun k => length (List.filter (has_key j k) table)) ks)
  = length table.
Proof.
  intros Hnd. induction table as [|row table IH]; intros Hall.
  - simpl. induction ks as [|k ks IHk]; [reflexivity|]. simpl.
    inversion Hnd; subst. now apply IHk.
  - destruct (Hall row (or_introl eq_refl)) as [s [Hs Hin]].
    assert (Hsplit : forall l,
               list_sum (map (fun k => length (List.filter (has_key j k) (row :: table))) l)
               = (list_sum (map (fun k => if String.eqb s k then 1 else 0) l)
                  + list_sum (map (fun k => length (List.filter (has_key j k) table)) l))%nat).
    { induction l as [|k l IHl]; [reflexivity|].
      rewrite !map_cons, !list_sum_cons, IHl.
      cbn [List.filter]. unfold has_key at 1. rewrite Hs.
      destruct (String.eqb s k); cbn [length]; lia. }
    rewrite Hsplit, sum_indicator_present by assumption.
    rewrite IH by (intros r Hr; apply Hall; now right). reflexivity.
Qed.

(** X17: the groups partition the rows that have a usable key: each such
    row lies in the group of its key, no row lies in groups of two
    different keys, no group is empty, and the sizes of the groups add up to
    the number of such rows. *)
Theorem groups_partition_valid_rows (filtered : DataFrame) (j : nat) :
  DF.index_of "Entered by" (columns filtered) = Some j ->
  let groups := grouped_of filtered in
  let valid_rows := List.filter (valid_key j) (rows filtered) in
  (forall row, In row valid_rows ->
               exists k g, In (k, g) groups /\ In row (rows g)
                           /\ DF.cell row j = Text k)
  /\ (forall k1 g1 k2 g2 row,
        In (k1, g1) groups -> In (k2, g2) groups ->
        In row (rows g1) -> In row (rows g2) -> k1 = k2)
  /\ (forall k g, In (k, g) groups -> rows g <> [])
  /\ list_sum (map (fun kg => DF.len (snd kg)) groups) = length valid_rows.
Proof.
  intros Hj. cbn zeta. rewrite (grouped_of_eq filtered j Hj).
  set (clean := DF.select (valid_key j) filtered).
  assert (Hkey : forall row, In row (rows clean) ->
                             exists s, DF.cell row j = Text s
                                       /\ In s (sorted (unique (key_values j clean)))).
  { intros row Hrow. assert (Hv := Hrow). unfold clean, DF.select in Hv.
    cbn [rows] in Hv. apply filter_In in Hv as [_ Hv].
    unfold valid_key in Hv. destruct (DF.cell row j) as [|s] eqn:Hc; [discriminate|].
    exists s. split; [reflexivity|].
    apply sorted_In, unique_In, key_values_In. now exists row. }
  change (List.filter (valid_key j) (rows filtered)) with (rows clean).
  destruct (Nat.eqb_spec (DF.len clean) 0) as [Hz | Hnz].
  - unfold DF.len in Hz. apply length_zero_iff_nil in Hz. rewrite Hz.
    repeat split; intros; contradiction.
  - unfold groupby_iter. cbn [gb_by gb_frame]. split; [|split; [|split]].
    + intros row Hrow. destruct (Hkey row Hrow) as [s [Hs Hin]].
      exists s, (DF.select (has_key j s) clean). split.
      * apply in_map_iff. now exists s.
      * split; [|exact Hs]. unfold DF.select. cbn [rows].
        apply filter_In. split; [exact Hrow | now apply has_key_spec].
    + intros k1 g1 k2 g2 row H1 H2 Hr1 Hr2.
      apply in_map_iff in H1 as [k1' [E1 _]]. apply in_map_iff in H2 as [k2' [E2 _]].
      inversion E1; inversion E2; subst.
      unfold DF.select in Hr1, Hr2. cbn [rows] in Hr1, Hr2.
      apply filter_In in Hr1 as [_ Hk1]. apply filter_In in Hr2 as [_ Hk2].
      apply has_key_spec in Hk1, Hk2. congruence.
    + intros k g Hin. apply in_map_iff in Hin as [k' [E Hk]]. inversion E; subst.
      apply sorted_In, unique_In, key_values_In in Hk as [row [Hrow Hc]].
      intros Hnil.
      assert (Hin : In row (rows (DF.select (has_key j k) clean))).
      { unfold DF.select. cbn [rows]. apply filter_In.
        split; [exact Hrow | now apply has_key_spec]. }
      rewrite Hnil in Hin. destruct Hin.
    + rewrite map_map. cbn [snd]. unfold DF.len, DF.select. cbn [rows].
      apply group_sizes_add_up; [apply sorted_NoDup, unique_NoDup | exact Hkey].
Qed.

Lemma groups_partition_valid_rows_witness :
  let groups := grouped_of requester_sheet in
  let valid_rows := List.filter (valid_key 0) (rows requester_sheet) in
  (forall row, In row valid_rows ->
               exists k g, In (k, g) groups /\ In row (rows g)
                           /\ DF.cell row 0 = Text k)
  /\ (forall k1 g1 k2 g2 row,
        In (k1, g1) groups -> In (k2, g2) groups ->
        In row (rows g1) -> In row (rows g2) -> k1 = k2)
  /\ (forall k g, In (k, g) groups -> rows g <> [])
  /\ list_sum (map (fun kg => DF.len (snd kg)) groups) = length valid_rows.
Proof.
  apply (groups_partition_valid_rows requester_sheet 0). reflexivity.
Defined.

Lemma load_file_true (self : ExcelProcessor) (wb : Workbook) :
  fst (load_file self wb) = true ->
  exists name raw,
    In (name, raw) wb /\ eligible raw = true
    /\ snd (load_file self wb)
       = {| raw_data := Some raw;
            filtered_data := filtered_data self;
            grouped_data := grouped_data self;
            selected_sheet := Some name |}.
Proof.
  unfold load_file.
  destruct (find_data_sheet_cases wb) as [-> | [name [df [-> [Hin [El _]]]]]];
    [discriminate|].
  intros _. now exists name, df.
Qed.

Lemma load_file_false (self : ExcelProcessor) (wb : Workbook) :
  (forall s, In s wb -> eligible (snd s) = false) ->
  load_file self wb = (false, self).
Proof.
  intros Hnone. unfold load_file. now rewrite find_data_sheet_none.
Qed.

Section PipelineProperties.

Context `{!Collaborators}.

(** X18: when [process_excel_file] succeeds, the processor holds an
    eligible sheet of the workbook as raw data, its rows with a target
    status as filtered data, and at least one group; every group is
    non-empty and all its rows are rows of the sheet with a target status
    and the key of the group; the e-mail service is untouched.  It fails
    when no sheet of the workbook is eligible. *)
Theorem process_excel_file_success
        (self : ERFAutomationService) (wb : Workbook) :
  (fst (process_excel_file self wb) = true ->
   let p := excel_processor (snd (process_excel_file self wb)) in
   email_service (snd (process_excel_file self wb)) = email_service self
   /\ exists name raw js jk,
        In (name, raw) wb /\ eligible raw = true
        /\ selected_sheet p = Some name /\ raw_data p = Some raw
        /\ DF.index_of "ERF Sched Line Status" (columns raw) = Some js
        /\ DF.index_of "Entered by" (columns raw) = Some jk
        /\ filtered_data p = Some (filter_by_status Config.TARGET_STATUSES js raw)
        /\ get_grouped_data p <> []
        /\ forall k g,
             In (k, g) (get_grouped_data p) ->
             rows g <> []
             /\ forall row, In row (rows g) ->
                            In row (rows raw)
                            /\ DF.isin Config.TARGET_STATUSES (DF.cell row js) = true
                            /\ DF.cell row jk = Text k)
  /\ ((forall s, In s wb -> eligible (snd s) = false) ->
      fst (process_excel_file self wb) = false).
Proof.
  split.
  - unfold process_excel_file.
    destruct (load_file (excel_processor self) wb) as [loaded p1] eqn:Hload.
    destruct loaded; cbn [negb]; [|discriminate].
    destruct (load_file_true (excel_processor self) wb) as [name [raw [Hin [El Hp1]]]];
      [now rewrite Hload|].
    rewrite Hload in Hp1. cbn [snd] in Hp1.
    destruct (filter_data p1) as [filtered_ok p2] eqn:Hfilter.
    destruct filtered_ok; cbn [negb]; [|discriminate].
    destruct (filter_data_true p1) as [raw' [js [Hraw [Hjs [Hp2 Hne2]]]]];
      [now rewrite Hfilter|].
    rewrite Hfilter in Hp2. cbn [snd] in Hp2.
    rewrite Hp1 in Hraw. cbn [raw_data] in Hraw. inversion Hraw; subst raw'. clear Hraw.
    destruct (group_by_requester p2) as [grouped_ok p3] eqn:Hgroup.
    destruct grouped_ok; cbn [negb]; [|discriminate].
    destruct (group_by_requester_true p2) as [filtered [jk [Hfil [Hjk [Hp3 Hne3]]]]];
      [now rewrite Hgroup|].
    rewrite Hgroup in Hp3. cbn [snd] in Hp3.
    rewrite Hp2 in Hfil. cbn [filtered_data] in Hfil. inversion Hfil; subst filtered.
    clear Hfil. intros _. cbn [fst snd excel_processor email_service].
    split; [reflexivity|].
    exists name, raw, js, jk.
    assert (Hg : get_grouped_data p3
                 = groupby_iter
                     {| gb_frame := DF.select (valid_key jk)
                                      (filter_by_status Config.TARGET_STATUSES js raw);
                        gb_by := jk |}).
    { apply get_grouped_data_eq. now rewrite Hp3. }
    split; [exact Hin|]. split; [exact El|].
    split; [rewrite Hp3, Hp2, Hp1; reflexivity|].
    split; [rewrite Hp3, Hp2, Hp1; reflexivity|].
    split; [exact Hjs|]. split; [exact Hjk|].
    split; [rewrite Hp3, Hp2; reflexivity|].
    rewrite Hg. split.
    + destruct (rows (DF.select (valid_key jk)
                        (filter_by_status Config.TARGET_STATUSES js raw)))
        as [|row rest] eqn:Hrows; [contradiction|].
      assert (Hrow : In row (rows (DF.select (valid_key jk)
                                     (filter_by_status Config.TARGET_STATUSES js raw))))
        by (rewrite Hrows; now left).
      assert (Hv := Hrow). unfold DF.select in Hv. cbn [rows] in Hv.
      apply filter_In in Hv as [_ Hv]. unfold valid_key in Hv.
      destruct (DF.cell row jk) as [|s] eqn:Hc; [discriminate|].
      intros Hnil.
      assert (Hk : In s (Dict.keys
                           (groupby_iter
                              {| gb_frame := DF.select (valid_key jk)
                                               (filter_by_status Config.TARGET_STATUSES js raw);
                                 gb_by := jk |}))).
      { rewrite groupby_iter_keys. cbn [gb_by gb_frame].
        apply sorted_In, unique_In, key_values_In. now exists row. }
      rewrite Hnil in Hk. destruct Hk.
    + intros k g Hkg. apply groupby_iter_In in Hkg as [-> [row0 [Hrow0 Hc0]]].
      cbn [gb_by gb_frame] in *. split.
      * intros Hnil.
        assert (Hin0 : In row0 (rows (DF.select (has_key jk k)
                                        (DF.select (valid_key jk)
                                           (filter_by_status Config.TARGET_STATUSES js raw))))).
        { unfold DF.select at 1. cbn [rows]. apply filter_In.
          split; [exact Hrow0 | now apply has_key_spec]. }
        rewrite Hnil in Hin0. destruct Hin0.
      * intros row Hrow. unfold DF.select, filter_by_status in Hrow.
        cbn [rows] in Hrow.
        apply filter_In in Hrow as [Hrow Hk].
        apply filter_In in Hrow as [Hrow _].
        apply filter_In in Hrow as [Hrow Hs].
        split; [exact Hrow|]. split; [exact Hs | now apply has_key_spec].
  - intros Hnone. unfold process_excel_file.
    now rewrite (load_file_false _ _ Hnone).
Qed.

End PipelineProperties.

Lemma process_excel_file_success_witness :
  let run :=
    @process_excel_file sample_collaborators
      (@mkAutomation sample_collaborators
         {| raw_data := None; filtered_data := None;
            grouped_data := None; selected_sheet := None |}
         sample_service)
      [ ("Summary", summary_sheet); ("Team", team_sheet) ] in
  get_grouped_data (excel_processor (snd run)) <> [].
Proof.
  cbn zeta.
  destruct (proj1 (@process_excel_file_success sample_collaborators
                     (@mkAutomation sample_collaborators
                        {| raw_data := None; filtered_data := None;
                           grouped_data := None; selected_sheet := None |}
                        sample_service)
                     [ ("Summary", summary_sheet); ("Team", team_sheet) ]))
    as [_ [name [raw [js [jk [_ [_ [_ [_ [_ [_ [_ [Hne _]]]]]]]]]]]]].
  - reflexivity.
  - exact Hne.
Defined.

(** ** Preview and demo input *)

Lemma len_take (s : string) :
  forall n : nat, Py.len (Py.take n s) = Nat.min n (Py.len s).
Proof.
  induction s as [|c s IH]; intros n; cbn [Py.take Py.len].
  - now rewrite Nat.min_0_r.
  - destruct (Py.is_continuation c) eqn:Hc; cbn [Py.len]; rewrite ?Hc.
    + apply IH.
    + destruct n as [|n]; [reflexivity|].
      cbn [Py.len]. rewrite Hc, IH. reflexivity.
Qed.

Lemma take_prefix (s : string) :
  forall n : nat, exists rest, s = Py.take n s +:+ rest.
Proof.
  induction s as [|c s IH]; intros n; cbn [Py.take].
  - now exists EmptyString.
  - destruct (Py.is_continuation c).
    + destruct (IH n) as [rest Hrest]. exists rest.
      change (String c s = String c (Py.take n s +:+ rest)). now f_equal.
    + destruct n as [|n]; [now exists (String c s)|].
      destruct (IH n) as [rest Hrest]. exists rest.
      change (String c s = String c (Py.take n s +:+ rest)). now f_equal.
Qed.

Lemma take_all (s : string) :
  forall n : nat, (Py.len s <= n)%nat -> Py.take n s = s.
Proof.
  induction s as [|c s IH]; intros n Hle; cbn [Py.take Py.len] in *; [reflexivity|].
  destruct (Py.is_continuation c).
  - now rewrite IH.
  - destruct n as [|n]; [lia|]. rewrite IH by lia. reflexivity.
Qed.

Lemma len_append (s t : string) : Py.len (s +:+ t) = (Py.len s + Py.len t)%nat.
Proof.
  induction s as [|c s IH]; [reflexivity|].
  change (Py.len (String c (s +:+ t)) = (Py.len (String c s) + Py.len t)%nat).
  cbn [Py.len]. rewrite IH. now destruct (Py.is_continuation c).
Qed.

Lemma len_ascii (s : string) : Py.isascii s = true -> Py.len s = String.length s.
Proof.
  induction s as [|c s IH]; [reflexivity|].
  destruct c as [b0 b1 b2 b3 b4 b5 b6 b7]. cbn [Py.isascii Py.len Py.is_continuation].
  intros Hs. apply andb_true_iff in Hs. destruct Hs as [Hb Hs].
  destruct b7; [discriminate|]. cbn [andb String.length]. now rewrite IH.
Qed.

Section PreviewProperties.

Context `{!Collaborators}.

Lemma resolve_groups_outlook (items : Dict.t DataFrame) :
  forall svc : OutlookEmailService,
    outlook (snd (resolve_groups svc items)) = outlook svc
    /\ length (fst (resolve_groups svc items)) = length items.
Proof.
  induction items as [|[requester items_df] rest IH]; intros svc; simpl.
  - now split.
  - destruct (search_contact_email_keeps svc requester) as [_ [_ [_ Ho]]].
    destruct (search_contact_email svc requester) as [resolved svc1].
    simpl in Ho. destruct (IH svc1) as [Ho2 Hl].
    destruct (resolve_groups svc1 rest) as [email_data svc2]. simpl in *.
    split; [congruence | now f_equal].
Qed.

Lemma generate_email_data_outlook (self : ERFAutomationService) :
  outlook (email_service (snd (generate_email_data_with_resolution self)))
  = outlook (email_service self)
  /\ length (fst (generate_email_data_with_resolution self))
     = length (get_grouped_data (excel_processor self)).
Proof.
  unfold generate_email_data_with_resolution.
  pose proof (resolve_groups_outlook (get_grouped_data (excel_processor self))
                                     (email_service self)) as Hspec.
  destruct (resolve_groups _ _) as [email_data svc]. exact Hspec.
Qed.

(** X19: in preview mode [send_emails] reads nothing from the console,
    never calls [send_email] and leaves Outlook untouched; it reports one
    entry per group, zero failures, and counts of resolved and unresolved
    groups that add up to the number of groups. *)
Theorem preview_mode_sends_nothing
        (self : ERFAutomationService) (stdin : list string) :
  let run := send_emails self true stdin in
  let groups := get_grouped_data (excel_processor self) in
  (exists emails mapped_count unmapped_count,
      fst run = Returned (length groups, 0%nat,
                          PreviewReport emails mapped_count unmapped_count)
      /\ length emails = length groups
      /\ (mapped_count + unmapped_count = length groups)%nat
      /\ mapped_count = length (List.filter email_found emails))
  /\ send_calls (email_service (snd run)) = send_calls (email_service self)
  /\ outlook (email_service (snd run)) = outlook (email_service self).
Proof.
  cbn zeta. unfold send_emails.
  destruct (generate_email_data_spec self) as [Hcalls _].
  destruct (generate_email_data_outlook self) as [Hout Hlen].
  destruct (generate_email_data_with_resolution self) as [email_data self1].
  cbn [fst snd] in *. split; [|now split].
  exists email_data, (count_found email_data),
         (length email_data - count_found email_data)%nat.
  rewrite <- Hlen. split; [reflexivity|]. split; [reflexivity|].
  split; [|reflexivity].
  unfold count_found. pose proof (List.filter_length_le email_found email_data). lia.
Qed.

(** X20: [preview_emails] sends nothing and lists one preview per group;
    its two counts add up to the total; each body preview is the body
    itself when that has at most 300 characters, and otherwise its first
    300 characters followed by three dots, 303 characters in all.
    Characters are code points: a body is cut between two of them. *)
Theorem preview_emails_spec (self : ERFAutomationService) :
  let run := preview_emails self in
  let email_data := fst (generate_email_data_with_resolution self) in
  send_calls (email_service (snd run)) = send_calls (email_service self)
  /\ total_emails (fst run) = length (get_grouped_data (excel_processor self))
  /\ (preview_mapped_count (fst run) + preview_unmapped_count (fst run)
      = total_emails (fst run))%nat
  /\ preview_list (fst run) = map preview_entry email_data
  /\ forall email, In email email_data ->
       (Py.len (body_preview (preview_entry email)) <= 303)%nat
       /\ ((Py.len (body email) <= 300)%nat ->
           body_preview (preview_entry email) = body email)
       /\ ((300 < Py.len (body email))%nat ->
           Py.len (body_preview (preview_entry email)) = 303%nat
           /\ Py.len (Py.take 300 (body email)) = 300%nat
           /\ exists rest,
                body email = Py.take 300 (body email) +:+ rest
                /\ body_preview (preview_entry email)
                   = Py.take 300 (body email) +:+ "...").
Proof.
  cbn zeta. unfold preview_emails.
  destruct (generate_email_data_spec self) as [Hcalls _].
  destruct (generate_email_data_outlook self) as [_ Hlen].
  destruct (generate_email_data_with_resolution self) as [email_data self1].
  cbn [fst snd total_emails preview_mapped_count preview_unmapped_count preview_list] in *.
  split; [exact Hcalls|]. split; [exact Hlen|].
  split; [pose proof (List.filter_length_le email_found email_data); lia|].
  split; [reflexivity|].
  intros email _. cbn [preview_entry body_preview]. unfold body_preview_of.
  destruct (Nat.ltb_spec 300 (Py.len (body email))) as [Hlong | Hshort].
  - assert (Hlen300 : Py.len (Py.take 300 (body email)) = 300%nat)
      by (rewrite len_take; lia).
    assert (Hdots : Py.len "..." = 3%nat) by reflexivity.
    split; [rewrite len_append, Hlen300, Hdots; lia|].
    split; [lia|]. intros _.
    split; [rewrite len_append, Hlen300, Hdots; reflexivity|].
    split; [exact Hlen300|].
    destruct (take_prefix (body email) 300) as [rest Hrest].
    exists rest. now split.
  - split; [lia|]. split; [reflexivity | lia].
Qed.

(** A slice counts the bullet of the template as one character. *)
Example take_counts_code_points :
  Py.len (bullet +:+ "a" +:+ bullet +:+ "b") = 4%nat
  /\ Py.take 2 (bullet +:+ "a" +:+ bullet +:+ "b") = bullet +:+ "a"
  /\ Py.take 3 (bullet +:+ "a" +:+ bullet +:+ "b") = bullet +:+ "a" +:+ bullet
  /\ Py.take 9 (bullet +:+ "a" +:+ bullet +:+ "b") = bullet +:+ "a" +:+ bullet +:+ "b".
Proof. repeat split; vm_compute; reflexivity. Qed.

End PreviewProperties.

(** X21: when the loop that asks for test addresses returns, it has between
    one and three addresses, each stripped, non-empty and with an at sign,
    and what remains of the input is a suffix of what was typed. *)
Theorem read_test_emails_valid (stdin test_emails rest : list string) :
  read_test_emails [] stdin = Returned (test_emails, rest) ->
  (1 <= length test_emails <= 3)%nat
  /\ List.Forall (fun a => Py.contains "@" a = true
                           /\ Py.strip a = a /\ a <> EmptyString) test_emails
  /\ exists consumed, stdin = consumed ++ rest.
Proof.
  assert (Hgen : forall stdin acc test_emails rest,
             (length acc <= 3)%nat ->
             List.Forall (fun a => Py.contains "@" a = true
                                   /\ Py.strip a = a /\ a <> EmptyString) acc ->
             read_test_emails acc stdin = Returned (test_emails, rest) ->
             ((length acc <= length test_emails <= 3)%nat
              /\ (1 <= length test_emails)%nat)
             /\ List.Forall (fun a => Py.contains "@" a = true
                                      /\ Py.strip a = a /\ a <> EmptyString) test_emails
             /\ exists consumed, stdin = consumed ++ rest).
  { clear. induction stdin as [|line stdin IH]; intros acc test_emails rest Hacc Hall;
      cbn [read_test_emails];
      destruct (Nat.leb_spec 3 (length acc)) as [Hfull | Hroom];
      try (intros Heq; inversion Heq; subst;
           split; [lia|]; split; [assumption | now exists []]);
      try discriminate.
    destruct (Py.truthy (Py.strip line)) eqn:Ht; cbn [negb].
    - destruct (Py.contains "@" (Py.strip line)) eqn:Hat.
      + intros Hrun. apply IH in Hrun.
        * destruct Hrun as [[Hl H1] [Hf [consumed Hc]]].
          rewrite length_app in Hl. simpl in Hl.
          split; [lia|]. split; [exact Hf|].
          exists (line :: consumed). simpl. now rewrite Hc.
        * rewrite length_app. simpl. lia.
        * apply List.Forall_app. split; [exact Hall|].
          constructor; [|constructor].
          split; [exact Hat|]. split; [apply strip_idempotent|].
          now apply truthy_true_iff.
      + intros Hrun. apply IH in Hrun; [|assumption..].
        destruct Hrun as [Hl [Hf [consumed Hc]]].
        split; [exact Hl|]. split; [exact Hf|].
        exists (line :: consumed). simpl. now rewrite Hc.
    - destruct (Nat.ltb_spec 0 (length acc)) as [Hpos | Hzero].
      + intros Heq. inversion Heq; subst.
        split; [lia|]. split; [assumption | now exists [line]].
      + intros Hrun. apply IH in Hrun; [|assumption..].
        destruct Hrun as [Hl [Hf [consumed Hc]]].
        split; [exact Hl|]. split; [exact Hf|].
        exists (line :: consumed). simpl. now rewrite Hc. }
  intros Hrun. apply Hgen in Hrun; [|simpl; lia | constructor].
  destruct Hrun as [[Hl H1] [Hf Hc]]. split; [lia|]. now split.
Qed.

Lemma read_test_emails_valid_witness :
  (1 <= length ["boss@example.com"; "qa@example.com"] <= 3)%nat
  /\ List.Forall (fun a => Py.contains "@" a = true
                           /\ Py.strip a = a /\ a <> EmptyString)
                 ["boss@example.com"; "qa@example.com"]
  /\ exists consumed,
       ["boss@example.com"; "nope"; " qa@example.com "; ""; "Yes"]
       = consumed ++ ["Yes"].
Proof.
  apply (read_test_emails_valid
           ["boss@example.com"; "nope"; " qa@example.com "; ""; "Yes"]
           ["boss@example.com"; "qa@example.com"] ["Yes"]).
  reflexivity.
Defined.


(** ** What a run keeps *)

Section RunProperties.

Context `{!Collaborators}.

Lemma resolve_email_unmapped_grows (r : EmailResolver) (username : string) :
  unmapped_users r ⊆ unmapped_users (snd (resolve_email r username)).
Proof.
  unfold resolve_email. destruct (negb _); [done|].
  destruct (Dict.get _ _); [done|].
  destruct (partial_match _ _); [done|].
  cbn. intros x Hx. apply elem_of_union. now right.
Qed.

Lemma search_contact_email_grows (self : OutlookEmailService) (name_or_email : string) :
  same_directory (snd (search_contact_email self name_or_email)) self
  /\ unmapped_users (email_resolver self)
     ⊆ unmapped_users (email_resolver (snd (search_contact_email self name_or_email))).
Proof.
  destruct (search_contact_email_keeps self name_or_email) as [Hm [Hb [Hc _]]].
  split; [now repeat split|].
  rewrite search_contact_email_eq.
  destruct (negb (Py.truthy name_or_email)); [done|].
  destruct (Py.contains "@" name_or_email && Py.contains "." name_or_email); [done|].
  cbn zeta.
  destruct (Py.truthy_opt _);
    [|destruct (outlook_answer self name_or_email)];
    cbn; apply resolve_email_unmapped_grows.
Qed.

Lemma resolve_cc_grows (cc_addresses : list string) :
  forall self : OutlookEmailService,
    same_directory (snd (resolve_cc self cc_addresses)) self
    /\ unmapped_users (email_resolver self)
       ⊆ unmapped_users (email_resolver (snd (resolve_cc self cc_addresses))).
Proof.
  induction cc_addresses as [|cc_addr rest IH]; intros self; cbn [resolve_cc].
  - split; [now repeat split | done].
  - destruct (search_contact_email_grows self cc_addr) as [[Hm [Hb Hc]] Hsub].
    destruct (search_contact_email self cc_addr) as [cc_email self1].
    cbn [fst snd] in *.
    destruct (IH self1) as [[Hm2 [Hb2 Hc2]] Hsub2].
    destruct (resolve_cc self1 rest) as [cc_emails self2].
    cbn [fst snd] in *.
    split; [repeat split; congruence | etrans; eassumption].
Qed.

Lemma send_email_grows (self : OutlookEmailService)
      (to_address subject body : string) (cc_addresses attachments : list string) :
  same_directory
    (snd (send_email self to_address subject body cc_addresses attachments)) self
  /\ unmapped_users (email_resolver self)
     ⊆ unmapped_users
         (email_resolver
            (snd (send_email self to_address subject body cc_addresses attachments))).
Proof.
  unfold send_email.
  set (self0 := record_call self
                  (mkEnvelope to_address subject body cc_addresses attachments)).
  assert (H0 : same_directory self0 self) by (now repeat split).
  change (email_resolver self) with (email_resolver self0).
  destruct (negb (is_connected self0)); [split; [exact H0 | done]|].
  destruct (search_contact_email_grows self0 to_address) as [[Hm [Hb Hc]] Hsub].
  destruct (search_contact_email self0 to_address) as [resolved self1].
  cbn [fst snd] in *.
  assert (H1 : same_directory self1 self) by (now repeat split).
  destruct resolved as [resolved|]; [|now split].
  destruct (negb (Py.truthy resolved)); [now split|].
  destruct (resolve_cc_grows cc_addresses self1) as [[Hm2 [Hb2 Hc2]] Hsub2].
  destruct (resolve_cc self1 cc_addresses) as [cc_emails self2].
  cbn [fst snd] in *.
  destruct (outlook_deliver _ _) as [sent w].
  cbn [fst snd]. destruct H1 as [Hm1 [Hb1 Hc1]].
  split; [repeat split; cbn; congruence | cbn; etrans; eassumption].
Qed.

Lemma send_loop_grows (email_data : list Envelope) :
  forall (self : OutlookEmailService) (successful failed_count : nat),
    same_directory (snd (send_loop self email_data successful failed_count)) self
    /\ unmapped_users (email_resolver self)
       ⊆ unmapped_users
           (email_resolver (snd (send_loop self email_data successful failed_count))).
Proof.
  induction email_data as [|e rest IH]; intros self successful failed_count;
    cbn [send_loop].
  - split; [now repeat split | done].
  - destruct (send_email_grows self (env_to e) (env_subject e) (env_body e)
                               (env_cc e) (env_attachments e))
      as [[Hm [Hb Hc]] Hsub].
    destruct (send_email self (env_to e) (env_subject e) (env_body e)
                         (env_cc e) (env_attachments e))
      as [success self1].
    cbn [fst snd] in *.
    destruct success;
      [destruct (IH self1 (S successful) failed_count) as [[Hm2 [Hb2 Hc2]] Hsub2]
      |destruct (IH self1 successful (S failed_count)) as [[Hm2 [Hb2 Hc2]] Hsub2]];
      (split; [repeat split; congruence | etrans; eassumption]).
Qed.

Lemma resolve_groups_grows (items : Dict.t DataFrame) :
  forall svc : OutlookEmailService,
    same_directory (snd (resolve_groups svc items)) svc
    /\ unmapped_users (email_resolver svc)
       ⊆ unmapped_users (email_resolver (snd (resolve_groups svc items)))
    /\ List.Forall
         (fun e => to e = requester_name e
                   /\ resolved_email e
                      = fst (search_contact_email svc (requester_name e)))
         (fst (resolve_groups svc items)).
Proof.
  induction items as [|[requester items_df] rest IH]; intros svc; cbn [resolve_groups].
  - split; [now repeat split|]. split; [done | constructor].
  - destruct (search_contact_email_grows svc requester) as [[Hm [Hb Hc]] Hsub].
    destruct (search_contact_email svc requester) as [resolved svc1] eqn:Hsearch.
    cbn [fst snd] in *.
    destruct (IH svc1) as [[Hm2 [Hb2 Hc2]] [Hsub2 Hall]].
    destruct (resolve_groups svc1 rest) as [email_data svc2].
    cbn [fst snd] in *.
    split; [repeat split; congruence|]. split; [etrans; eassumption|].
    constructor.
    + cbn. split; [reflexivity|]. now rewrite Hsearch.
    + rewrite List.Forall_forall in Hall. apply List.Forall_forall.
      intros e He. destruct (Hall e He) as [Hto Hres]. split; [exact Hto|].
      rewrite Hres. now apply search_contact_email_answer.
Qed.

(** X22: the address reported for a group is the answer of
    [search_contact_email] for the key of the group on the service as it
    was before any group was resolved, whatever the order of the groups;
    generating the e-mail data changes neither the mapping nor the address
    book and removes nothing from the unmapped set. *)
Theorem generate_email_data_reports_answers (self : ERFAutomationService) :
  let run := generate_email_data_with_resolution self in
  List.Forall
    (fun e => to e = requester_name e
              /\ resolved_email e
                 = fst (search_contact_email (email_service self) (requester_name e)))
    (fst run)
  /\ same_directory (email_service (snd run)) (email_service self)
  /\ unmapped_users (email_resolver (email_service self))
     ⊆ unmapped_users (email_resolver (email_service (snd run))).
Proof.
  cbn zeta. unfold generate_email_data_with_resolution.
  destruct (resolve_groups_grows (get_grouped_data (excel_processor self))
                                 (email_service self)) as [Hd [Hsub Hall]].
  destruct (resolve_groups _ _) as [email_data svc]. cbn [fst snd] in *.
  split; [exact Hall|]. split; [exact Hd | exact Hsub].
Qed.

(** X23: in live mode nothing is sent without the confirmation: when the
    line typed is not exactly SEND LIVE the run is reported as cancelled
    with zero counts, and when there is no line to read the run ends at the
    prompt with [EOFError]; in both cases [send_email] is never called and
    Outlook is untouched. *)
Theorem live_mode_needs_confirmation (self : ERFAutomationService) :
  (forall (final_confirm : string) (rest : list string),
      final_confirm <> "SEND LIVE" ->
      let run := send_emails self false (final_confirm :: rest) in
      fst run = Returned (0%nat, 0%nat, SendCancelled)
      /\ send_calls (email_service (snd run)) = send_calls (email_service self)
      /\ outlook (email_service (snd run)) = outlook (email_service self))
  /\ (let run := send_emails self false [] in
      fst run = EOFError
      /\ send_calls (email_service (snd run)) = send_calls (email_service self)
      /\ outlook (email_service (snd run)) = outlook (email_service self)).
Proof.
  split.
  - intros final_confirm rest Hne. cbn zeta. unfold send_emails.
    destruct (generate_email_data_spec self) as [Hcalls _].
    destruct (generate_email_data_outlook self) as [Hout _].
    destruct (generate_email_data_with_resolution self) as [email_data self1].
    cbn [fst snd] in *.
    destruct (String.eqb_spec final_confirm "SEND LIVE") as [Heq | _];
      [contradiction|].
    cbn [negb fst snd]. now split.
  - cbn zeta. unfold send_emails.
    destruct (generate_email_data_spec self) as [Hcalls _].
    destruct (generate_email_data_outlook self) as [Hout _].
    destruct (generate_email_data_with_resolution self) as [email_data self1].
    cbn [fst snd] in *. now split.
Qed.

(** X24: a run of [send_emails], in any mode and with any input, changes
    neither the mapping nor the address book nor the connection, and
    removes nothing from the unmapped set. *)
Theorem send_emails_keeps_directory
        (self : ERFAutomationService) (test_mode : bool) (stdin : list string) :
  let run := send_emails self test_mode stdin in
  same_directory (email_service (snd run)) (email_service self)
  /\ unmapped_users (email_resolver (email_service self))
     ⊆ unmapped_users (email_resolver (email_service (snd run))).
Proof.
  cbn zeta. unfold send_emails, generate_email_data_with_resolution.
  destruct (resolve_groups_grows (get_grouped_data (excel_processor self))
                                 (email_service self)) as [Hd [Hsub _]].
  destruct (resolve_groups _ _) as [email_data svc]. cbn [fst snd] in *.
  destruct test_mode; [now split|].
  destruct stdin as [|line rest]; [now split|].
  destruct (negb (String.eqb line "SEND LIVE")); [now split|].
  unfold send_bulk_emails.
  destruct (send_loop_grows (map envelope_of (List.filter email_found email_data))
                            (with_stats svc zero_stats) 0 0) as [Hd2 Hsub2].
  destruct (send_loop _ _ _ _) as [[successful failed_count] svc2].
  cbn [fst snd email_service with_email_service] in *.
  destruct Hd as [Hm [Hb Hc]]. destruct Hd2 as [Hm2 [Hb2 Hc2]].
  cbn in Hm2, Hb2, Hc2, Hsub2.
  split; [repeat split; congruence | etrans; eassumption].
Qed.

End RunProperties.

Lemma live_mode_needs_confirmation_witness :
  let run := @send_emails sample_collaborators sample_automation false
               ["send live"; "SEND LIVE"] in
  fst run = Returned (0%nat, 0%nat, SendCancelled)
  /\ send_calls (email_service (snd run)) = send_calls (email_service sample_automation)
  /\ outlook (email_service (snd run)) = outlook (email_service sample_automation).
Proof.
  apply (proj1 (@live_mode_needs_confirmation sample_collaborators sample_automation)
               "send live" ["SEND LIVE"]).
  intros Heq. discriminate Heq.
Defined.

(** ** Sheets without pivot signs *)

Lemma round53_nonneg (P : Z) : (0 <= P)%Z -> (0 <= Float.round53 P)%Z.
Proof.
  intros HP. unfold Float.round53.
  destruct (Z.leb_spec (Z.log2 P - 52) 0) as [_ | Hs]; [exact HP|].
  apply Z.shiftl_nonneg.
  assert (Hq : (0 <= Z.shiftr P (Z.log2 P - 52))%Z) by now apply Z.shiftr_nonneg.
  destruct (_ || _); lia.
Qed.

Lemma zero_exceeds_nothing (m : nat) (M : Z) :
  (0 <= M)%Z -> Float.int_gt_mul 0 m M = false.
Proof.
  intros HM. unfold Float.int_gt_mul. apply Z.ltb_ge. simpl.
  apply round53_nonneg. lia.
Qed.

(** X25: a sheet of at least three rows that has no unnamed column and no
    empty cell in its first row is classified by the marker phrases alone. *)
Theorem named_full_sheet_classified_by_markers (df : DataFrame) :
  (3 <= DF.len df)%nat ->
  unnamed_cols df = [] ->
  first_row_na_count df = 0%nat ->
  _is_real_pivot_table df = has_pivot_indicator df.
Proof.
  intros Hrows Hnamed Hfull. unfold _is_real_pivot_table.
  destruct (Nat.ltb_spec (DF.len df) 3) as [Hlt | _]; [lia|].
  rewrite Hnamed, Hfull. cbn [length].
  rewrite !zero_exceeds_nothing by (unfold Float.M_0_7, Float.M_0_8; lia).
  reflexivity.
Qed.

Lemma named_full_sheet_classified_by_markers_witness :
  _is_real_pivot_table main_data_sheet = has_pivot_indicator main_data_sheet.
Proof.
  apply named_full_sheet_classified_by_markers.
  - unfold DF.len. simpl. lia.
  - reflexivity.
  - reflexivity.
Defined.

(** X26: a workbook with a single sheet that has a name, at least one row,
    both mandatory columns and no pivot signs yields that sheet. *)
Theorem single_eligible_sheet_is_selected (name : string) (df : DataFrame) :
  name <> EmptyString ->
  DF.empty df = false ->
  DF.has_column "ERF Sched Line Status" df = true ->
  DF.has_column "Entered by" df = true ->
  _is_real_pivot_table df = false ->
  find_data_sheet [(name, df)] = (true, Some name, Some df).
Proof.
  intros Hname Hempty Hstatus Hby Hpivot.
  assert (El : eligible df = true).
  { unfold eligible. now rewrite Hempty, Hstatus, Hby, Hpivot. }
  unfold find_data_sheet. cbn [fold_left].
  rewrite analyze_sheet_eligible by exact El. cbn [best_score].
  destruct (Nat.ltb_spec 0 (_score_sheet df)) as [_ | Hle];
    [|pose proof (eligible_score_pos df El); lia].
  cbn [best_sheet best_data Py.truthy_opt].
  now rewrite (proj2 (truthy_true_iff name) Hname).
Qed.

Lemma single_eligible_sheet_is_selected_witness :
  find_data_sheet [("Main data", main_data_sheet)]
  = (true, Some "Main data", Some main_data_sheet).
Proof.
  apply single_eligible_sheet_is_selected; [discriminate | reflexivity..].
Defined.
